(** * PartsToPixels: a shallow embedding of the frame pipeline

    The development follows the four programs of the repository:

    - [Transport]: [socket.c] and [sender.c], the raw-Ethernet frame pump;
    - [Director]: the back-pressure loop and the brightness intake of
      [direct.ts], over a small model of the Redis keys it touches;
    - [Sensors]: the rate limiter of [sense.ts];
    - [Player]: [adjustColorForBrightness] and [Player.play] of [player.ts].

    C integers are [Z] with the conversions to [uint8_t] written out, byte
    buffers are [list Z], JavaScript numbers that hold fractions are IEEE
    binary64 values ([PrimFloat.float]), JavaScript numbers that only ever
    hold small integers are [Z].  Module state (the statics of [socket.c],
    the fields of [Player], the [let] variables of [sense.ts]) is threaded
    explicitly. *)

From Stdlib Require Import ZArith Floats Lia Ascii String Sorted.
From stdpp Require Import base tactics option list list_numbers gmap strings.

#[local] Set Warnings "-inexact-float,-register-all".
Local Open Scope Z_scope.

(** ** Numbers shared by the programs *)

(** An integer held in a C [long] or in a JavaScript number, as a binary64
    value.  Exact for |z| < 2^53, which covers every use below. *)
Definition float_of_Z (z : Z) : float :=
  if z <? 0 then PrimFloat.opp (PrimFloat.of_uint63 (Uint63.of_Z (- z)))
  else PrimFloat.of_uint63 (Uint63.of_Z z).

(** The exact value of a finite binary64 number is [m * 2^e]; the two
    functions below read an integer off it.  [None] stands for NaN (and for
    the infinities, which no computation below produces). *)
Definition float_floor_scaled (num_shift : Z) (x : float) : option Z :=
  match Prim2SF x with
  | S754_zero _ => Some (num_shift / 2)
  | S754_finite s m e =>
      let v := if s then Z.neg m else Z.pos m in
      if 0 <=? e then Some (v * 2 ^ e + num_shift / 2)
      else Some ((2 * v + num_shift * 2 ^ (- e)) / 2 ^ (- e + 1))
  | _ => None
  end.

(** [Math.round]: the nearest integer, ties towards +infinity, that is
    [floor (x + 1/2)] computed exactly. *)
Definition Math_round (x : float) : option Z := float_floor_scaled 1 x.

(** C conversion of a non-negative [double] to an unsigned integer type:
    truncation towards zero. *)
Definition float_trunc (x : float) : option Z := float_floor_scaled 0 x.

(** Store of an [int] into a [uint8_t]: reduction modulo 256. *)
Definition to_uint8 (v : Z) : Z := v mod 256.

(** The decimal rendering of an integer, as [printf("%d")] and the
    JavaScript conversion of an integer-valued number to a string produce
    it. *)
Fixpoint decimal_digits (fuel : nat) (n : Z) (acc : string) : string :=
  match fuel with
  | O => acc
  | S fuel' =>
      let acc' := String (ascii_of_nat (Z.to_nat (48 + n mod 10))) acc in
      if n / 10 =? 0 then acc' else decimal_digits fuel' (n / 10) acc'
  end.

Definition decimal_string (z : Z) : string :=
  if z <? 0
  then String "-" (decimal_digits (S (Z.to_nat (Z.log2 (- z)))) (- z)
                                  EmptyString)
  else decimal_digits (S (Z.to_nat (Z.log2 z))) z EmptyString.

(** The character of a decimal digit. *)
Definition digit_char (d : Z) : ascii := ascii_of_nat (Z.to_nat (48 + d)).

(** [Math.floor] and [Math.ceil]. *)
Definition Math_floor (x : float) : option Z := float_floor_scaled 0 x.

Definition Math_ceil (x : float) : option Z :=
  Z.opp <$> float_floor_scaled 0 (PrimFloat.opp x).

(** ** The Transport: [socket.c] and [sender.c] *)

Module Transport.

(** *** [socket.h] *)

Definition DEST_MAC : Z := 0x112233445566.
Definition ROW_ETHER_TYPE : Z := 0x5500.
Definition FRAME_ETHER_TYPE : Z := 0x0107.
Definition FRAME_DATA_LENGTH : nat := 98.

Definition FRAME_BRIGHTNESS_OFFSET : nat := 21.
Definition FRAME_GAMMA_FLAG_OFFSET : nat := 22.
Definition FRAME_BRIGHTNESS_R_OFFSET : nat := 24.
Definition FRAME_BRIGHTNESS_G_OFFSET : nat := 25.
Definition FRAME_BRIGHTNESS_B_OFFSET : nat := 26.

(** *** [socket.c] *)

Definition ETH_ALEN : nat := 6.
Definition BUF_SIZ : Z := 1540.
Definition ETHER_HEADER_SIZE : Z := 14.

(** What [send_socket] hands to [sendto]: the Ethernet header it builds
    and the payload copied behind it. *)
Record eth_frame := EthFrame {
  ether_dhost : list Z;
  ether_shost : list Z;
  ether_type : Z;
  eth_payload : list Z
}.

(** The statics of [socket.c].  [src_mac] is the 64-bit static that
    [open_socket] fills once; the descriptor and the interface index play
    no role in what is sent. *)
Record socket_state := SocketState {
  src_mac : Z;
  current_brightness : Z;
  frame_data : list Z
}.

(** The statics once [open_socket] has returned, [mac] being the value
    it left in [src_mac]. *)
Definition initial_socket (mac : Z) : socket_state :=
  {| src_mac := mac;
     current_brightness := 0;
     frame_data := replicate FRAME_DATA_LENGTH 0 |}.

(** [memcpy(&src_mac, sa_data, 6)]: the six bytes of the hardware address
    land in the first six bytes of the zeroed [uint64_t], and what number
    that is depends on the byte order of the host. *)
Inductive byte_order := LittleEndian | BigEndian.

Definition memcpy_uint64 (order : byte_order) (bytes : list Z) : Z :=
  match order with
  | LittleEndian => foldr (fun b acc => b + 256 * acc) 0 bytes
  | BigEndian =>
      foldl (fun acc b => acc * 256 + b) 0 bytes
      * 256 ^ (8 - Z.of_nat (length bytes))
  end.

(** [open_socket], given the hardware address [SIOCGIFHWADDR] reports. *)
Definition open_socket (order : byte_order) (sa_data : list Z)
    : socket_state :=
  initial_socket (memcpy_uint64 order (take 6 sa_data)).

Definition encode_mac (mac : Z) : list Z :=
  [ Z.land (Z.shiftr mac 40) 0xFF;
    Z.land (Z.shiftr mac 32) 0xFF;
    Z.land (Z.shiftr mac 24) 0xFF;
    Z.land (Z.shiftr mac 16) 0xFF;
    Z.land (Z.shiftr mac 8) 0xFF;
    Z.land mac 0xFF ].

(** Conversion to a 32-bit [int] and to the [uint16_t] that [htons]
    takes. *)
Definition to_int (z : Z) : Z := (z + 2 ^ 31) mod 2 ^ 32 - 2 ^ 31.
Definition to_uint16 (z : Z) : Z := z mod 2 ^ 16.

(** [send_socket]: the frame given to [sendto].  [ether_type] is the
    16-bit number the two type bytes spell on the wire.  The payload is
    clamped to the capacity of [sendbuf]; the result of [sendto] is only
    logged by the callers of this module and is left out.  The [len] of
    the code is an [int]: for [0 <= len], with [data] holding that many
    bytes, the frame is the one below; for a negative [len] the code hands
    [(size_t)len] to [memcpy], which writes past [sendbuf], and nothing
    is claimed of the frame. *)
Definition send_socket (s : socket_state) (ether_type : Z)
    (data : list Z) (len : Z) : eth_frame :=
  let len := if BUF_SIZ <? len + ETHER_HEADER_SIZE
             then BUF_SIZ - ETHER_HEADER_SIZE else len in
  {| ether_dhost := encode_mac DEST_MAC;
     ether_shost := encode_mac (src_mac s);
     ether_type := to_uint16 ether_type;
     eth_payload := take (Z.to_nat len) data |}.

Definition set_brightness (brightness : Z) (s : socket_state) : socket_state :=
  let brightness :=
    if (brightness <? 0) || (255 <? brightness)
    then (let b := if brightness <? 0 then 0 else brightness in
          if 255 <? b then 255 else b)
    else brightness in
  {| src_mac := src_mac s;
     current_brightness := brightness;
     frame_data := frame_data s |}.

(** [send_frame]: five stores into the static template, then the commit
    packet. *)
Definition send_frame (s : socket_state) : socket_state * eth_frame :=
  let b := to_uint8 (current_brightness s) in
  let fd := <[FRAME_BRIGHTNESS_OFFSET := b]> (frame_data s) in
  let fd := <[FRAME_GAMMA_FLAG_OFFSET := 5]> fd in
  let fd := <[FRAME_BRIGHTNESS_R_OFFSET := b]> fd in
  let fd := <[FRAME_BRIGHTNESS_G_OFFSET := b]> fd in
  let fd := <[FRAME_BRIGHTNESS_B_OFFSET := b]> fd in
  let s' := {| src_mac := src_mac s;
               current_brightness := current_brightness s;
               frame_data := fd |} in
  (s', send_socket s' FRAME_ETHER_TYPE fd (Z.of_nat FRAME_DATA_LENGTH)).

(** [send_row]: its [size_t] length is cast to [int]. *)
Definition send_row (s : socket_state) (data : list Z) (len : Z) : eth_frame :=
  send_socket s ROW_ETHER_TYPE data (to_int len).

(** The shape of the commit template: zero everywhere but at the five
    offsets [send_frame] stores to. *)
Definition template_shape (fd : list Z) : Prop :=
  exists x y r g b,
    fd = replicate 21 0 ++ [x; y; 0; r; g; b] ++ replicate 71 0.

(** What every sequence of calls keeps true of the statics. *)
Definition socket_inv (s : socket_state) : Prop :=
  template_shape (frame_data s) /\ 0 <= current_brightness s <= 255.

(** The calls [socket.h] offers after [open_socket], and what each does
    to the statics. *)
Inductive socket_call :=
| CallSetBrightness (brightness : Z)
| CallSendFrame
| CallSendRow (data : list Z) (len : Z).

Definition call (s : socket_state) (c : socket_call) : socket_state :=
  match c with
  | CallSetBrightness brightness => set_brightness brightness s
  | CallSendFrame => (send_frame s).1
  | CallSendRow _ _ => s
  end.

(** *** [sender.c] *)

Definition BILLION : Z := 1000000000.
Definition BYTES_PER_PIXEL : Z := 4.
Definition FPS : Z := 240.
Definition FPS_SLEEP : float := (1 / float_of_Z FPS)%float.
Definition ROW_HEADER_SIZE : nat := 7.
Definition SIGN_WIDTH : Z := 320.
Definition SIGN_HEIGHT : Z := 64.
Definition SLEEP_THRESHOLD_S : float := 0.000200%float.
Definition SLEEP_MARGIN_S : float := 0.000100%float.

Record timespec := Timespec { tv_sec : Z; tv_nsec : Z }.

Definition get_time_diff (started_at ended_at : timespec) : float :=
  let seconds := tv_sec ended_at - tv_sec started_at in
  let nanoseconds := tv_nsec ended_at - tv_nsec started_at in
  (float_of_Z seconds + float_of_Z nanoseconds / float_of_Z BILLION)%float.

(** hiredis replies; a [redisReply *] that may be [NULL] is an [option]. *)
Inductive redisReply :=
| REDIS_REPLY_STRING (str : list Z)
| REDIS_REPLY_ARRAY (element : list redisReply)
| REDIS_REPLY_INTEGER (integer : Z)
| REDIS_REPLY_NIL
| REDIS_REPLY_STATUS (str : list Z)
| REDIS_REPLY_ERROR (str : list Z).

(** The outcome of the two pipelined [redisGetReply] calls. *)
Inductive pipeline_result :=
| PipelineFailed
| PipelineOk (rr_blpop rr_brightness : option redisReply).

(** [atoi] on the bytes of a C string, as the C library of the platform
    computes it: [(int) strtol(s, NULL, 10)].  [strtol] skips leading
    white space, takes an optional sign and then decimal digits up to the
    first other byte, and saturates at the ends of the 64-bit [long]; the
    conversion to [int] keeps the low 32 bits.  Within the range of [int]
    this is the value the C standard gives; outside it the standard
    leaves [atoi] undefined, and this is what the program does. *)
Definition is_space (c : Z) : bool := (c =? 32) || ((9 <=? c) && (c <=? 13)).
Definition is_digit (c : Z) : bool := (48 <=? c) && (c <=? 57).

Definition LONG_MIN : Z := - 2 ^ 63.
Definition LONG_MAX : Z := 2 ^ 63 - 1.

Fixpoint atoi_digits (acc : Z) (s : list Z) : Z :=
  match s with
  | c :: s' => if is_digit c then atoi_digits (10 * acc + (c - 48)) s' else acc
  | [] => acc
  end.

(** The number the string spells, before any reduction to a C type. *)
Fixpoint decimal_prefix (s : list Z) : Z :=
  match s with
  | c :: s' =>
      if is_space c then decimal_prefix s'
      else if c =? 45 then - atoi_digits 0 s'
      else if c =? 43 then atoi_digits 0 s'
      else atoi_digits 0 s
  | [] => 0
  end.

Definition strtol (s : list Z) : Z :=
  Z.max LONG_MIN (Z.min LONG_MAX (decimal_prefix s)).

Definition atoi (s : list Z) : Z := to_int (strtol s).

(** The bytes of a C string. *)
Definition c_string (s : string) : list Z :=
  map (fun c => Z.of_nat (nat_of_ascii c)) (list_ascii_of_string s).

(** What the process does to the outside, in order. *)
Inductive event :=
| EvSend (f : eth_frame)
| EvUsleep (us : Z)
| EvClock (now : timespec)
| EvStderr
| EvStdout.

(** The state the main loop works on: the statics of [socket.c], the
    number of clock readings taken so far, and the events so far (oldest
    first). *)
Record world := World {
  sock : socket_state;
  clock_reads : nat;
  events : list event
}.

Definition emit (e : event) (w : world) : world :=
  {| sock := sock w; clock_reads := clock_reads w; events := events w ++ [e] |}.

Definition with_sock (s : socket_state) (w : world) : world :=
  {| sock := s; clock_reads := clock_reads w; events := events w |}.

(** The inner loop of [process_and_send_frame].  [src] is the frame from
    the read pointer on, [pixel_data] the write index into [payload].
    A read past the end of the frame yields 0 here; the length check
    before the loop excludes it. *)
Fixpoint convert_row (cols : nat) (src : list Z) (pixel_data : nat)
    (payload : list Z) : list Z * list Z :=
  match cols with
  | O => (src, payload)
  | S cols' =>
      let payload := <[pixel_data := src !!! 2%nat]> payload in
      let payload := <[S pixel_data := src !!! 1%nat]> payload in
      let payload := <[S (S pixel_data) := src !!! 0%nat]> payload in
      convert_row cols' (drop (Z.to_nat BYTES_PER_PIXEL) src)
                  (3 + pixel_data)%nat payload
  end.

Definition write_row_header (row : Z) (payload : list Z) : list Z :=
  let payload := <[0%nat := to_uint8 row]> payload in
  let payload := <[1%nat := 0]> payload in
  let payload := <[2%nat := 0]> payload in
  let payload := <[3%nat := to_uint8 (Z.shiftr SIGN_WIDTH 8)]> payload in
  let payload := <[4%nat := to_uint8 (Z.land SIGN_WIDTH 0xFF)]> payload in
  let payload := <[5%nat := 0x08]> payload in
  <[6%nat := 0x88]> payload.

(** The row loop: [rows] rows remain, the next one has index [row]. *)
Fixpoint send_rows (rows : nat) (row : Z) (src payload : list Z)
    (payload_len : Z) (w : world) : list Z * world :=
  match rows with
  | O => (payload, w)
  | S rows' =>
      let payload := write_row_header row payload in
      let '(src, payload) :=
        convert_row (Z.to_nat SIGN_WIDTH) src ROW_HEADER_SIZE payload in
      let w := emit (EvSend (send_row (sock w) payload payload_len)) w in
      send_rows rows' (row + 1) src payload payload_len w
  end.

(** The brightness reply is applied only when it is a string whose value
    lies in 0..255. *)
Definition apply_brightness (rr_brightness : option redisReply)
    (s : socket_state) : socket_state :=
  match rr_brightness with
  | Some (REDIS_REPLY_STRING str) =>
      let brightness := atoi str in
      if (0 <=? brightness) && (brightness <=? 255)
      then set_brightness brightness s else s
  | _ => s
  end.

(** [process_and_send_frame]: the return value, the row buffer and the
    world afterwards.  [None] is a reply of a shape the code dereferences
    without a check (anything but nil or a two-element array holding the
    frame), where its behaviour is undefined. *)
Definition process_and_send_frame (io : pipeline_result)
    (payload : list Z) (payload_len : Z) (w : world)
    : option (Z * list Z * world) :=
  match io with
  | PipelineFailed => Some (-1, payload, w)
  | PipelineOk rr_blpop rr_brightness =>
      let w := with_sock (apply_brightness rr_brightness (sock w)) w in
      match rr_blpop with
      | None | Some REDIS_REPLY_NIL => Some (-1, payload, w)
      | Some (REDIS_REPLY_ARRAY (_ :: REDIS_REPLY_STRING matrix_str :: _)) =>
          let matrix_len := Z.of_nat (length matrix_str) in
          let expected_len := SIGN_WIDTH * SIGN_HEIGHT * BYTES_PER_PIXEL in
          if negb (matrix_len =? expected_len)
          then Some (-1, payload, emit EvStderr w)
          else
            let '(payload, w) :=
              send_rows (Z.to_nat SIGN_HEIGHT) 0 matrix_str payload
                        payload_len w in
            Some (0, payload, w)
      | Some _ => None
      end
  end.

Section MainLoop.

(** The monotonic raw clock: [clock k] is what the [k]-th call of
    [clock_gettime] returns. *)
Variable clock : nat -> timespec.

Definition clock_gettime (w : world) : timespec * world :=
  (clock (clock_reads w),
   {| sock := sock w; clock_reads := S (clock_reads w);
      events := events w ++ [EvClock (clock (clock_reads w))] |}).

(** The hybrid wait.  The loop runs as long as the clock says so; [fuel]
    bounds the number of polls. *)
Fixpoint wait_deadline (fuel : nat) (send_started : timespec)
    (elapsed_time_s : float) (w : world) : option world :=
  if PrimFloat.ltb elapsed_time_s FPS_SLEEP then
    match fuel with
    | O => None
    | S fuel' =>
        let remaining := (FPS_SLEEP - elapsed_time_s)%float in
        let w :=
          if PrimFloat.ltb SLEEP_THRESHOLD_S remaining then
            let us := default 0 (float_trunc
                        ((remaining - SLEEP_MARGIN_S) * 1e6)%float) in
            if 0 <? us then emit (EvUsleep us) w else w
          else w in
        let '(now, w) := clock_gettime w in
        wait_deadline fuel' send_started
                      (get_time_diff send_started now) w
    end
  else Some w.

(** The locals of [main] that live across iterations. *)
Record main_state := MainState {
  the_world : world;
  payload_buf : list Z;
  sends : Z;
  start_time : timespec;
  send_started : timespec
}.

Definition payload_length : Z := Z.of_nat ROW_HEADER_SIZE + SIGN_WIDTH * 3.

(** One pass through the body of [while (running)].  [interrupted] is
    the value of [!running] when a failed pass reads it. *)
Definition main_iteration (fuel : nat) (io : pipeline_result)
    (interrupted : bool) (st : main_state) : option main_state :=
  match process_and_send_frame io (payload_buf st) payload_length
                               (the_world st) with
  | None => None
  | Some (ret, payload, w) =>
      if negb (ret =? 0) then
        let w := if interrupted then w else emit (EvUsleep 100) w in
        Some {| the_world := w; payload_buf := payload; sends := sends st;
                start_time := start_time st;
                send_started := send_started st |}
      else
        let '(now, w) := clock_gettime w in
        let elapsed_time_s := get_time_diff (send_started st) now in
        match wait_deadline fuel (send_started st) elapsed_time_s w with
        | None => None
        | Some w =>
            let '(send_started', w) := clock_gettime w in
            let '(s', commit) := send_frame (sock w) in
            let w := emit (EvSend commit) (with_sock s' w) in
            let sends' := sends st + 1 in
            if sends' mod FPS =? 0 then
              let '(current_time, w) := clock_gettime w in
              let w := emit EvStdout w in
              let '(start_time', w) := clock_gettime w in
              Some {| the_world := w; payload_buf := payload; sends := 0;
                      start_time := start_time';
                      send_started := send_started' |}
            else
              Some {| the_world := w; payload_buf := payload;
                      sends := sends';
                      start_time := start_time st;
                      send_started := send_started' |}
        end
  end.

End MainLoop.

(** The world with further events appended. *)
Definition add_events (evs : list event) (w : world) : world :=
  {| sock := sock w; clock_reads := clock_reads w;
     events := events w ++ evs |}.

(** The contents of the row buffer when row [row] is sent, [src] being
    the frame from the first pixel of that row on: the seven header bytes
    and, for each column, the bytes 2, 1, 0 of the pixel. *)
Definition row_buffer (src : list Z) (row : Z) (buf : list Z) : Prop :=
  length buf = 967%nat /\
  take 7 buf = [to_uint8 row; 0; 0; 1; 64; 0x08; 0x88] /\
  forall c, (c < 320)%nat ->
    buf !! (7 + 3 * c)%nat = Some (src !!! (4 * c + 2)%nat) /\
    buf !! (7 + 3 * c + 1)%nat = Some (src !!! (4 * c + 1)%nat) /\
    buf !! (7 + 3 * c + 2)%nat = Some (src !!! (4 * c)%nat).

(** Sample inputs: a black frame, the state [main] enters its loop with
    (two readings of the clock taken, a row buffer allocated), a clock that
    advances one second per reading, and the reply of [BLPOP] that carries
    a frame. *)
Definition black_frame : list Z :=
  replicate (Z.to_nat (SIGN_WIDTH * SIGN_HEIGHT * BYTES_PER_PIXEL)) 0.

Definition fresh_main_state (clock : nat -> timespec) (mac : Z) : main_state :=
  {| the_world := {| sock := initial_socket mac; clock_reads := 2;
                     events := [] |};
     payload_buf := replicate (Z.to_nat payload_length) 0;
     sends := 0;
     start_time := clock 0%nat;
     send_started := clock 1%nat |}.

Definition seconds_clock (k : nat) : timespec :=
  {| tv_sec := Z.of_nat k; tv_nsec := 0 |}.

(** A clock that advances one millisecond per reading. *)
Definition millis_clock (k : nat) : timespec :=
  {| tv_sec := 0; tv_nsec := Z.of_nat k * 1000000 |}.

Definition blpop_reply (frame : list Z) : option redisReply :=
  Some (REDIS_REPLY_ARRAY
          [REDIS_REPLY_STRING (c_string "player:frames");
           REDIS_REPLY_STRING frame]).

(** *** What a pass of the main loop is given, and what it must keep *)

(** The reply carries a frame of the expected size. *)
Definition yields_frame (io : pipeline_result) : bool :=
  match io with
  | PipelineOk (Some (REDIS_REPLY_ARRAY
                        (_ :: REDIS_REPLY_STRING matrix_str :: _))) _ =>
      Z.of_nat (length matrix_str)
      =? SIGN_WIDTH * SIGN_HEIGHT * BYTES_PER_PIXEL
  | _ => false
  end.

(** The replies [process_and_send_frame] has a defined behaviour on: a
    failed pipeline, no reply, nil, or an array whose second element is a
    string. *)
Definition handled_reply (io : pipeline_result) : bool :=
  match io with
  | PipelineFailed => true
  | PipelineOk None _ => true
  | PipelineOk (Some REDIS_REPLY_NIL) _ => true
  | PipelineOk (Some (REDIS_REPLY_ARRAY (_ :: REDIS_REPLY_STRING _ :: _))) _ =>
      true
  | PipelineOk (Some _) _ => false
  end.

(** A frame as the FPGA expects it, sent with [mac] in the static
    [src_mac]: addressed to 11:22:33:44:55:66, the source bytes being
    [encode_mac mac], and either a row packet of 7 + 3 * 320 bytes or the
    commit packet of 98 bytes. *)
Definition wire_frame (mac : Z) (f : eth_frame) : Prop :=
  ether_dhost f = [0x11; 0x22; 0x33; 0x44; 0x55; 0x66] /\
  ether_shost f = encode_mac mac /\
  ((ether_type f = ROW_ETHER_TYPE /\ length (eth_payload f) = 967%nat) \/
   (ether_type f = FRAME_ETHER_TYPE /\ length (eth_payload f) = 98%nat)).

(** What [main] establishes before its loop: the row buffer has its
    allocated length and the statics of [socket.c] are as its calls leave
    them. *)
Definition main_inv (st : main_state) : Prop :=
  length (payload_buf st) = 967%nat /\ socket_inv (sock (the_world st)).

(** The loop of [main] over the replies of successive passes. *)
Fixpoint main_run (clock : nat -> timespec) (fuel : nat)
    (passes : list (pipeline_result * bool)) (st : main_state)
    : option main_state :=
  match passes with
  | [] => Some st
  | (io, interrupted) :: rest =>
      match main_iteration clock fuel io interrupted st with
      | Some st' => main_run clock fuel rest st'
      | None => None
      end
  end.

Definition is_commit (f : eth_frame) : bool :=
  ether_type f =? FRAME_ETHER_TYPE.

Definition is_row (f : eth_frame) : bool :=
  ether_type f =? ROW_ETHER_TYPE.

(** Six bytes, most significant first, read back as a number. *)
Definition decode_mac (bytes : list Z) : Z :=
  foldl (fun acc b => acc * 256 + b) 0 bytes.

(** *** [connect_to_redis] *)

(** What one call of [redisConnectUnix] gives: [NULL], a context with its
    error flag set, or a usable context. *)
Inductive connect_result :=
| ConnectNull
| ConnectError
| ConnectOk (context : nat).

(** What the loop does to the outside: the two messages on [stderr],
    [redisFree], [sleep]. *)
Inductive connect_event :=
| LogConnectionError
| LogAllocationError
| ConnectFree
| ConnectSleep (seconds : Z).

(** How the loop ends: with the context of the attempt that succeeded, or
    in the read of [c->err] that the loop condition makes after
    [redisFree(c)], which is undefined behaviour. *)
Inductive connect_outcome :=
| Connected (context : nat)
| ReadsFreedContext.

(** The [do ... while] loop over the results of the successive attempts.
    [None]: the attempts given all gave [NULL], and the loop is still
    running. *)
Fixpoint connect_to_redis (attempts : list connect_result)
    : option (connect_outcome * list connect_event) :=
  match attempts with
  | [] => None
  | ConnectOk c :: _ => Some (Connected c, [])
  | ConnectNull :: rest =>
      match connect_to_redis rest with
      | Some (o, evs) =>
          Some (o, LogAllocationError :: ConnectSleep 1 :: evs)
      | None => None
      end
  | ConnectError :: _ =>
      Some (ReadsFreedContext,
            [LogConnectionError; ConnectFree; ConnectSleep 1])
  end.

(** An event of the wait for the deadline counted from [send_started]:
    a sleep, or a reading of the clock that is still before it. *)
Definition waiting (send_started : timespec) (e : event) : bool :=
  match e with
  | EvUsleep _ => true
  | EvClock now => PrimFloat.ltb (get_time_diff send_started now) FPS_SLEEP
  | _ => false
  end.

(** The frames handed to [sendto], oldest first. *)
Definition sent (evs : list event) : list eth_frame :=
  omap (fun e => match e with EvSend f => Some f | _ => None end) evs.

(** Counters over a run: the FPS lines written to standard output, the
    commit and row packets on the wire, and the passes whose reply holds a
    frame of the right size. *)
Definition is_stdout (e : event) : bool :=
  match e with EvStdout => true | _ => false end.

Definition reports (evs : list event) : nat :=
  length (List.filter is_stdout evs).

Definition commits (fs : list eth_frame) : nat :=
  length (List.filter is_commit fs).

Definition row_packets (fs : list eth_frame) : nat :=
  length (List.filter is_row fs).

Definition valid_frames (passes : list (pipeline_result * bool)) : nat :=
  length (List.filter (fun pass => yields_frame pass.1) passes).

End Transport.

(** ** The Renderer: [player.ts] *)

Module Player.

Definition FPS : Z := 240.
Definition BRIGHTNESS_SCALING_FACTOR : float := 0.7%float.
Definition DARK_BOOST : float := 0.1%float.

(** *** The string functions [adjustColorForBrightness] calls *)

(** [s.replace] of the first [#] by the empty string. *)
Fixpoint replace_hash (s : string) : string :=
  match s with
  | EmptyString => EmptyString
  | String c s' => if Ascii.eqb c "#"%char then s' else String c (replace_hash s')
  end.

(** [s.substring(from, to)] for [from <= to]. *)
Definition js_substring (from to : nat) (s : string) : string :=
  String.substring from (to - from) s.

Definition hex_value (c : ascii) : option Z :=
  let n := Z.of_nat (nat_of_ascii c) in
  if (48 <=? n) && (n <=? 57) then Some (n - 48)
  else if (97 <=? n) && (n <=? 102) then Some (n - 87)
  else if (65 <=? n) && (n <=? 70) then Some (n - 55)
  else None.

Definition is_js_space (c : ascii) : bool :=
  let n := Z.of_nat (nat_of_ascii c) in
  (n =? 32) || ((9 <=? n) && (n <=? 13)).

Fixpoint skip_spaces (s : string) : string :=
  match s with
  | String c s' => if is_js_space c then skip_spaces s' else s
  | EmptyString => s
  end.

(** The longest prefix of hexadecimal digits, read as a number; [None]
    when there is no digit. *)
Fixpoint hex_prefix (acc : option Z) (s : string) : option Z :=
  match s with
  | String c s' =>
      match hex_value c with
      | Some d => hex_prefix (Some (16 * default 0 acc + d)) s'
      | None => acc
      end
  | EmptyString => acc
  end.

Definition strip_0x (s : string) : string :=
  match s with
  | String "0" (String "x" s') | String "0" (String "X" s') => s'
  | _ => s
  end.

(** [parseInt(s, 16)]; [None] is NaN.  White space outside ASCII is not
    represented in [string]. *)
Definition parseInt16 (s : string) : option Z :=
  match skip_spaces s with
  | String "-" s' => Z.opp <$> hex_prefix None (strip_0x s')
  | String "+" s' => hex_prefix None (strip_0x s')
  | s' => hex_prefix None (strip_0x s')
  end.

Definition hex_char (d : Z) : ascii :=
  if d <? 10 then ascii_of_nat (Z.to_nat (48 + d))
  else ascii_of_nat (Z.to_nat (87 + d)).

Fixpoint hex_digits (fuel : nat) (n : Z) (acc : string) : string :=
  match fuel with
  | O => acc
  | S fuel' =>
      let acc' := String (hex_char (n mod 16)) acc in
      if n / 16 =? 0 then acc' else hex_digits fuel' (n / 16) acc'
  end.

(** [n.toString(16)] for a number that holds an integer or NaN. *)
Definition toString16 (n : option Z) : string :=
  match n with
  | None => "NaN"%string
  | Some z =>
      if z <? 0
      then String "-" (hex_digits (S (Z.to_nat (Z.log2 (- z)))) (- z) EmptyString)
      else hex_digits (S (Z.to_nat (Z.log2 z))) z EmptyString
  end.

(** [s.padStart(2, "0")]. *)
Definition padStart2 (s : string) : string :=
  match s with
  | EmptyString => "00"%string
  | String c EmptyString => String "0" s
  | _ => s
  end.

(** *** [adjustColorForBrightness] *)

(** The three [parseInt] results. *)
Definition channels (hexColor : string) : option Z * option Z * option Z :=
  let hex := replace_hash hexColor in
  (parseInt16 (js_substring 0 2 hex),
   parseInt16 (js_substring 2 4 hex),
   parseInt16 (js_substring 4 6 hex)).

Definition js_number (n : option Z) : float :=
  match n with Some z => float_of_Z z | None => PrimFloat.nan end.

Definition scale_of (brightness : float) : float :=
  (1 - BRIGHTNESS_SCALING_FACTOR * (1 - brightness / 100))%float.

(** [(r + g + b) / 3]; the sum of three parsed channels is exact. *)
Definition avgBrightness_of (r g b : option Z) : float :=
  match r, g, b with
  | Some r, Some g, Some b => (float_of_Z (r + g + b) / 3)%float
  | _, _, _ => PrimFloat.nan
  end.

Definition darkBoost_of (avgBrightness : float) : float :=
  if PrimFloat.ltb avgBrightness 100
  then ((1 - avgBrightness / 100) * DARK_BOOST)%float
  else 0%float.

(** [Math.min(255, Math.round(channel * adjustedScale))]. *)
Definition adjust_channel (channel : option Z) (adjustedScale : float)
    : option Z :=
  Z.min 255 <$> Math_round (js_number channel * adjustedScale)%float.

Definition adjustColorForBrightness (hexColor : string) (brightness : float)
    : string :=
  if PrimFloat.eqb brightness 100 || PrimFloat.eqb BRIGHTNESS_SCALING_FACTOR 0
  then hexColor
  else
    let '(r, g, b) := channels hexColor in
    let scale := scale_of brightness in
    let avgBrightness := avgBrightness_of r g b in
    let darkBoost := darkBoost_of avgBrightness in
    let adjustedScale := (scale + darkBoost)%float in
    let newR := adjust_channel r adjustedScale in
    let newG := adjust_channel g adjustedScale in
    let newB := adjust_channel b adjustedScale in
    String "#" (padStart2 (toString16 newR) +:+ padStart2 (toString16 newG)
                +:+ padStart2 (toString16 newB)).

(** *** Finite checks on [adjustColorForBrightness]

    Without dark boost a channel [c] at brightness [x] below 100 comes
    out as [dimmed c x]; at 100 it comes out as it is.  The boolean
    functions below decide, for one channel value and one brightness, the
    facts that the monotonicity proof takes from evaluation. *)

Definition dimmed (c x : Z) : option Z :=
  adjust_channel (Some c) (scale_of (float_of_Z x) + 0)%float.

Definition shown (c x : Z) : option Z :=
  if x =? 100 then Some c else dimmed c x.

Definition step_ok (c x : Z) : bool :=
  negb (PrimFloat.eqb (float_of_Z x) 100) &&
  match shown c x, shown c (x + 1) with
  | Some v, Some v' => (0 <=? v) && (v <=? v') && (v' <=? c)
  | _, _ => false
  end.

Definition two_digits (v : Z) : bool :=
  match padStart2 (toString16 (Some v)) with
  | String c1 (String c2 EmptyString) =>
      match parseInt16 (String c1 (String c2 EmptyString)) with
      | Some v' => v' =? v
      | None => false
      end
  | _ => false
  end.

(** Componentwise order on two triples of channels, all of them
    numbers. *)
Definition channels_le (a b : option Z * option Z * option Z) : Prop :=
  match a, b with
  | (Some r1, Some g1, Some b1), (Some r2, Some g2, Some b2) =>
      r1 <= r2 /\ g1 <= g2 /\ b1 <= b2
  | _, _ => False
  end.

(** *** The [Player] class *)

Record Sign := {
  width : Z;
  height : Z;
  theme : string;
  fps : option Z
}.

(** [BuiltMovie]; [play] reads nothing of it but whether it is there, and
    the Director reads [sign.fps]. *)
Record BuiltMovie := { sign : Sign }.

(** A drawable: the fields of [Base] that [play] reads. *)
Record animation := Animation {
  name : string;
  layer : Z;
  animating : bool
}.

(** The GSAP master timeline is a collaborator.  A seek moves the
    playhead and fires [onStart] and [onComplete] hooks; each firing
    names the drawable it belongs to and the value it stores in
    [animating]. *)
Class Gsap (TL : Type) := {
  seek : TL -> float -> TL * list (nat * bool)
}.

Inductive canvas_op :=
| CanvasClear
| CanvasSave
| CanvasDraw (name : string)
| CanvasRestore.

Record player (TL : Type) := {
  animations : list animation;
  movie : option BuiltMovie;
  timeline : option TL;
  frames : Z;
  frame : Z;
  duration : float;
  cycles : Z;
  brightness : float;
  canvas : list canvas_op
}.
Arguments animations {TL}.
Arguments movie {TL}.
Arguments timeline {TL}.
Arguments frames {TL}.
Arguments frame {TL}.
Arguments duration {TL}.
Arguments cycles {TL}.
Arguments brightness {TL}.
Arguments canvas {TL}.

(** How a call of [play] completes. *)
Inductive completion :=
| ReturnTrue
| ReturnUndefined
| ThrowTypeError.

Definition fire (anims : list animation) (cb : nat * bool) : list animation :=
  alter (fun a => {| name := name a; layer := layer a; animating := cb.2 |})
        cb.1 anims.

(** The [forEach] of [play]: what it does to the canvas. *)
Definition draw_active (anims : list animation) : list canvas_op :=
  mbind (fun a => if animating a
                  then [CanvasSave; CanvasDraw (name a); CanvasRestore]
                  else []) anims.

Section Play.
Context {TL : Type} `{Gsap TL}.

(** The [while (!hasActiveAnimation)] loop, entered with the flag
    false; [fuel] bounds the number of passes.  The hooks GSAP fires and
    the [draw] methods of the drawables are taken to return: a call in
    which one of them throws ends there, by that exception, and is not
    described.  [ThrowTypeError] is the one exception of [play] itself,
    the seek on a timeline that is not there. *)
Fixpoint play_loop (fuel : nat) (skippedFrames : Z) (p : player TL)
    : option (completion * player TL) :=
  match fuel with
  | O => None
  | S fuel' =>
      let denom := if frames p - 1 =? 0 then 1 else frames p - 1 in
      let progress := (float_of_Z (frame p) / float_of_Z denom)%float in
      match timeline p with
      | None => Some (ThrowTypeError, p)
      | Some tl =>
          let '(tl, fired) := seek tl (duration p * progress)%float in
          let anims := foldl fire (animations p) fired in
          let cv := canvas p ++ [CanvasClear] ++ draw_active anims in
          let hasActiveAnimation := existsb animating anims in
          let skippedFrames := skippedFrames + 1 in
          let hasActiveAnimation :=
            hasActiveAnimation || (frames p <=? skippedFrames) in
          let frame' := frame p + 1 in
          let p' (wrap : bool) :=
            {| animations := anims; movie := movie p;
               timeline := Some tl; frames := frames p;
               frame := if wrap then 0 else frame';
               duration := duration p;
               cycles := if wrap then cycles p + 1 else cycles p;
               brightness := brightness p; canvas := cv |} in
          if frames p <=? frame' then Some (ReturnTrue, p' true)
          else if hasActiveAnimation then Some (ReturnUndefined, p' false)
          else play_loop fuel' skippedFrames (p' false)
      end
  end.

Definition play (fuel : nat) (p : player TL)
    : option (completion * player TL) :=
  match movie p with
  | None => Some (ReturnUndefined, p)
  | Some _ => play_loop fuel 0 p
  end.

End Play.

(** The constructor. *)
Definition new (TL : Type) : player TL :=
  {| animations := []; movie := None; timeline := None; frames := 0;
     frame := 0; duration := 0%float; cycles := 0;
     brightness := 100%float; canvas := [] |}.

(** The timeline GSAP builds for a movie whose screenplay is empty: no
    tween, so no hook ever fires; and a player that has loaded such a
    movie. *)
#[export] Instance empty_timeline : Gsap unit :=
  {| seek tl _ := (tl, []) |}.


(** The time [play] seeks to in the pass it starts with. *)
Definition playhead {TL : Type} (p : player TL) : float :=
  let denom := if frames p - 1 =? 0 then 1 else frames p - 1 in
  (duration p * (float_of_Z (frame p) / float_of_Z denom))%float.

(** *** [load] *)

(** An [AnimationDescriptor], with the fields [load] itself reads; [props]
    and the contents of [keyframes] only pass through to GSAP and to the
    drawable, so [d_keyframes] is the number of keyframes. *)
Record AnimationDescriptor := {
  d_name : string;
  d_animation : string;
  d_start : float;
  d_layer : Z;
  d_keyframes : nat
}.

(** A [BuiltTimeline]: the descriptors of one scene and its start. *)
Record BuiltTimeline := {
  scene_animations : list AnimationDescriptor;
  scene_start : float
}.

(** What [load] asks of GSAP: the master timeline of the scenes, and its
    duration. *)
Class GsapBuild (TL : Type) := {
  master_timeline : list BuiltTimeline -> TL;
  master_duration : TL -> float
}.

(** [animations.sort((a, b) => a.layer - b.layer)].  The sort of an array
    is stable, which fixes its result; insertion before the first element
    of a larger or equal layer, from the right, computes it. *)
Fixpoint insert_by_layer (a : animation) (l : list animation)
    : list animation :=
  match l with
  | [] => [a]
  | b :: l' =>
      if layer a <=? layer b then a :: b :: l'
      else b :: insert_by_layer a l'
  end.

Fixpoint sort_by_layer (l : list animation) : list animation :=
  match l with
  | [] => []
  | a :: l' => insert_by_layer a (sort_by_layer l')
  end.

(** The drawables in the order [load] pushes them. *)
Definition pushed_animations (scenes : list BuiltTimeline) : list animation :=
  scenes ≫= (fun scene =>
    (fun item => {| name := d_name item; layer := d_layer item;
                    animating := false |}) <$> scene_animations scene).

(** The classes of [Animations], and the descriptors [load] can turn into
    a drawable: one of these classes, and a first keyframe to clone. *)
Definition drawable (item : AnimationDescriptor) : bool :=
  (String.eqb (d_animation item) "RectangleAnimation"
   || String.eqb (d_animation item) "TextAnimation")
  && (0 <? d_keyframes item)%nat.

(** [load], after [build] produced the scenes.  [None]: the call throws
    (a descriptor without a first keyframe or of no known class), or the
    duration GSAP reports is not a finite number. *)
Definition load {TL : Type} `{GsapBuild TL} (the_sign : Sign)
    (scenes : list BuiltTimeline) (p : player TL) : option (player TL) :=
  let tl := master_timeline scenes in
  let duration := master_duration tl in
  match Math_ceil (duration * float_of_Z FPS)%float with
  | Some frames =>
      if negb (forallb (fun scene => forallb drawable (scene_animations scene))
                       scenes)
      then None else
      Some {| animations := sort_by_layer (pushed_animations scenes);
              movie := Some {| sign := the_sign |};
              timeline := Some tl;
              frames := frames;
              frame := 0;
              duration := duration;
              cycles := cycles p;
              brightness := brightness p;
              canvas := canvas p |}
  | None => None
  end.

(** A master timeline that lasts four seconds, as the one of the default
    movie does. *)
Definition four_seconds : GsapBuild unit :=
  {| master_timeline _ := tt; master_duration _ := 4%float |}.

(** A channel that did not parse stays NaN at brightness [x]. *)
Definition nan_stays_nan (x : Z) : bool :=
  negb (PrimFloat.eqb (float_of_Z x) 100) &&
  match adjust_channel None (scale_of (float_of_Z x) + 0)%float with
  | None => true
  | Some _ => false
  end.

(** The number of times the canvas was cleared, that is the number of
    passes through the loop of [play]. *)
Definition is_clear (op : canvas_op) : bool :=
  match op with CanvasClear => true | _ => false end.

Definition clears (cv : list canvas_op) : Z :=
  Z.of_nat (length (List.filter is_clear cv)).

(** *** Sample movies *)

(** A timeline driven by a script: each seek fires the hooks of the next
    entry of the list. *)
#[export] Instance scripted : Gsap (list (list (nat * bool))) :=
  {| seek tl _ := (tail tl, default [] (head tl)) |}.

Definition sample_sign : Sign :=
  {| width := 320; height := 64; theme := "dark"; fps := None |}.

(** A player two frames before its only drawable starts, and the same
    player after a call of [play]. *)
Definition blank_then_active : player (list (list (nat * bool))) :=
  {| animations := [Animation "bg" 1 false];
     movie := Some {| sign := sample_sign |};
     timeline := Some [[]; []; [(0%nat, true)]];
     frames := 10; frame := 0; duration := 4%float; cycles := 0;
     brightness := 100%float; canvas := [] |}.

Definition after_play : player (list (list (nat * bool))) :=
  (default (ReturnUndefined, blank_then_active)
           (play 5 blank_then_active)).2.

(** One scene with a text on layer 2 listed before a background on
    layer 1, and the player that has loaded it. *)
Definition sample_scenes : list BuiltTimeline :=
  [ {| scene_animations :=
         [ {| d_name := "text"; d_animation := "TextAnimation";
              d_start := 0%float; d_layer := 2; d_keyframes := 2 |};
           {| d_name := "bg"; d_animation := "RectangleAnimation";
              d_start := 0%float; d_layer := 1; d_keyframes := 1 |} ];
       scene_start := 0%float |} ].

Definition sample_loaded : player unit :=
  default (new unit)
          (@load unit four_seconds sample_sign sample_scenes (new unit)).

End Player.

(** ** The Orchestrator: [direct.ts] *)

Module Director.

Definition FPS : Z := 240.
Definition PLAYER_BACKOFF_MS : Z := 100.
Definition PLAYER_FRAMES_KEY : string := "player:frames".
Definition SENDER_WAIT_MS : Z := 5.
Definition ERROR_BACKOFF_MS : Z := 1000.
Definition BRIGHTNESS_CHANNEL : string := "player:brightness:channel".
Definition BRIGHTNESS_KEY : string := "player:brightness".

(** *** The broker, as far as the Orchestrator uses it *)

Inductive redis_value :=
| RedisString (s : string)
| RedisList (l : list (list Z)).

Abbreviation redis := (gmap string redis_value).

(** [RPUSH key v]: the new length, or [None] when the key holds a value
    of another type (the client then rejects the promise). *)
Definition rpush (key : string) (v : list Z) (db : redis)
    : option (redis * Z) :=
  match db !! key with
  | None => Some (<[key := RedisList [v]]> db, 1)
  | Some (RedisList l) =>
      Some (<[key := RedisList (l ++ [v])]> db, Z.of_nat (length l) + 1)
  | Some (RedisString _) => None
  end.

Definition llen (key : string) (db : redis) : option Z :=
  match db !! key with
  | None => Some 0
  | Some (RedisList l) => Some (Z.of_nat (length l))
  | Some (RedisString _) => None
  end.

Definition del (key : string) (db : redis) : redis := delete key db.

(** One [BLPOP] served to the Transport; a list that becomes empty is
    removed. *)
Definition lpop (key : string) (db : redis) : redis :=
  match db !! key with
  | Some (RedisList (_ :: (_ :: _) as l)) => <[key := RedisList l]> db
  | Some (RedisList _) => delete key db
  | _ => db
  end.

(** The length of [player:frames] as an outside observer reads it. *)
Definition queue_length (db : redis) : Z :=
  default 0 (llen PLAYER_FRAMES_KEY db).

(** *** The main loop *)

Inductive event :=
| Broker (after : redis)
| Sleep (ms : Z)
| ConsoleError.

(** One pass through the body of [while (true)], after [play] and
    [getImageData] produced [frame], when the broker answers every
    command ([pass] below is the general case).  [pops] is the number of
    frames the Transport takes off the list while the Orchestrator sleeps
    [SENDER_WAIT_MS].  The result is the broker afterwards and what
    happened, oldest first. *)
Definition iteration (sign : Player.Sign) (frame : list Z) (pops : nat)
    (db : redis) : redis * list event :=
  match rpush PLAYER_FRAMES_KEY frame db with
  | None => (db, [ConsoleError; Sleep ERROR_BACKOFF_MS])
  | Some (db, pushed) =>
      let fps := default FPS (Player.fps sign) in
      if pushed =? fps then
        let db1 := Nat.iter pops (lpop PLAYER_FRAMES_KEY) db in
        match llen PLAYER_FRAMES_KEY db1 with
        | None => (db1, [Broker db; Sleep SENDER_WAIT_MS; ConsoleError;
                         Sleep ERROR_BACKOFF_MS])
        | Some pushed =>
            if pushed =? fps then
              let db2 := del PLAYER_FRAMES_KEY db1 in
              (db2, [Broker db; Sleep SENDER_WAIT_MS; Broker db1;
                     Broker db2; Sleep PLAYER_BACKOFF_MS])
            else (db1, [Broker db; Sleep SENDER_WAIT_MS; Broker db1])
        end
      else (db, [Broker db])
  end.

(** The loop over the frames the Renderer produces, with the Transport's
    pops per pass. *)
Fixpoint run (sign : Player.Sign) (passes : list (list Z * nat))
    (db : redis) : redis * list event :=
  match passes with
  | [] => (db, [])
  | (frame, pops) :: rest =>
      let '(db1, evs1) := iteration sign frame pops db in
      let '(db2, evs2) := run sign rest db1 in
      (db2, evs1 ++ evs2)
  end.

(** The run in which the Transport never pops. *)
Definition stalled (frames : list (list Z)) : list (list Z * nat) :=
  map (fun frame => (frame, 0%nat)) frames.

(** Whether the broker answers the three commands of a pass; a command
    that is not answered (the connection is down, the server is out of
    memory) has no effect and rejects the promise, which takes the pass
    to its [catch]. *)
Record answers := Answers {
  rpush_ok : bool;
  llen_ok : bool;
  del_ok : bool
}.

Definition all_answered : answers :=
  {| rpush_ok := true; llen_ok := true; del_ok := true |}.

(** One pass through the body of [while (true)], in general. *)
Definition pass (a : answers) (sign : Player.Sign) (frame : list Z)
    (pops : nat) (db : redis) : redis * list event :=
  match (if rpush_ok a then rpush PLAYER_FRAMES_KEY frame db else None) with
  | None => (db, [ConsoleError; Sleep ERROR_BACKOFF_MS])
  | Some (db, pushed) =>
      let fps := default FPS (Player.fps sign) in
      if pushed =? fps then
        let db1 := Nat.iter pops (lpop PLAYER_FRAMES_KEY) db in
        match (if llen_ok a then llen PLAYER_FRAMES_KEY db1 else None) with
        | None => (db1, [Broker db; Sleep SENDER_WAIT_MS; ConsoleError;
                         Sleep ERROR_BACKOFF_MS])
        | Some pushed =>
            if pushed =? fps then
              if del_ok a then
                let db2 := del PLAYER_FRAMES_KEY db1 in
                (db2, [Broker db; Sleep SENDER_WAIT_MS; Broker db1;
                       Broker db2; Sleep PLAYER_BACKOFF_MS])
              else (db1, [Broker db; Sleep SENDER_WAIT_MS; Broker db1;
                          ConsoleError; Sleep ERROR_BACKOFF_MS])
            else (db1, [Broker db; Sleep SENDER_WAIT_MS; Broker db1])
        end
      else (db, [Broker db])
  end.



(** The broker states an observer can see during a run. *)
Definition observed (evs : list event) : list redis :=
  omap (fun e => match e with Broker db => Some db | _ => None end) evs.

(** *** Brightness intake *)

Fixpoint all_digits (s : string) : bool :=
  match s with
  | EmptyString => true
  | String c s' =>
      let n := Z.of_nat (nat_of_ascii c) in
      (48 <=? n) && (n <=? 57) && all_digits s'
  end.

Definition first_is_digit (s : string) : bool :=
  match s with
  | String c _ =>
      let n := Z.of_nat (nat_of_ascii c) in (48 <=? n) && (n <=? 57)
  | EmptyString => false
  end.

Fixpoint decimal_value (acc : Z) (s : string) : Z :=
  match s with
  | EmptyString => acc
  | String c s' =>
      decimal_value (10 * acc + (Z.of_nat (nat_of_ascii c) - 48)) s'
  end.

(** [s.trim()], for the ASCII white space. *)
Fixpoint trim_end (s : string) : string :=
  match s with
  | EmptyString => EmptyString
  | String c s' =>
      match trim_end s' with
      | EmptyString =>
          if Player.is_js_space c then EmptyString else String c EmptyString
      | t => String c t
      end
  end.

Definition js_trim (s : string) : string := trim_end (Player.skip_spaces s).

(** [Number(message)] on integers in decimal: white space around is
    dropped, what is left is empty (the number 0) or an optional sign and
    decimal digits, below 2^53 in magnitude.  [None] is a string outside
    this fragment (fractions, exponents, radix prefixes, [Infinity], and
    what JavaScript reads as NaN). *)
Definition Number (message : string) : option float :=
  let digits_value (s : string) :=
    if all_digits s && negb (String.eqb s EmptyString)
       && (decimal_value 0 s <? 2 ^ 53)
    then Some (float_of_Z (decimal_value 0 s)) else None in
  match js_trim message with
  | EmptyString => Some 0%float
  | String c s =>
      if Ascii.eqb c "-" then PrimFloat.opp <$> digits_value s
      else if Ascii.eqb c "+" then digits_value s
      else digits_value (String c s)
  end.

(** The subscriber's message handler: the Renderer's [brightness] field
    afterwards; [None] when [Number] is outside the modelled fragment. *)
Definition on_message (channel message : string) (brightness : float)
    : option float :=
  if String.eqb channel BRIGHTNESS_CHANNEL then Number message
  else Some brightness.

(** The frames on [player:frames], the next one to pop first. *)
Definition queued (db : redis) : list (list Z) :=
  match db !! PLAYER_FRAMES_KEY with
  | Some (RedisList l) => l
  | _ => []
  end.

(** The cold start: [GET player:brightness], applied when the reply is a
    non-empty string.  [None]: the call rejects (the key holds a list) or
    [Number] is outside the modelled fragment. *)
Definition startup_brightness (db : redis) (brightness : float)
    : option float :=
  match db !! BRIGHTNESS_KEY with
  | None => Some brightness
  | Some (RedisString s) =>
      if String.eqb s EmptyString then Some brightness else Number s
  | Some (RedisList _) => None
  end.

(** [player:frames] is missing or a list, so that [RPUSH] and [LLEN] on
    it succeed. *)
Definition holds_frames (db : redis) : bool :=
  match db !! PLAYER_FRAMES_KEY with
  | Some (RedisString _) => false
  | _ => true
  end.

End Director.

(** ** The Ambient controller: [sense.ts] *)

Module Sensors.

Definition BRIGHTNESS_MIN : Z := 1.
Definition BRIGHTNESS_MAX : Z := 100.
Definition BRIGHTNESS_INC_MAX : Z := 5.
Definition SLEEP_MS : Z := 1000.
Definition BACKOFF_MS : Z := 1000.
Definition WINDOW_SIZE : nat := 10.

(** The module-level [let] variables. *)
Record state := State {
  sensorReadings : list Z;
  currentBrightness : Z
}.

Definition initial : state :=
  {| sensorReadings := []; currentBrightness := 1 |}.

(** What the process does to the outside: a [PUBLISH] and a [SET] the
    broker answered, the same two commands rejected, a sleep, a line on
    the console. *)
Inductive event :=
| Publish (brightness : Z)
| Persist (brightness : Z)
| Sleep (ms : Z)
| ConsoleError
| PublishRejected (brightness : Z)
| PersistRejected (brightness : Z).

(** Whether the broker answers the [PUBLISH] and the [SET] of a cycle. *)
Record answers := Answers {
  publish_ok : bool;
  set_ok : bool
}.

Definition all_answered : answers :=
  {| publish_ok := true; set_ok := true |}.

Section Gamma.

(** [Math.round(Math.pow(Math.min(lux / LUX_MAX, 1), GAMMA) *
    (BRIGHTNESS_MAX - BRIGHTNESS_MIN) + BRIGHTNESS_MIN)], the reading a
    lux value maps to.  The power function is not part of the
    embedding; everything below holds whatever this map is. *)
Variable gamma_reading : Z -> Z.

(** [luxToBrightness]: the window after the push and the shift, and the
    rounded mean ([None] if it is NaN). *)
Definition luxToBrightness (lux : Z) (st : state) : option Z * state :=
  let reading := gamma_reading lux in
  let pushed := sensorReadings st ++ [reading] in
  let window :=
    if (WINDOW_SIZE <? length pushed)%nat then tail pushed else pushed in
  let sum := foldl Z.add 0 window in
  let average :=
    (float_of_Z sum / float_of_Z (Z.of_nat (length window)))%float in
  (Math_round average,
   {| sensorReadings := window;
      currentBrightness := currentBrightness st |}).

(** [updateBrightness], after [readLux] returned [lux], when the broker
    answers both commands ([cycle] below is the general case). *)
Definition updateBrightness (lux : Z) (st : state) : state * list event :=
  let '(target, st) := luxToBrightness lux st in
  match target with
  | None => (st, [Sleep SLEEP_MS])
  | Some target =>
      let diff := target - currentBrightness st in
      if diff =? 0 then (st, [Sleep SLEEP_MS])
      else
        let inc := Z.sgn diff * Z.min (Z.abs diff) BRIGHTNESS_INC_MAX in
        let brightness :=
          Z.max (Z.min (currentBrightness st + inc) BRIGHTNESS_MAX)
                BRIGHTNESS_MIN in
        ({| sensorReadings := sensorReadings st;
            currentBrightness := brightness |},
         [Publish brightness; Persist brightness])
  end.

(** The main loop over the outcomes of [readLux]: a lux value, or
    [None] when the I2C transaction throws; the broker answers every
    command ([control_loop] below is the general case). *)
Fixpoint run (inputs : list (option Z)) (st : state)
    : state * list event :=
  match inputs with
  | [] => (st, [])
  | Some lux :: rest =>
      let '(st1, evs1) := updateBrightness lux st in
      let '(st2, evs2) := run rest st1 in
      (st2, evs1 ++ evs2)
  | None :: rest =>
      let '(st2, evs2) := run rest st in
      (st2, [ConsoleError; Sleep BACKOFF_MS] ++ evs2)
  end.

(** One pass through the body of [while (true)], in general: [readLux]
    returns a lux value or throws, and the broker answers the two commands
    or rejects them.  [currentBrightness] and the window are assigned
    before the commands are awaited, so a rejection, which takes the pass
    to the [catch] of the loop, leaves them advanced.  ([closeBus] in the
    [catch] is taken to succeed; if it throws, the loop ends there.) *)
Definition cycle (lux : option Z) (a : answers) (st : state)
    : state * list event :=
  match lux with
  | None => (st, [ConsoleError; Sleep BACKOFF_MS])
  | Some lux =>
      let '(target, st) := luxToBrightness lux st in
      match target with
      | None => (st, [Sleep SLEEP_MS])
      | Some target =>
          let diff := target - currentBrightness st in
          if diff =? 0 then (st, [Sleep SLEEP_MS])
          else
            let inc := Z.sgn diff * Z.min (Z.abs diff) BRIGHTNESS_INC_MAX in
            let brightness :=
              Z.max (Z.min (currentBrightness st + inc) BRIGHTNESS_MAX)
                    BRIGHTNESS_MIN in
            ({| sensorReadings := sensorReadings st;
                currentBrightness := brightness |},
             [ if publish_ok a then Publish brightness
               else PublishRejected brightness;
               if set_ok a then Persist brightness
               else PersistRejected brightness ]
             ++ (if publish_ok a && set_ok a then []
                 else [ConsoleError; Sleep BACKOFF_MS]))
      end
  end.

Fixpoint control_loop (cycles : list (option Z * answers)) (st : state)
    : state * list event :=
  match cycles with
  | [] => (st, [])
  | (lux, a) :: rest =>
      let '(st1, evs1) := cycle lux a st in
      let '(st2, evs2) := control_loop rest st1 in
      (st2, evs1 ++ evs2)
  end.

End Gamma.

(** Consecutive values of a sequence differ by at most [d]. *)
Fixpoint steps_within (d : Z) (l : list Z) : Prop :=
  match l with
  | a :: (b :: _) as rest => Z.abs (b - a) <= d /\ steps_within d rest
  | _ => True
  end.



(** The values published on the brightness channel, oldest first. *)
Definition published (evs : list event) : list Z :=
  omap (fun e => match e with Publish b => Some b | _ => None end) evs.

(** The values handed to [redis.publish], answered or not. *)
Definition handed_to_publish (evs : list event) : list Z :=
  omap (fun e => match e with
                 | Publish b | PublishRejected b => Some b
                 | _ => None
                 end) evs.

(** The broker answered every [PUBLISH] of the cycles. *)
Definition publishes_answered (cycles : list (option Z * answers)) : Prop :=
  Forall (fun c => publish_ok c.2 = true) cycles.


(** A reading curve for examples (the identity clamped to 1..100) and
    the state after the readings 3 and 40 with a failed measurement in
    between. *)
Definition sample_gamma (lux : Z) : Z := Z.max 1 (Z.min 100 lux).

Definition sample_state : state :=
  (run sample_gamma [Some 3; None; Some 40] initial).1.

End Sensors.

(** ** The keys the processes share *)

Module Wiring.
Import Director.

Definition SENDER_BRIGHTNESS_KEY : string := "sender:brightness".

(** The reply of [GET key] as hiredis hands it to [sender.c]. *)
Definition redis_get (key : string) (db : redis) : Transport.redisReply :=
  match db !! key with
  | None => Transport.REDIS_REPLY_NIL
  | Some (RedisString s) => Transport.REDIS_REPLY_STRING (Transport.c_string s)
  | Some (RedisList _) =>
      Transport.REDIS_REPLY_ERROR (Transport.c_string "WRONGTYPE")
  end.

(** The start of [main] in [sender.c]: [rr_check] is the reply of the
    [GET] ([None] when the command failed); the [SET] is issued when there
    is no reply or the reply is nil. *)
Definition seed_brightness (rr_check : option Transport.redisReply)
    (db : redis) : redis :=
  match rr_check with
  | None | Some Transport.REDIS_REPLY_NIL =>
      <[SENDER_BRIGHTNESS_KEY := RedisString (decimal_string 255)]> db
  | Some _ => db
  end.

(** What the two Redis commands of [updateBrightness] do: the [SET] to
    the broker, the [PUBLISH] to the subscriber of [direct.ts] and so to
    the Renderer's [brightness] ([None] as in [on_message]). *)
Definition persist (brightness : Z) (db : redis) : redis :=
  <[BRIGHTNESS_KEY := RedisString (decimal_string brightness)]> db.

Definition publish (brightness : Z) (renderer : float) : option float :=
  on_message BRIGHTNESS_CHANNEL (decimal_string brightness) renderer.

(** The broker after the [SET]s of a run of the Ambient controller, those
    it answered, and the Renderer's brightness after the messages of the
    run that reached the channel ([None] as in [on_message]). *)
Definition broker_after (evs : list Sensors.event) (db : redis) : redis :=
  foldl (fun db e => match e with
                     | Sensors.Persist b => persist b db
                     | _ => db
                     end) db evs.

Definition renderer_after (evs : list Sensors.event)
    (brightness : option float) : option float :=
  foldl (fun r e => match e with
                    | Sensors.Publish b => r ≫= publish b
                    | _ => r
                    end) brightness evs.

(** The broker answered every command of the cycles. *)
Definition commands_answered (cycles : list (option Z * Sensors.answers))
    : Prop :=
  Forall (fun c => c.2 = Sensors.all_answered) cycles.

(** A decimal string is read back by [atoi]. *)
Definition atoi_reads (v : Z) : bool :=
  Transport.atoi (Transport.c_string (decimal_string v)) =? v.

End Wiring.

(** * Properties of the Transport *)

Section TransportFacts.
Import Transport.

(** ** The pixel loop *)

Lemma convert_row_spec (cols : nat) :
  forall (src : list Z) (p : nat) (payload : list Z),
    (p + 3 * cols <= length payload)%nat ->
    exists payload',
      convert_row cols src p payload = (drop (4 * cols) src, payload') /\
      length payload' = length payload /\
      (forall i, (i < p)%nat \/ (p + 3 * cols <= i)%nat ->
                 payload' !! i = payload !! i) /\
      (forall c, (c < cols)%nat ->
         payload' !! (p + 3 * c)%nat = Some (src !!! (4 * c + 2)%nat) /\
         payload' !! (p + 3 * c + 1)%nat = Some (src !!! (4 * c + 1)%nat) /\
         payload' !! (p + 3 * c + 2)%nat = Some (src !!! (4 * c)%nat)).
Proof.
  induction cols as [|cols IH]; intros src p payload Hlen.
  - exists payload. cbn [convert_row]. rewrite drop_0.
    split; [reflexivity|split; [reflexivity|split; [auto|intros c Hc; lia]]].
  - cbn [convert_row]. change (Z.to_nat BYTES_PER_PIXEL) with 4%nat.
    set (pl := <[S (S p) := src !!! 0%nat]>
                 (<[S p := src !!! 1%nat]> (<[p := src !!! 2%nat]> payload))).
    assert (Hpl : length pl = length payload).
    { unfold pl. rewrite !length_insert. reflexivity. }
    destruct (IH (drop 4 src) (3 + p)%nat pl) as (payload' & Heq & Hl & Hout & Hin).
    { rewrite Hpl. lia. }
    exists payload'. rewrite Heq. split; [|split; [|split]].
    + f_equal. rewrite drop_drop. f_equal. lia.
    + congruence.
    + intros i Hi. rewrite Hout by lia. unfold pl.
      rewrite !list_lookup_insert_ne by lia. reflexivity.
    + intros c Hc. destruct c as [|c].
      * rewrite !Nat.mul_0_r, !Nat.add_0_r, !Nat.add_0_l.
        rewrite !Hout by lia. unfold pl.
        replace (p + 1)%nat with (S p) by lia.
        replace (p + 2)%nat with (S (S p)) by lia.
        repeat split.
        -- rewrite !list_lookup_insert_ne by lia.
           apply list_lookup_insert_eq. lia.
        -- rewrite list_lookup_insert_ne by lia.
           apply list_lookup_insert_eq. rewrite length_insert. lia.
        -- apply list_lookup_insert_eq. rewrite !length_insert. lia.
      * destruct (Hin c) as (H2 & H1 & H0); [lia|].
        rewrite !lookup_total_drop in H2, H1, H0.
        replace (p + 3 * S c)%nat with (3 + p + 3 * c)%nat by lia.
        replace (4 * S c + 2)%nat with (4 + (4 * c + 2))%nat by lia.
        replace (4 * S c + 1)%nat with (4 + (4 * c + 1))%nat by lia.
        replace (4 * S c)%nat with (4 + 4 * c)%nat by lia.
        auto.
Qed.


Lemma write_row_header_spec (row : Z) (payload : list Z) :
  (7 <= length payload)%nat ->
  length (write_row_header row payload) = length payload /\
  take 7 (write_row_header row payload)
    = [to_uint8 row; 0; 0; 1; 64; 0x08; 0x88] /\
  forall i, (7 <= i)%nat -> write_row_header row payload !! i = payload !! i.
Proof.
  intros Hlen. unfold write_row_header.
  split; [|split].
  - rewrite !length_insert. reflexivity.
  - do 7 (destruct payload as [|? payload]; [simpl in Hlen; lia|]).
    reflexivity.
  - intros i Hi. rewrite !list_lookup_insert_ne by lia. reflexivity.
Qed.

Lemma row_buffer_built (row : Z) (src payload : list Z) :
  length payload = 967%nat ->
  exists buf,
    convert_row 320 src ROW_HEADER_SIZE (write_row_header row payload)
      = (drop 1280 src, buf) /\
    row_buffer src row buf.
Proof.
  intros Hlen.
  destruct (write_row_header_spec row payload) as (Hl & Hhd & _); [lia|].
  destruct (convert_row_spec 320 src ROW_HEADER_SIZE
              (write_row_header row payload))
    as (buf & Heq & Hbl & Hout & Hin).
  { rewrite Hl, Hlen. unfold ROW_HEADER_SIZE. lia. }
  exists buf. split; [exact Heq|].
  split; [congruence|split].
  - rewrite <- Hhd. apply list_eq. intros i.
    destruct (decide (i < 7)%nat) as [Hi|Hi].
    + rewrite !lookup_take_lt by lia. apply Hout. left. exact Hi.
    + rewrite !lookup_take_ge by lia. reflexivity.
  - intros c Hc. apply Hin. exact Hc.
Qed.

(** ** The row loop *)

Lemma add_events_emit (e : event) (evs : list event) (w : world) :
  emit e (add_events evs w) = add_events (evs ++ [e]) w.
Proof. unfold emit, add_events. cbn. rewrite <- app_assoc. reflexivity. Qed.

Lemma add_events_nil (w : world) : add_events [] w = w.
Proof. destruct w. unfold add_events. cbn. rewrite app_nil_r. reflexivity. Qed.

Lemma send_rows_spec (rows : nat) :
  forall (row : Z) (src payload : list Z) (evs : list event) (w : world),
    length payload = 967%nat ->
    exists payload' bufs,
      send_rows rows row src payload 967 (add_events evs w)
        = (payload',
           add_events
             (evs ++ map (fun buf => EvSend (send_row (sock w) buf 967)) bufs)
             w) /\
      length payload' = 967%nat /\
      length bufs = rows /\
      forall i buf, bufs !! i = Some buf ->
        row_buffer (drop (1280 * i) src) (row + Z.of_nat i) buf.
Proof.
  induction rows as [|rows IH]; intros row src payload evs w Hlen.
  - exists payload, []. cbn. rewrite app_nil_r.
    split; [reflexivity|split; [exact Hlen|split; [reflexivity|]]].
    intros i buf Hi. rewrite lookup_nil in Hi. discriminate.
  - cbn [send_rows]. change (Z.to_nat SIGN_WIDTH) with 320%nat.
    destruct (row_buffer_built row src payload Hlen) as (buf & Heq & Hbuf).
    rewrite Heq. rewrite add_events_emit.
    destruct (IH (row + 1) (drop 1280 src) buf
                 (evs ++ [EvSend (send_row (sock (add_events evs w)) buf 967)])
                 w) as (payload' & bufs & Hrun & Hl & Hn & Hall).
    { apply Hbuf. }
    exists payload', (buf :: bufs). rewrite Hrun.
    split; [|split; [exact Hl|split; [cbn; congruence|]]].
    + cbn. rewrite <- app_assoc. reflexivity.
    + intros [|i] b Hb.
      * cbn in Hb. injection Hb as <-.
        rewrite Nat.mul_0_r, drop_0, Z.add_0_r. exact Hbuf.
      * cbn [lookup list_lookup] in Hb. specialize (Hall i b Hb).
        rewrite drop_drop in Hall.
        replace (1280 * S i)%nat with (1280 + 1280 * i)%nat by lia.
        replace (row + Z.of_nat (S i)) with (row + 1 + Z.of_nat i) by lia.
        exact Hall.
Qed.


Lemma send_row_exact (s : socket_state) (buf : list Z) :
  length buf = 967%nat ->
  ether_type (send_row s buf 967) = ROW_ETHER_TYPE /\
  eth_payload (send_row s buf 967) = buf.
Proof.
  intros Hlen. split; [reflexivity|].
  unfold send_row, send_socket. cbn.
  apply take_ge. rewrite Hlen. reflexivity.
Qed.

Lemma sent_app (a b : list event) : sent (a ++ b) = sent a ++ sent b.
Proof. unfold sent. apply omap_app. Qed.

Lemma sent_clock (evs : list event) (now : timespec) :
  sent (evs ++ [EvClock now]) = sent evs.
Proof. rewrite sent_app. cbn. apply app_nil_r. Qed.

Lemma sent_sends (fs : list eth_frame) : sent (map EvSend fs) = fs.
Proof. induction fs as [|f fs IH]; cbn; [reflexivity|]. f_equal. exact IH. Qed.

(** A frame of the expected size: the return value is 0, the brightness
    reply has been applied, and one buffer per row has been sent. *)
Lemma process_valid_frame (key : redisReply) (frame : list Z)
    (more : list redisReply) (rr_brightness : option redisReply)
    (payload : list Z) (w : world) :
  Z.of_nat (length frame) = SIGN_WIDTH * SIGN_HEIGHT * BYTES_PER_PIXEL ->
  length payload = 967%nat ->
  exists payload' bufs,
    process_and_send_frame
      (PipelineOk (Some (REDIS_REPLY_ARRAY
                           (key :: REDIS_REPLY_STRING frame :: more)))
                  rr_brightness)
      payload payload_length w
    = Some (0, payload',
            add_events
              (map (fun buf =>
                      EvSend (send_row (apply_brightness rr_brightness (sock w))
                                       buf 967)) bufs)
              (with_sock (apply_brightness rr_brightness (sock w)) w)) /\
    length payload' = 967%nat /\
    length bufs = 64%nat /\
    forall i buf, bufs !! i = Some buf ->
      row_buffer (drop (1280 * i) frame) (Z.of_nat i) buf.
Proof.
  intros Hframe Hpl. unfold process_and_send_frame.
  rewrite Hframe, Z.eqb_refl. cbn [negb].
  change (Z.to_nat SIGN_HEIGHT) with 64%nat.
  change payload_length with 967.
  set (w1 := with_sock (apply_brightness rr_brightness (sock w)) w).
  destruct (send_rows_spec 64 0 frame payload [] w1 Hpl)
    as (payload' & bufs & Hrun & Hl & Hn & Hall).
  rewrite add_events_nil in Hrun. rewrite Hrun.
  exists payload', bufs.
  split; [reflexivity|split; [exact Hl|split; [exact Hn|exact Hall]]].
Qed.

(** ** The hybrid wait *)

Section Wait.
Variable clock : nat -> timespec.
Variable send_started : timespec.

Lemma wait_deadline_keeps (fuel : nat) :
  forall (elapsed : float) (w w' : world),
    wait_deadline clock fuel send_started elapsed w = Some w' ->
    sock w' = sock w /\ sent (events w') = sent (events w).
Proof.
  induction fuel as [|fuel IH]; intros elapsed w w' Hrun;
    cbn [wait_deadline] in Hrun.
  - destruct (PrimFloat.ltb elapsed FPS_SLEEP); [discriminate|].
    injection Hrun as <-. split; reflexivity.
  - destruct (PrimFloat.ltb elapsed FPS_SLEEP);
      [|injection Hrun as <-; split; reflexivity].
    apply IH in Hrun. cbn [clock_gettime sock events] in Hrun.
    rewrite sent_clock in Hrun.
    destruct (PrimFloat.ltb SLEEP_THRESHOLD_S _); [|exact Hrun].
    destruct (0 <? _); [|exact Hrun].
    cbn in Hrun. rewrite sent_app in Hrun. cbn in Hrun.
    rewrite app_nil_r in Hrun. exact Hrun.
Qed.

(** Once some later reading of the clock is past the deadline the loop
    ends, having read the clock at most up to that reading. *)
Lemma wait_deadline_returns (n : nat) :
  forall (fuel : nat) (elapsed : float) (w : world),
    PrimFloat.ltb
      (get_time_diff send_started (clock (clock_reads w + n)))
      FPS_SLEEP = false ->
    (n < fuel)%nat ->
    exists w', wait_deadline clock fuel send_started elapsed w = Some w'.
Proof.
  induction n as [|n IH]; intros fuel elapsed w Hpast Hfuel.
  - destruct fuel as [|fuel]; [lia|]. cbn [wait_deadline].
    destruct (PrimFloat.ltb elapsed FPS_SLEEP); [|eauto].
    cbn [clock_gettime].
    match goal with
    | |- exists w', wait_deadline _ _ _ ?e ?w0 = _ =>
        assert (He : e = get_time_diff send_started (clock (clock_reads w + 0)))
    end.
    { rewrite Nat.add_0_r.
      destruct (PrimFloat.ltb SLEEP_THRESHOLD_S _); [|reflexivity].
      destruct (0 <? _); reflexivity. }
    rewrite He. destruct fuel; cbn [wait_deadline]; rewrite Hpast; eauto.
  - destruct fuel as [|fuel]; [lia|]. cbn [wait_deadline].
    destruct (PrimFloat.ltb elapsed FPS_SLEEP); [|eauto].
    cbn [clock_gettime]. apply IH; [|lia].
    cbn [clock_reads].
    replace (S _ + n)%nat with (clock_reads w + S n)%nat; [exact Hpast|].
    destruct (PrimFloat.ltb SLEEP_THRESHOLD_S _); [|lia].
    destruct (0 <? _); cbn; lia.
Qed.

End Wait.


(** ** The commit template *)

Lemma send_frame_template (s : socket_state) :
  template_shape (frame_data s) ->
  let b := to_uint8 (current_brightness s) in
  frame_data (send_frame s).1
    = replicate 21 0 ++ [b; 5; 0; b; b; b] ++ replicate 71 0 /\
  eth_payload (send_frame s).2
    = replicate 21 0 ++ [b; 5; 0; b; b; b] ++ replicate 71 0.
Proof.
  intros (x & y & r & g & b0 & Hfd). destruct s as [mac cb fd].
  cbn in Hfd. subst fd. split; reflexivity.
Qed.

Lemma template_lookup (b : Z) (i : nat) :
  (i < 98)%nat -> i <> 21%nat -> i <> 22%nat -> i <> 24%nat ->
  i <> 25%nat -> i <> 26%nat ->
  (replicate 21 0 ++ [b; 5; 0; b; b; b] ++ replicate 71 0) !! i = Some 0.
Proof.
  intros Hi H21 H22 H24 H25 H26.
  destruct (decide (i < 21)%nat) as [Hlo|Hlo].
  - rewrite lookup_app_l by (rewrite length_replicate; lia).
    apply lookup_replicate_2. exact Hlo.
  - rewrite lookup_app_r by (rewrite length_replicate; lia).
    rewrite length_replicate.
    destruct (decide (i = 23)%nat) as [->|H23]; [reflexivity|].
    rewrite lookup_app_r by (cbn; lia). cbn [length].
    apply lookup_replicate_2. lia.
Qed.

Lemma set_brightness_range (v : Z) (s : socket_state) :
  0 <= current_brightness (set_brightness v s) <= 255.
Proof.
  unfold set_brightness. cbn.
  destruct (v <? 0) eqn:Hlo; destruct (255 <? v) eqn:Hhi; cbn; lia.
Qed.

Lemma set_brightness_in_range (v : Z) (s : socket_state) :
  0 <= v <= 255 -> current_brightness (set_brightness v s) = v.
Proof.
  intros Hv. unfold set_brightness. cbn.
  destruct (v <? 0) eqn:Hlo; destruct (255 <? v) eqn:Hhi; cbn; lia.
Qed.

Lemma initial_socket_inv (mac : Z) : socket_inv (initial_socket mac).
Proof.
  split; [|cbn; lia]. exists 0, 0, 0, 0, 0. reflexivity.
Qed.

Lemma call_inv (s : socket_state) (c : socket_call) :
  socket_inv s -> socket_inv (call s c).
Proof.
  intros [Hshape Hrange]. destruct c as [v| |data len]; cbn [call].
  - split; [exact Hshape|apply set_brightness_range].
  - destruct (send_frame_template s Hshape) as [Hfd _]. split.
    + rewrite Hfd. do 5 eexists. reflexivity.
    + exact Hrange.
  - split; assumption.
Qed.

Lemma calls_inv (calls : list socket_call) :
  forall s, socket_inv s -> socket_inv (foldl call s calls).
Proof.
  induction calls as [|c calls IH]; intros s Hs; cbn; [exact Hs|].
  apply IH, call_inv, Hs.
Qed.

Lemma apply_brightness_inv (rr : option redisReply) (s : socket_state) :
  socket_inv s -> socket_inv (apply_brightness rr s).
Proof.
  intros Hs. unfold apply_brightness.
  destruct rr as [[str| | | | |]|]; try exact Hs.
  destruct (_ && _); [|exact Hs].
  apply (call_inv s (CallSetBrightness (atoi str))), Hs.
Qed.

Lemma apply_brightness_value (str : list Z) (s : socket_state) :
  current_brightness (apply_brightness (Some (REDIS_REPLY_STRING str)) s)
  = if (0 <=? atoi str) && (atoi str <=? 255)
    then atoi str else current_brightness s.
Proof.
  unfold apply_brightness.
  destruct ((0 <=? atoi str) && (atoi str <=? 255)) eqn:Hin; [|reflexivity].
  apply set_brightness_in_range. lia.
Qed.


(** ** One pass of the main loop *)

Section Pass.
Variable clock : nat -> timespec.
Variable send_started : timespec.

Lemma wait_deadline_more_fuel (fuel : nat) :
  forall (fuel' : nat) (elapsed : float) (w w' : world),
    (fuel <= fuel')%nat ->
    wait_deadline clock fuel send_started elapsed w = Some w' ->
    wait_deadline clock fuel' send_started elapsed w = Some w'.
Proof.
  induction fuel as [|fuel IH]; intros fuel' elapsed w w' Hle Hrun.
  - cbn [wait_deadline] in Hrun.
    destruct fuel'; cbn [wait_deadline];
      destruct (PrimFloat.ltb elapsed FPS_SLEEP);
      try discriminate; exact Hrun.
  - destruct fuel' as [|fuel']; [lia|].
    cbn [wait_deadline] in Hrun |- *.
    destruct (PrimFloat.ltb elapsed FPS_SLEEP); [|exact Hrun].
    apply IH; [lia|exact Hrun].
Qed.

(** From the reading taken right after the rows were sent: if the
    [n]-th reading from there on is past the deadline, the wait ends,
    with the same world for every sufficient fuel, and sends
    nothing. *)
Lemma wait_from_now (n : nat) (w : world) :
  PrimFloat.ltb
    (get_time_diff send_started (clock (clock_reads w + n)))
    FPS_SLEEP = false ->
  exists w2,
    (forall fuel, (n <= fuel)%nat ->
       wait_deadline clock fuel send_started
         (get_time_diff send_started (clock_gettime clock w).1)
         (clock_gettime clock w).2 = Some w2) /\
    sock w2 = sock w /\ sent (events w2) = sent (events w).
Proof.
  intros Hpast.
  assert (Hsome : exists w2,
             wait_deadline clock n send_started
               (get_time_diff send_started (clock_gettime clock w).1)
               (clock_gettime clock w).2 = Some w2).
  { destruct n as [|m].
    - rewrite Nat.add_0_r in Hpast. cbn [wait_deadline clock_gettime fst].
      rewrite Hpast. eauto.
    - apply (wait_deadline_returns clock send_started m); [|lia].
      cbn [clock_gettime snd clock_reads].
      replace (S (clock_reads w) + m)%nat
        with (clock_reads w + S m)%nat by lia.
      exact Hpast. }
  destruct Hsome as [w2 Hw2]. exists w2. split.
  - intros fuel Hfuel.
    apply (wait_deadline_more_fuel n); assumption.
  - apply wait_deadline_keeps in Hw2.
    cbn [clock_gettime snd sock events] in Hw2.
    rewrite sent_clock in Hw2. exact Hw2.
Qed.

End Pass.

End TransportFacts.

(** * Decimal strings *)

Section DecimalStrings.
Import Director.

Lemma digit_char_code (d : Z) :
  0 <= d <= 9 -> Z.of_nat (nat_of_ascii (digit_char d)) = 48 + d.
Proof.
  intros Hd. unfold digit_char. rewrite nat_ascii_embedding; lia.
Qed.

Lemma decimal_digits_all_digits (fuel : nat) :
  forall (n : Z) (acc : string),
    0 <= n ->
    all_digits (decimal_digits fuel n acc) = all_digits acc.
Proof.
  induction fuel as [|fuel IH]; intros n acc Hn; [reflexivity|].
  cbn [decimal_digits].
  assert (Hd : 0 <= n mod 10 <= 9) by (pose proof (Z.mod_pos_bound n 10); lia).
  assert (Hhere : all_digits (String (digit_char (n mod 10)) acc)
                  = all_digits acc).
  { cbn [all_digits]. rewrite (digit_char_code _ Hd).
    replace (48 <=? 48 + n mod 10) with true by lia.
    replace (48 + n mod 10 <=? 57) with true by lia. reflexivity. }
  fold (digit_char (n mod 10)).
  destruct (n / 10 =? 0); [exact Hhere|].
  rewrite IH by (apply Z.div_pos; lia). exact Hhere.
Qed.

Lemma decimal_digits_value (fuel : nat) :
  forall (n : Z) (acc : string),
    0 <= n < 2 ^ Z.of_nat fuel ->
    exists k, 0 <= k /\
      forall a, decimal_value a (decimal_digits fuel n acc)
                = decimal_value (a * 10 ^ k + n) acc.
Proof.
  induction fuel as [|fuel IH]; intros n acc Hn.
  - exists 0. split; [lia|]. intros a. cbn [decimal_digits].
    f_equal. cbn in Hn. lia.
  - cbn [decimal_digits]. fold (digit_char (n mod 10)).
    assert (Hd : 0 <= n mod 10 <= 9)
      by (pose proof (Z.mod_pos_bound n 10); lia).
    assert (Hstep : forall a,
              decimal_value a (String (digit_char (n mod 10)) acc)
              = decimal_value (10 * a + n mod 10) acc).
    { intros a. cbn [decimal_value]. rewrite (digit_char_code _ Hd).
      f_equal. lia. }
    destruct (n / 10 =? 0) eqn:Hq.
    + exists 1. split; [lia|]. intros a. rewrite Hstep. f_equal.
      pose proof (Z.div_mod n 10). lia.
    + destruct (IH (n / 10) (String (digit_char (n mod 10)) acc))
        as (k & Hk & Hval).
      { split; [apply Z.div_pos; lia|].
        rewrite Nat2Z.inj_succ, Z.pow_succ_r in Hn by lia.
        apply Z.div_lt_upper_bound; lia. }
      exists (k + 1). split; [lia|]. intros a.
      rewrite Hval, Hstep. f_equal.
      rewrite Z.pow_add_r by lia. pose proof (Z.div_mod n 10). lia.
Qed.

Lemma decimal_digits_first (fuel : nat) :
  forall (n : Z) (acc : string),
    0 <= n ->
    (fuel = 0%nat -> first_is_digit acc = true) ->
    first_is_digit (decimal_digits fuel n acc) = true.
Proof.
  induction fuel as [|fuel IH]; intros n acc Hn Hacc; [auto|].
  cbn [decimal_digits]. fold (digit_char (n mod 10)).
  assert (Hd : 0 <= n mod 10 <= 9)
    by (pose proof (Z.mod_pos_bound n 10); lia).
  assert (Hhere : first_is_digit (String (digit_char (n mod 10)) acc) = true).
  { cbn [first_is_digit]. rewrite (digit_char_code _ Hd). lia. }
  destruct (n / 10 =? 0); [exact Hhere|].
  apply IH; [apply Z.div_pos; lia|]. intros _. exact Hhere.
Qed.

Lemma log2_fuel (n : Z) : 0 <= n -> n < 2 ^ Z.of_nat (S (Z.to_nat (Z.log2 n))).
Proof.
  intros Hn. rewrite Nat2Z.inj_succ, Z2Nat.id by apply Z.log2_nonneg.
  destruct (Z.eq_dec n 0) as [->|Hne]; [reflexivity|].
  apply Z.log2_spec. lia.
Qed.

(** The decimal rendering of a natural number: digits only, at least
    one, spelling the number. *)
Lemma decimal_string_nonneg (n : Z) :
  0 <= n ->
  all_digits (decimal_string n) = true /\
  first_is_digit (decimal_string n) = true /\
  decimal_value 0 (decimal_string n) = n.
Proof.
  intros Hn. unfold decimal_string. replace (n <? 0) with false by lia.
  split; [rewrite decimal_digits_all_digits by lia; reflexivity|].
  split; [apply decimal_digits_first; [lia|discriminate]|].
  destruct (decimal_digits_value (S (Z.to_nat (Z.log2 n))) n EmptyString)
    as (k & _ & Hval); [split; [lia|apply log2_fuel; lia]|].
  rewrite Hval. cbn [decimal_value]. lia.
Qed.

Lemma trim_end_digits (s : string) :
  all_digits s = true -> trim_end s = s.
Proof.
  induction s as [|c s IH]; [reflexivity|]. cbn [all_digits trim_end].
  intros Hall. apply andb_prop in Hall as [Hc Hs]. rewrite (IH Hs).
  destruct s as [|c' s']; [|reflexivity].
  unfold Player.is_js_space.
  replace (Z.of_nat (nat_of_ascii c) =? 32) with false by lia.
  replace ((9 <=? Z.of_nat (nat_of_ascii c))
           && (Z.of_nat (nat_of_ascii c) <=? 13)) with false by lia.
  reflexivity.
Qed.

Lemma skip_spaces_not_space (c : ascii) (s : string) :
  Player.is_js_space c = false -> Player.skip_spaces (String c s) = String c s.
Proof. intros Hc. cbn [Player.skip_spaces]. rewrite Hc. reflexivity. Qed.

Lemma first_digit_shape (s : string) :
  first_is_digit s = true ->
  exists c rest, s = String c rest /\
    Player.is_js_space c = false /\
    Ascii.eqb c "-" = false /\ Ascii.eqb c "+" = false.
Proof.
  destruct s as [|c rest]; [discriminate|]. cbn [first_is_digit].
  intros Hc. exists c, rest. split; [reflexivity|].
  unfold Player.is_js_space.
  split; [lia|]. split.
  - destruct (Ascii.eqb_spec c "-") as [->|]; [|reflexivity].
    cbn in Hc. discriminate.
  - destruct (Ascii.eqb_spec c "+") as [->|]; [|reflexivity].
    cbn in Hc. discriminate.
Qed.

(** [Number] reads back the decimal rendering of a natural number. *)
Lemma Number_decimal_nonneg (n : Z) :
  0 <= n < 2 ^ 53 ->
  Number (decimal_string n) = Some (float_of_Z n) /\
  String.eqb (decimal_string n) EmptyString = false.
Proof.
  intros Hn.
  destruct (decimal_string_nonneg n) as (Hall & Hfirst & Hval); [lia|].
  destruct (first_digit_shape _ Hfirst) as (c & rest & Hs & Hsp & Hm & Hp).
  split; [|rewrite Hs; reflexivity].
  unfold Number, js_trim.
  rewrite Hs, (skip_spaces_not_space c rest Hsp), <- Hs.
  rewrite (trim_end_digits _ Hall), Hs, Hm, Hp, <- Hs.
  rewrite Hall, Hval. replace (n <? 2 ^ 53) with true by lia.
  rewrite Hs at 1. reflexivity.
Qed.

Lemma Number_decimal (z : Z) :
  - 2 ^ 53 < z < 2 ^ 53 ->
  Number (decimal_string z) = Some (float_of_Z z).
Proof.
  intros Hz. destruct (Z.ltb_spec z 0) as [Hneg|Hpos];
    [|apply Number_decimal_nonneg; lia].
  destruct (decimal_string_nonneg (- z)) as (Hall & Hfirst & Hval); [lia|].
  destruct (first_digit_shape _ Hfirst) as (c & rest & Hs & _).
  assert (Hstr : decimal_string z = String "-" (decimal_string (- z))).
  { unfold decimal_string. replace (z <? 0) with true by lia.
    replace (- z <? 0) with false by lia. reflexivity. }
  rewrite Hstr. unfold Number, js_trim.
  rewrite skip_spaces_not_space by reflexivity.
  assert (Htrim : trim_end (String "-" (decimal_string (- z)))
                  = String "-" (decimal_string (- z))).
  { cbn [trim_end]. rewrite (trim_end_digits _ Hall), Hs. reflexivity. }
  rewrite Htrim. change (Ascii.eqb "-" "-") with true. cbv iota.
  rewrite Hall, Hval. replace (- z <? 2 ^ 53) with true by lia.
  rewrite Hs at 1. cbn [String.eqb negb andb fmap option_fmap option_map].
  unfold float_of_Z. replace (z <? 0) with true by lia.
  replace (- z <? 0) with false by lia. reflexivity.
Qed.

End DecimalStrings.

(** * Claims about the Transport *)

Section TransportClaims.
Import Transport.

(** C1: a dequeued frame of 320*64*4 bytes makes one pass of the main
    loop hand to the wire exactly 64 row packets, the one with row index
    [r] in place [r], and then exactly one commit packet, which is the
    last thing sent.  The pass completes as soon as the monotonic clock
    gets past the deadline, here at its [n]-th reading after the rows. *)
Theorem rows_then_commit (clock : nat -> timespec) (st : main_state)
    (key : redisReply) (frame : list Z) (more : list redisReply)
    (rr_brightness : option redisReply) (interrupted : bool) (n : nat) :
  Z.of_nat (length frame) = 320 * 64 * 4 ->
  length (payload_buf st) = 967%nat ->
  PrimFloat.ltb
    (get_time_diff (send_started st)
                   (clock (clock_reads (the_world st) + n)%nat))
    FPS_SLEEP = false ->
  exists st' rows commit,
    (forall fuel, (n <= fuel)%nat ->
       main_iteration clock fuel
         (PipelineOk (Some (REDIS_REPLY_ARRAY
                              (key :: REDIS_REPLY_STRING frame :: more)))
                     rr_brightness)
         interrupted st = Some st') /\
    sent (events (the_world st'))
      = sent (events (the_world st)) ++ rows ++ [commit] /\
    length rows = 64%nat /\
    (forall r, (r < 64)%nat ->
       exists f, rows !! r = Some f /\
                 ether_type f = ROW_ETHER_TYPE /\
                 eth_payload f !! 0%nat = Some (Z.of_nat r)) /\
    ether_type commit = FRAME_ETHER_TYPE.
Proof.
  intros Hframe Hbuf Hpast.
  destruct (process_valid_frame key frame more rr_brightness
              (payload_buf st) (the_world st) Hframe Hbuf)
    as (payload' & bufs & Hproc & Hpl & Hn & Hrows).
  set (s1 := apply_brightness rr_brightness (sock (the_world st))) in *.
  set (w1 := add_events (map (fun buf => EvSend (send_row s1 buf 967)) bufs)
               (with_sock s1 (the_world st))) in *.
  destruct (wait_from_now clock (send_started st) n w1 Hpast)
    as (w2 & Hwait & Hsock & Hsent).
  set (w3 := (clock_gettime clock w2).2).
  set (commit := (send_frame (sock w3)).2).
  set (w4 := emit (EvSend commit) (with_sock (send_frame (sock w3)).1 w3)).
  assert (Hsent4 : sent (events w4)
                   = sent (events (the_world st))
                     ++ map (fun buf => send_row s1 buf 967) bufs ++ [commit]).
  { unfold w4, w3. cbn. rewrite sent_app, sent_clock, Hsent. unfold w1. cbn.
    rewrite sent_app, <- app_assoc. f_equal. f_equal.
    rewrite <- (sent_sends (map _ bufs)), map_map. reflexivity. }
  pose (done (wrapped : bool) :=
          if wrapped
          then {| the_world := (clock_gettime clock
                                  (emit EvStdout (clock_gettime clock w4).2)).2;
                  payload_buf := payload'; sends := 0;
                  start_time := (clock_gettime clock
                                   (emit EvStdout (clock_gettime clock w4).2)).1;
                  send_started := (clock_gettime clock w2).1 |}
          else {| the_world := w4; payload_buf := payload';
                  sends := sends st + 1; start_time := start_time st;
                  send_started := (clock_gettime clock w2).1 |}).
  exists (done ((sends st + 1) mod FPS =? 0)),
         (map (fun buf => send_row s1 buf 967) bufs), commit.
  split; [|split; [|split; [|split]]].
  - intros fuel Hfuel. unfold main_iteration. rewrite Hproc.
    cbn [Z.eqb negb]. specialize (Hwait fuel Hfuel).
    unfold clock_gettime at 1. unfold clock_gettime at 1 2 in Hwait.
    cbn [fst snd] in Hwait. rewrite Hwait. unfold done.
    destruct ((sends st + 1) mod FPS =? 0); reflexivity.
  - unfold done. destruct ((sends st + 1) mod FPS =? 0); [|exact Hsent4].
    cbn [the_world clock_gettime emit snd events].
    rewrite sent_clock, sent_app, sent_clock.
    change (sent [EvStdout]) with (@nil eth_frame).
    rewrite app_nil_r. exact Hsent4.
  - rewrite length_map. exact Hn.
  - intros r Hr.
    destruct (lookup_lt_is_Some_2 bufs r) as [buf Hbuf']; [lia|].
    exists (send_row s1 buf 967). rewrite list_lookup_fmap, Hbuf'.
    destruct (Hrows r buf Hbuf') as (Hlen & Hhead & _).
    destruct (send_row_exact s1 buf Hlen) as [Hty Hpay].
    split; [reflexivity|split; [exact Hty|]]. rewrite Hpay.
    rewrite <- (lookup_take_lt buf 7 0) by lia. rewrite Hhead. cbn.
    unfold to_uint8. rewrite Z.mod_small by lia. reflexivity.
  - reflexivity.
Qed.


Lemma rows_then_commit_witness :
  let st := fresh_main_state seconds_clock 0 in
  exists st' rows commit,
    (forall fuel, (1 <= fuel)%nat ->
       main_iteration seconds_clock fuel
         (PipelineOk (blpop_reply black_frame)
                     (Some (REDIS_REPLY_STRING (c_string "42"))))
         false st = Some st') /\
    sent (events (the_world st'))
      = sent (events (the_world st)) ++ rows ++ [commit] /\
    length rows = 64%nat /\
    (forall r, (r < 64)%nat ->
       exists f, rows !! r = Some f /\
                 ether_type f = ROW_ETHER_TYPE /\
                 eth_payload f !! 0%nat = Some (Z.of_nat r)) /\
    ether_type commit = FRAME_ETHER_TYPE.
Proof.
  intros st.
  apply (rows_then_commit seconds_clock st
           (REDIS_REPLY_STRING (c_string "player:frames")) black_frame []
           (Some (REDIS_REPLY_STRING (c_string "42"))) false 1).
  - vm_compute. reflexivity.
  - vm_compute. reflexivity.
  - vm_compute. reflexivity.
Defined.

(** The one-pixel scenario of the specification: the BGRA pixel
    [11 22 33 ff] is written behind the header as [33 22 11]. *)
Example one_pixel_reordered :
  (convert_row 1 [0x11; 0x22; 0x33; 0xFF] ROW_HEADER_SIZE (replicate 10 0)).2
  = replicate 7 0 ++ [0x33; 0x22; 0x11].
Proof. reflexivity. Qed.

(** C2: for a dequeued frame of 320*64*4 bytes and every pixel index
    [i], the row packet of row [i / 320] carries at the three bytes of
    column [i mod 320], behind its 7-byte header, the frame bytes
    [4i+2], [4i+1], [4i] in this order, unchanged; the packet has room
    for three bytes per pixel only, so byte [4i+3] is not sent. *)
Theorem bgra_to_rgb (key : redisReply) (frame : list Z)
    (more : list redisReply) (rr_brightness : option redisReply)
    (payload : list Z) (w : world) :
  Z.of_nat (length frame) = 320 * 64 * 4 ->
  length payload = 967%nat ->
  exists payload' w' rows,
    process_and_send_frame
      (PipelineOk (Some (REDIS_REPLY_ARRAY
                           (key :: REDIS_REPLY_STRING frame :: more)))
                  rr_brightness)
      payload payload_length w = Some (0, payload', w') /\
    sent (events w') = sent (events w) ++ rows /\
    forall i, (i < 320 * 64)%nat ->
      exists f r g b,
        rows !! (i / 320)%nat = Some f /\
        ether_type f = ROW_ETHER_TYPE /\
        length (eth_payload f) = (7 + 3 * 320)%nat /\
        frame !! (4 * i + 2)%nat = Some r /\
        frame !! (4 * i + 1)%nat = Some g /\
        frame !! (4 * i)%nat = Some b /\
        eth_payload f !! (7 + 3 * (i mod 320))%nat = Some r /\
        eth_payload f !! (7 + 3 * (i mod 320) + 1)%nat = Some g /\
        eth_payload f !! (7 + 3 * (i mod 320) + 2)%nat = Some b.
Proof.
  intros Hframe Hbuf.
  destruct (process_valid_frame key frame more rr_brightness payload w
              Hframe Hbuf)
    as (payload' & bufs & Hproc & Hpl & Hn & Hrows).
  set (s1 := apply_brightness rr_brightness (sock w)) in *.
  eexists payload', _, (map (fun buf => send_row s1 buf 967) bufs).
  split; [exact Hproc|split].
  - cbn. rewrite sent_app. f_equal.
    rewrite <- (sent_sends (map _ bufs)), map_map. reflexivity.
  - intros i Hi.
    pose proof (Nat.div_mod_eq i 320) as Hdm.
    pose proof (Nat.mod_upper_bound i 320) as Hm.
    set (q := (i / 320)%nat) in *. set (c := (i mod 320)%nat) in *.
    assert (Hq : (q < 64)%nat) by lia.
    destruct (lookup_lt_is_Some_2 bufs q) as [buf Hbuf']; [lia|].
    destruct (Hrows q buf Hbuf') as (Hlen & _ & Hpix).
    destruct (Hpix c) as (H2 & H1 & H0); [lia|].
    destruct (send_row_exact s1 buf Hlen) as [Hty Hpay].
    exists (send_row s1 buf 967), (frame !!! (4 * i + 2)%nat),
           (frame !!! (4 * i + 1)%nat), (frame !!! (4 * i)%nat).
    rewrite list_lookup_fmap, Hbuf', Hpay.
    rewrite !lookup_total_drop in H2, H1, H0.
    replace (1280 * q + (4 * c + 2))%nat with (4 * i + 2)%nat in H2 by lia.
    replace (1280 * q + (4 * c + 1))%nat with (4 * i + 1)%nat in H1 by lia.
    replace (1280 * q + 4 * c)%nat with (4 * i)%nat in H0 by lia.
    repeat split; try assumption;
      apply list_lookup_lookup_total_lt; lia.
Qed.

Lemma bgra_to_rgb_witness :
  Z.of_nat (length black_frame) = 320 * 64 * 4 /\
  length (replicate 967 0 : list Z) = 967%nat /\
  exists payload' w' rows,
    process_and_send_frame
      (PipelineOk (blpop_reply black_frame) None)
      (replicate 967 0) payload_length (the_world (fresh_main_state seconds_clock 0))
    = Some (0, payload', w') /\
    sent (events w')
      = sent (events (the_world (fresh_main_state seconds_clock 0))) ++ rows /\
    forall i, (i < 320 * 64)%nat ->
      exists f r g b,
        rows !! (i / 320)%nat = Some f /\
        ether_type f = ROW_ETHER_TYPE /\
        length (eth_payload f) = (7 + 3 * 320)%nat /\
        black_frame !! (4 * i + 2)%nat = Some r /\
        black_frame !! (4 * i + 1)%nat = Some g /\
        black_frame !! (4 * i)%nat = Some b /\
        eth_payload f !! (7 + 3 * (i mod 320))%nat = Some r /\
        eth_payload f !! (7 + 3 * (i mod 320) + 1)%nat = Some g /\
        eth_payload f !! (7 + 3 * (i mod 320) + 2)%nat = Some b.
Proof.
  assert (H1 : Z.of_nat (length black_frame) = 320 * 64 * 4)
    by (vm_compute; reflexivity).
  assert (H2 : length (replicate 967 0 : list Z) = 967%nat)
    by (vm_compute; reflexivity).
  split; [exact H1|split; [exact H2|]].
  exact (bgra_to_rgb (REDIS_REPLY_STRING (c_string "player:frames"))
           black_frame [] None (replicate 967 0)
           (the_world (fresh_main_state seconds_clock 0)) H1 H2).
Defined.


(** C3: whatever calls [socket.c] has served since [open_socket], its
    brightness [b] lies in 0..255 and the commit packet [send_frame]
    sends next has a 98-byte payload with [b] at offsets 21, 24, 25 and
    26, with 5 at offset 22, and with 0 at every other offset, 23
    included. *)
Theorem commit_payload_layout (mac : Z) (calls : list socket_call) :
  let s := foldl call (initial_socket mac) calls in
  let b := current_brightness s in
  let commit := (send_frame s).2 in
  0 <= b <= 255 /\
  ether_type commit = FRAME_ETHER_TYPE /\
  length (eth_payload commit) = 98%nat /\
  eth_payload commit !! 21%nat = Some b /\
  eth_payload commit !! 22%nat = Some 5 /\
  eth_payload commit !! 24%nat = Some b /\
  eth_payload commit !! 25%nat = Some b /\
  eth_payload commit !! 26%nat = Some b /\
  forall i, (i < 98)%nat -> i <> 21%nat -> i <> 22%nat -> i <> 24%nat ->
            i <> 25%nat -> i <> 26%nat ->
            eth_payload commit !! i = Some 0.
Proof.
  intros s b commit.
  destruct (calls_inv calls _ (initial_socket_inv mac)) as [Hshape Hrange].
  fold s in Hshape, Hrange. fold b in Hrange.
  destruct (send_frame_template s Hshape) as [_ Hpay].
  fold commit in Hpay. cbv zeta in Hpay. fold b in Hpay.
  unfold to_uint8 in Hpay. rewrite Z.mod_small in Hpay by lia.
  split; [exact Hrange|]. split; [reflexivity|]. rewrite Hpay.
  repeat (split; [reflexivity|]).
  intros i. apply template_lookup.
Qed.

(** The end-to-end scenario of the specification: brightness 42. *)
Example commit_brightness_42 :
  eth_payload
    (send_frame (call (initial_socket 0) (CallSetBrightness 42))).2
  = replicate 21 0 ++ [42; 5; 0; 42; 42; 42] ++ replicate 71 0.
Proof. reflexivity. Qed.

(** C4, as stated, fails: with hardware brightness 0 in effect, the
    string "300" read from [sender:brightness] leaves 0 in the next commit
    packet, not 300 clamped to 255; and the message "250" on the
    brightness channel gives the Renderer 250, which is above 100. *)
Lemma brightness_300_not_clamped :
  let s := apply_brightness (Some (REDIS_REPLY_STRING (c_string "300")))
                            (initial_socket 0) in
  eth_payload (send_frame s).2 !! 21%nat
    <> Some (Z.max 0 (Z.min 255 (atoi (c_string "300")))) /\
  exists v, Director.on_message Director.BRIGHTNESS_CHANNEL "250" 100 = Some v /\
            PrimFloat.ltb 100 v = true.
Proof.
  split; [vm_compute; discriminate|].
  eexists. split; vm_compute; reflexivity.
Qed.

(** C4, amended: the Transport applies the string read from
    [sender:brightness] only when its integer value, as [atoi] reads it,
    lies in 0..255, and then the next commit packet carries exactly that
    value; a value outside 0..255 is ignored and the brightness in effect
    before stays in the next commit packet.  The Orchestrator gives the
    Renderer the number a message on the brightness channel spells: for
    every integer in decimal, that integer itself, whatever its size. *)
Theorem brightness_on_consumption :
  (forall (mac : Z) (calls : list socket_call) (str : list Z),
     let s := foldl call (initial_socket mac) calls in
     let s' := apply_brightness (Some (REDIS_REPLY_STRING str)) s in
     current_brightness s'
       = (if (0 <=? atoi str) && (atoi str <=? 255)
          then atoi str else current_brightness s) /\
     eth_payload (send_frame s').2 !! 21%nat
       = Some (current_brightness s')) /\
  (forall (z : Z) (brightness : float),
     - 2 ^ 53 < z < 2 ^ 53 ->
     Director.on_message Director.BRIGHTNESS_CHANNEL (decimal_string z)
                         brightness
       = Some (float_of_Z z)).
Proof.
  split.
  - intros mac calls str s s'. split; [apply apply_brightness_value|].
    assert (Hinv : socket_inv s').
    { apply apply_brightness_inv, calls_inv, initial_socket_inv. }
    destruct Hinv as [Hshape Hrange].
    destruct (send_frame_template s' Hshape) as [_ Hpay].
    cbv zeta in Hpay. unfold to_uint8 in Hpay.
    rewrite Z.mod_small in Hpay by lia. rewrite Hpay. reflexivity.
  - intros z brightness Hz. unfold Director.on_message.
    change (String.eqb Director.BRIGHTNESS_CHANNEL
                       Director.BRIGHTNESS_CHANNEL) with true.
    cbv iota. apply Number_decimal. exact Hz.
Qed.

Lemma brightness_on_consumption_witness :
  Director.on_message Director.BRIGHTNESS_CHANNEL (decimal_string 250)
                      100%float
  = Some (float_of_Z 250).
Proof. apply (proj2 brightness_on_consumption 250 100%float). lia. Defined.

(** The value [atoi] reads is an [int]: a string that spells 2^32 + 42
    sets the brightness 42, and one that spells 2^31 + 42, a negative
    [int], is ignored. *)
Example brightness_wraps_as_int :
  atoi (c_string "4294967338") = 42 /\
  current_brightness
    (apply_brightness (Some (REDIS_REPLY_STRING (c_string "4294967338")))
                      (set_brightness 200 (initial_socket 0))) = 42 /\
  current_brightness
    (apply_brightness (Some (REDIS_REPLY_STRING (c_string "2147483690")))
                      (set_brightness 200 (initial_socket 0))) = 200.
Proof. repeat split; vm_compute; reflexivity. Qed.

End TransportClaims.

(** * Claims about the Orchestrator *)

Section DirectorClaims.
Import Director.










(** The stalled-transport scenario with [fps = 3]: lengths 1, 2, 3, the
    re-read 3, then 0, and the fourth frame starts a new round. *)
Example stalled_round :
  map queue_length
      (observed
         (run {| Player.width := 320; Player.height := 64;
                 Player.theme := "dark"; Player.fps := Some 3 |}
              (stalled [[1]; [2]; [3]; [4]]) ∅).2)
  = [1; 2; 3; 3; 0; 1].
Proof. vm_compute. reflexivity. Qed.

(** Why the run has to start below [fps]: the test is an equality, so a
    list that already holds [fps] frames when a pass begins goes to
    [fps + 1] and is not flushed. *)
Example queue_at_fps_is_not_flushed :
  let sign := {| Player.width := 320; Player.height := 64;
                 Player.theme := "dark"; Player.fps := Some 3 |} in
  let full := <[PLAYER_FRAMES_KEY := RedisList [[1]; [2]; [3]]]> (∅ : redis) in
  map queue_length (observed (run sign (stalled [[4]; [5]]) full).2) = [4; 5].
Proof. vm_compute. reflexivity. Qed.

End DirectorClaims.

(** * Claims about the Ambient controller *)

Section SensorsClaims.
Import Sensors.
Variable gamma_reading : Z -> Z.

Lemma updateBrightness_step (lux : Z) (st : state) :
  1 <= currentBrightness st <= 100 ->
  let r := updateBrightness gamma_reading lux st in
  1 <= currentBrightness r.1 <= 100 /\
  ((published r.2 = [] /\ currentBrightness r.1 = currentBrightness st) \/
   (published r.2 = [currentBrightness r.1] /\
    Z.abs (currentBrightness r.1 - currentBrightness st) <= 5)).
Proof.
  intros Hcur. unfold updateBrightness, luxToBrightness.
  cbv zeta. cbn [currentBrightness sensorReadings].
  destruct (Math_round _) as [target|]; [|cbn; auto].
  destruct (target - currentBrightness st =? 0) eqn:Hdiff; [cbn; auto|].
  cbn [fst snd currentBrightness published omap].
  unfold BRIGHTNESS_MAX, BRIGHTNESS_MIN, BRIGHTNESS_INC_MAX.
  split; [lia|]. right. split; [reflexivity|]. lia.
Qed.

Lemma run_published (inputs : list (option Z)) :
  forall st : state,
    1 <= currentBrightness st <= 100 ->
    Forall (fun b => 1 <= b <= 100) (published (run gamma_reading inputs st).2) /\
    steps_within 5
      (currentBrightness st :: published (run gamma_reading inputs st).2).
Proof.
  induction inputs as [|[lux|] inputs IH]; intros st Hcur.
  - cbn. split; [constructor|exact I].
  - cbn [run].
    destruct (updateBrightness_step lux st Hcur) as (Hcur1 & Hstep).
    destruct (updateBrightness gamma_reading lux st) as [st1 evs1].
    cbn [fst snd] in Hcur1, Hstep.
    destruct (IH st1 Hcur1) as (Hall & Hsteps).
    destruct (run gamma_reading inputs st1) as [st2 evs2].
    cbn [fst snd] in *. unfold published in *. rewrite omap_app.
    destruct Hstep as [[-> Heq]|[-> Hd]].
    + rewrite app_nil_l, <- Heq. split; assumption.
    + cbn [app]. split; [constructor; assumption|].
      split; assumption.
  - cbn [run]. destruct (IH st Hcur) as (Hall & Hsteps).
    destruct (run gamma_reading inputs st) as [st2 evs2].
    cbn [fst snd] in *. cbn. split; assumption.
Qed.

End SensorsClaims.

Section SensorsLoop.
Import Sensors.
Variable gamma_reading : Z -> Z.

(** What one pass does to the brightness and to the channel. *)
Lemma cycle_step (lux : option Z) (a : answers) (st : state) :
  1 <= currentBrightness st <= 100 ->
  let r := cycle gamma_reading lux a st in
  1 <= currentBrightness r.1 <= 100 /\
  ((handed_to_publish r.2 = [] /\ published r.2 = [] /\
    currentBrightness r.1 = currentBrightness st) \/
   (handed_to_publish r.2 = [currentBrightness r.1] /\
    published r.2
      = (if publish_ok a then [currentBrightness r.1] else []) /\
    Z.abs (currentBrightness r.1 - currentBrightness st) <= 5)).
Proof.
  intros Hcur. destruct lux as [lux|]; [|cbn; auto].
  unfold cycle, luxToBrightness.
  cbv zeta. cbn [currentBrightness sensorReadings].
  destruct (Math_round _) as [target|]; [|cbn; auto].
  destruct (target - currentBrightness st =? 0) eqn:Hdiff; [cbn; auto|].
  cbn [fst snd currentBrightness].
  unfold BRIGHTNESS_MAX, BRIGHTNESS_MIN, BRIGHTNESS_INC_MAX.
  split; [lia|]. right.
  destruct a as [[] []]; cbn; (split; [reflexivity|split; [reflexivity|lia]]).
Qed.

Lemma handed_app (a b : list event) :
  handed_to_publish (a ++ b) = handed_to_publish a ++ handed_to_publish b.
Proof. apply omap_app. Qed.

Lemma published_app (a b : list event) :
  published (a ++ b) = published a ++ published b.
Proof. apply omap_app. Qed.

Lemma control_loop_publishes (cycles : list (option Z * answers)) :
  forall st : state,
    1 <= currentBrightness st <= 100 ->
    let evs := (control_loop gamma_reading cycles st).2 in
    Forall (fun b => 1 <= b <= 100) (handed_to_publish evs) /\
    steps_within 5 (currentBrightness st :: handed_to_publish evs) /\
    Forall (fun b => 1 <= b <= 100) (published evs) /\
    (publishes_answered cycles -> published evs = handed_to_publish evs).
Proof.
  induction cycles as [|[lux a] cycles IH]; intros st Hcur.
  - cbn. split; [constructor|]. split; [exact I|]. split; [constructor|].
    reflexivity.
  - cbn [control_loop].
    destruct (cycle_step lux a st Hcur) as (Hcur1 & Hstep).
    destruct (cycle gamma_reading lux a st) as [st1 evs1].
    cbn [fst snd] in Hcur1, Hstep.
    destruct (IH st1 Hcur1) as (Hall & Hsteps & Hpub & Hsame).
    destruct (control_loop gamma_reading cycles st1) as [st2 evs2].
    cbv zeta. cbn [fst snd] in *. rewrite handed_app, published_app.
    destruct Hstep as [(-> & -> & Heq)|(-> & -> & Hd)].
    + rewrite !app_nil_l, <- Heq. split; [assumption|].
      split; [assumption|]. split; [assumption|].
      intros Hok. apply Hsame. inversion Hok; assumption.
    + cbn [app]. split; [constructor; assumption|].
      split; [split; assumption|]. split.
      * destruct (publish_ok a); [constructor; assumption|assumption].
      * intros Hok. inversion Hok as [|c cs Ha Hrest]; subst.
        cbn [snd] in Ha. rewrite Ha, (Hsame Hrest). reflexivity.
Qed.

(** C6, amended: for every sequence of lux readings (and of failed
    readings and rejected commands in between), started from
    [currentBrightness = 1]: the values handed to [PUBLISH] lie in 1..100,
    the first differs from 1 by at most 5 and each later one from the one
    before it by at most 5; the values that reach the channel lie in
    1..100; and when no [PUBLISH] is rejected they are the values handed
    over, so that they too change by at most 5 at a time. *)
Theorem published_rate_limited (cycles : list (option Z * answers)) :
  let evs := (control_loop gamma_reading cycles initial).2 in
  Forall (fun b => 1 <= b <= 100) (handed_to_publish evs) /\
  steps_within 5 (1 :: handed_to_publish evs) /\
  Forall (fun b => 1 <= b <= 100) (published evs) /\
  (publishes_answered cycles ->
   published evs = handed_to_publish evs /\
   steps_within 5 (1 :: published evs)).
Proof.
  intros evs.
  destruct (control_loop_publishes cycles initial) as (Hall & Hsteps & Hpub & Hsame);
    [cbn; lia|].
  fold evs in Hall, Hsteps, Hpub, Hsame.
  split; [exact Hall|]. split; [exact Hsteps|]. split; [exact Hpub|].
  intros Hok. split; [exact (Hsame Hok)|]. rewrite (Hsame Hok). exact Hsteps.
Qed.

End SensorsLoop.

Section SensorsLoopSamples.
Import Sensors.

Lemma published_rate_limited_witness :
  let cycles := [(Some 400, {| publish_ok := true; set_ok := false |});
                 (None, all_answered); (Some 400, all_answered)] in
  let evs := (control_loop sample_gamma cycles initial).2 in
  published evs = handed_to_publish evs /\
  steps_within 5 (1 :: published evs).
Proof.
  intros cycles evs.
  apply (published_rate_limited sample_gamma cycles).
  repeat constructor.
Defined.

(** C6, as stated, fails when a [PUBLISH] is rejected.  Two readings of
    400 lux, which the curve maps to 100: the first cycle moves the
    brightness from 1 to 6 and its [PUBLISH] is rejected; the second moves
    it to 11 and publishes 11, which is 10 away from the 1 the sequence
    starts from. *)
Lemma rejected_publish_jumps :
  let cycles := [(Some 400, {| publish_ok := false; set_ok := true |});
                 (Some 400, all_answered)] in
  let pubs := published (control_loop sample_gamma cycles initial).2 in
  pubs = [11] /\
  ~ (Forall (fun b => 1 <= b <= 100) pubs /\ steps_within 5 (1 :: pubs)).
Proof.
  intros cycles pubs.
  assert (Hpubs : pubs = [11]) by (vm_compute; reflexivity).
  split; [exact Hpubs|]. rewrite Hpubs. cbn. intros [_ [Hstep _]]. lia.
Qed.

End SensorsLoopSamples.

(** The ramp scenario of the specification: one dark reading, then bright
    ones, with the gamma map taken at its two end points.  The published
    values climb from 1 in steps of 5 and end at 100. *)
Example brightness_ramp :
  Sensors.published
    (Sensors.run (fun lux => if lux <? 400 then 1 else 100)
                 (Some 0 :: replicate 21 (Some 10000)) Sensors.initial).2
  = [6; 11; 16; 21; 26; 31; 36; 41; 46; 51; 56; 61; 66; 71; 76; 81; 86; 91;
     96; 100].
Proof. vm_compute. reflexivity. Qed.

(** * Claims about the Renderer *)

Section PlayerClaims.
Import Player.

(** C8: at brightness 100 the colour comes back exactly as it went in,
    whatever string it is. *)
Theorem full_brightness_is_identity (hexColor : string) :
  adjustColorForBrightness hexColor 100 = hexColor.
Proof.
  unfold adjustColorForBrightness.
  change (PrimFloat.eqb 100 100) with true.
  cbn [orb]. reflexivity.
Qed.

Context {TL : Type} `{Gsap TL}.

(** C10: before any movie is loaded, [play] returns [undefined] at once:
    no pass through the loop is needed (any fuel will do), and the
    player, canvas included, is what it was. *)
Theorem play_without_movie (fuel : nat) (p : player TL) :
  movie p = None -> play fuel p = Some (ReturnUndefined, p).
Proof. intros Hnone. unfold play. rewrite Hnone. reflexivity. Qed.

(** ** Termination of [play] *)

Lemma clears_app (a b : list canvas_op) :
  clears (a ++ b) = clears a + clears b.
Proof.
  unfold clears. rewrite List.filter_app, length_app. lia.
Qed.

Lemma clears_draw_active (anims : list animation) :
  clears (draw_active anims) = 0.
Proof.
  unfold draw_active.
  induction anims as [|a anims IH]; [reflexivity|].
  rewrite bind_cons, clears_app, IH.
  destruct (animating a); reflexivity.
Qed.





End PlayerClaims.

Section PlayerSamples.
Import Player.

Lemma play_without_movie_witness :
  play 0 (new unit) = Some (ReturnUndefined, new unit).
Proof. apply (play_without_movie 0 (new unit)). reflexivity. Defined.



End PlayerSamples.

(** * Brightness compensation is monotone *)

Section Compensation.
Import Player.

Lemma forallb_seqZ (f : Z -> bool) (lo n x : Z) :
  forallb f (seqZ lo n) = true -> lo <= x < lo + n -> f x = true.
Proof.
  intros Hall Hx. rewrite forallb_forall in Hall. apply Hall.
  apply list_elem_of_In, elem_of_seqZ. exact Hx.
Qed.

Lemma step_table :
  forallb (fun c => forallb (step_ok c) (seqZ 1 99)) (seqZ 0 256) = true.
Proof. vm_compute. reflexivity. Qed.

Lemma two_digits_table : forallb two_digits (seqZ 0 256) = true.
Proof. vm_compute. reflexivity. Qed.

Lemma step_ok_at (c x : Z) :
  0 <= c <= 255 -> 1 <= x <= 99 ->
  PrimFloat.eqb (float_of_Z x) 100 = false /\
  exists v v', shown c x = Some v /\ shown c (x + 1) = Some v' /\
               0 <= v <= v' /\ v' <= c.
Proof.
  intros Hc Hx.
  assert (Hok : step_ok c x = true).
  { apply (forallb_seqZ (step_ok c) 1 99); [|lia].
    apply (forallb_seqZ (fun c => forallb (step_ok c) (seqZ 1 99)) 0 256);
      [exact step_table|lia]. }
  unfold step_ok in Hok. apply andb_prop in Hok as [Hne Hok].
  split; [destruct (PrimFloat.eqb _ _); [discriminate|reflexivity]|].
  destruct (shown c x) as [v|]; [|discriminate].
  destruct (shown c (x + 1)) as [v'|]; [|discriminate].
  exists v, v'. repeat split; lia.
Qed.

(** From one brightness to any higher one. *)
Lemma shown_monotone (c : Z) (n : nat) :
  forall x, 0 <= c <= 255 -> 1 <= x -> x + Z.of_nat n <= 100 ->
    exists v v', shown c x = Some v /\ shown c (x + Z.of_nat n) = Some v' /\
                 0 <= v <= v' /\ v' <= c.
Proof.
  induction n as [|n IH]; intros x Hc Hlo Hhi.
  - rewrite Z.add_0_r.
    destruct (decide (x = 100)) as [->|Hx].
    + exists c, c. repeat split; try reflexivity; lia.
    + destruct (step_ok_at c x) as (_ & v & v' & Hv & _ & Hle); [lia..|].
      exists v, v. repeat split; try assumption; lia.
  - destruct (IH x) as (v & w & Hv & Hw & Hle); [lia..|].
    destruct (step_ok_at c (x + Z.of_nat n))
      as (_ & w0 & v' & Hw0 & Hv' & Hle'); [lia..|].
    rewrite Hw in Hw0. injection Hw0 as <-.
    exists v, v'. replace (x + Z.of_nat (S n)) with (x + Z.of_nat n + 1) by lia.
    repeat split; try assumption; lia.
Qed.

Lemma two_digits_at (v : Z) :
  0 <= v <= 255 ->
  exists c1 c2,
    padStart2 (toString16 (Some v)) = String c1 (String c2 EmptyString) /\
    parseInt16 (String c1 (String c2 EmptyString)) = Some v.
Proof.
  intros Hv.
  pose proof (forallb_seqZ two_digits 0 256 v two_digits_table) as Hok.
  unfold two_digits in Hok.
  destruct (padStart2 (toString16 (Some v))) as [|c1 [|c2 [|]]];
    try (discriminate Hok; lia).
  exists c1, c2. split; [reflexivity|].
  destruct (parseInt16 _) as [v'|]; [|discriminate Hok; lia].
  f_equal. specialize (Hok ltac:(lia)). lia.
Qed.


Lemma channels_of_output (v1 v2 v3 : Z) :
  0 <= v1 <= 255 -> 0 <= v2 <= 255 -> 0 <= v3 <= 255 ->
  channels (String "#" (padStart2 (toString16 (Some v1))
                        +:+ padStart2 (toString16 (Some v2))
                        +:+ padStart2 (toString16 (Some v3))))
  = (Some v1, Some v2, Some v3).
Proof.
  intros H1 H2 H3.
  destruct (two_digits_at v1 H1) as (a1 & a2 & -> & Ha).
  destruct (two_digits_at v2 H2) as (b1 & b2 & -> & Hb).
  destruct (two_digits_at v3 H3) as (c1 & c2 & -> & Hc).
  unfold channels. cbn [replace_hash Ascii.eqb Bool.eqb].
  change (String a1 (String a2 EmptyString)
          +:+ String b1 (String b2 EmptyString)
          +:+ String c1 (String c2 EmptyString))
    with (String a1 (String a2 (String b1 (String b2
            (String c1 (String c2 EmptyString)))))).
  unfold js_substring. cbn [String.substring Nat.sub].
  rewrite Ha, Hb, Hc. reflexivity.
Qed.

(** The channels of the adjusted colour, for a colour without dark
    boost. *)
Lemma channels_adjusted (hexColor : string) (r g b x : Z) :
  channels hexColor = (Some r, Some g, Some b) ->
  0 <= r <= 255 -> 0 <= g <= 255 -> 0 <= b <= 255 ->
  PrimFloat.ltb (avgBrightness_of (Some r) (Some g) (Some b)) 100 = false ->
  1 <= x <= 100 ->
  channels (adjustColorForBrightness hexColor (float_of_Z x))
  = (shown r x, shown g x, shown b x).
Proof.
  intros Hch Hr Hg Hb Hboost Hx.
  destruct (decide (x = 100)) as [->|Hne].
  - change (adjustColorForBrightness hexColor (float_of_Z 100))
      with hexColor.
    exact Hch.
  - destruct (step_ok_at r x)
      as (Hne100 & vr & vr' & Hvr & _ & Hr1 & Hr2); [lia..|].
    destruct (step_ok_at g x)
      as (_ & vg & vg' & Hvg & _ & Hg1 & Hg2); [lia..|].
    destruct (step_ok_at b x)
      as (_ & vb & vb' & Hvb & _ & Hb1 & Hb2); [lia..|].
    unfold shown in *. replace (x =? 100) with false in * by lia.
    unfold adjustColorForBrightness. rewrite Hne100.
    change (PrimFloat.eqb BRIGHTNESS_SCALING_FACTOR 0) with false.
    cbn [orb]. rewrite Hch. unfold darkBoost_of. rewrite Hboost.
    fold (dimmed r x) (dimmed g x) (dimmed b x).
    rewrite Hvr, Hvg, Hvb. apply channels_of_output; lia.
Qed.

End Compensation.

Section CompensationClaims.
Import Player.

(** C7: take a colour [#rrggbb] on which the dark boost is not triggered
    (the test [avgBrightness < 100] of the function fails) and two
    brightness values [x <= y] of the range 1..100.  Then each channel of
    the colour adjusted for [x] is at most the same channel of the colour
    adjusted for [y]. *)
Theorem compensation_monotone (hexColor : string) (r g b x y : Z) :
  channels hexColor = (Some r, Some g, Some b) ->
  0 <= r <= 255 -> 0 <= g <= 255 -> 0 <= b <= 255 ->
  PrimFloat.ltb (avgBrightness_of (Some r) (Some g) (Some b)) 100 = false ->
  1 <= x -> x <= y -> y <= 100 ->
  channels_le
    (channels (adjustColorForBrightness hexColor (float_of_Z x)))
    (channels (adjustColorForBrightness hexColor (float_of_Z y))).
Proof.
  intros Hch Hr Hg Hb Hboost Hx Hxy Hy.
  rewrite (channels_adjusted hexColor r g b x) by (assumption || lia).
  rewrite (channels_adjusted hexColor r g b y) by (assumption || lia).
  replace y with (x + Z.of_nat (Z.to_nat (y - x))) by lia.
  destruct (shown_monotone r (Z.to_nat (y - x)) x)
    as (r1 & r2 & -> & -> & Hr1 & _); [lia..|].
  destruct (shown_monotone g (Z.to_nat (y - x)) x)
    as (g1 & g2 & -> & -> & Hg1 & _); [lia..|].
  destruct (shown_monotone b (Z.to_nat (y - x)) x)
    as (b1 & b2 & -> & -> & Hb1 & _); [lia..|].
  cbn. lia.
Qed.

Lemma compensation_monotone_witness :
  channels_le
    (channels (adjustColorForBrightness "#c08040" (float_of_Z 10)))
    (channels (adjustColorForBrightness "#c08040" (float_of_Z 60))).
Proof.
  apply (compensation_monotone "#c08040" 192 128 64 10 60);
    try (vm_compute; reflexivity); lia.
Defined.

(** With the dark boost in play the last step can go down: [#c80000]
    comes out as [#cd0000] at brightness 99 and as itself at 100. *)
Example dark_boost_drops_at_100 :
  adjustColorForBrightness "#c80000" (float_of_Z 99) = "#cd0000"%string /\
  adjustColorForBrightness "#c80000" (float_of_Z 100) = "#c80000"%string.
Proof. split; vm_compute; reflexivity. Qed.

End CompensationClaims.

(** * Further properties of the Transport *)

Section TransportMore.
Import Transport.

Lemma send_rows_keeps (rows : nat) :
  forall (row : Z) (src payload : list Z) (len : Z) (w : world),
    sock (send_rows rows row src payload len w).2 = sock w /\
    clock_reads (send_rows rows row src payload len w).2 = clock_reads w.
Proof.
  induction rows as [|rows IH]; intros row src payload len w; cbn [send_rows].
  - split; reflexivity.
  - destruct (convert_row _ _ _ _) as [src' payload'].
    destruct (IH (row + 1) src' payload' len
                 (emit (EvSend (send_row (sock w) payload' len)) w))
      as [Hs Hc].
    rewrite Hs, Hc. split; reflexivity.
Qed.

Lemma yields_frame_shape (io : pipeline_result) :
  yields_frame io = true ->
  exists key frame more rr,
    io = PipelineOk (Some (REDIS_REPLY_ARRAY
                             (key :: REDIS_REPLY_STRING frame :: more))) rr /\
    Z.of_nat (length frame) = SIGN_WIDTH * SIGN_HEIGHT * BYTES_PER_PIXEL.
Proof.
  intros Hy. destruct io as [|[[ | [|key [|[frame| | | | |] more]] | | | | ]|] rr];
    try discriminate Hy.
  exists key, frame, more, rr. split; [reflexivity|].
  cbn in Hy. lia.
Qed.

(** The brightness the reply leaves in [socket.c]. *)
Lemma apply_brightness_mac (rr : option redisReply) (s : socket_state) :
  src_mac (apply_brightness rr s) = src_mac s.
Proof.
  unfold apply_brightness. destruct rr as [[str| | | | |]|]; try reflexivity.
  destruct (_ && _); reflexivity.
Qed.

(** A pass that is handed no frame of the right size. *)
Lemma process_without_frame (io : pipeline_result) (payload : list Z)
    (len : Z) (w : world) :
  handled_reply io = true ->
  yields_frame io = false ->
  exists w' evs,
    process_and_send_frame io payload len w = Some (-1, payload, w') /\
    sock w' = match io with
              | PipelineFailed => sock w
              | PipelineOk _ rr => apply_brightness rr (sock w)
              end /\
    clock_reads w' = clock_reads w /\
    events w' = events w ++ evs /\
    (evs = [] \/ evs = [EvStderr]).
Proof.
  intros Hh Hy.
  destruct io as [|[[ | [|key [|[frame| | | | |] more]] | | | | ]|] rr];
    try discriminate Hh; cbn [process_and_send_frame].
  - exists w, []. rewrite app_nil_r. repeat split; auto.
  - cbn in Hy. rewrite Hy. cbn [negb].
    eexists _, [EvStderr]. split; [reflexivity|]. cbn. repeat split; auto.
  - eexists _, []. split; [reflexivity|]. cbn. rewrite app_nil_r.
    repeat split; auto.
  - eexists _, []. split; [reflexivity|]. cbn. rewrite app_nil_r.
    repeat split; auto.
Qed.


(** ** The socket layer *)

Lemma low_byte (x : Z) : Z.land x 0xFF = x mod 256.
Proof. change 0xFF with (Z.ones 8). rewrite Z.land_ones by lia. reflexivity. Qed.

(** X1: [encode_mac] writes six bytes, most significant first, that hold
    the low 48 bits of the address: reading them back as a big-endian
    number gives the address modulo 2^48. *)
Theorem encode_mac_round_trip (mac : Z) :
  length (encode_mac mac) = 6%nat /\
  Forall (fun b => 0 <= b <= 255) (encode_mac mac) /\
  decode_mac (encode_mac mac) = mac mod 2 ^ 48.
Proof.
  unfold encode_mac, decode_mac. cbn [foldl length].
  rewrite !low_byte, !Z.shiftr_div_pow2 by lia.
  split; [reflexivity|split].
  - repeat (apply Forall_cons; split;
            [match goal with
             | |- 0 <= ?x mod 256 <= 255 =>
                 pose proof (Z.mod_pos_bound x 256); lia
             end|]).

    constructor.
  - change (2 ^ 8) with 256. change (2 ^ 16) with 65536.
    change (2 ^ 24) with 16777216. change (2 ^ 32) with 4294967296.
    change (2 ^ 40) with 1099511627776.
    change (2 ^ 48) with 281474976710656.
    Z.div_mod_to_equations. lia.
Qed.

(** X2: for a length [len] that is not negative (and small enough for
    the addition of 14 not to overflow an [int]) and data that holds the
    bytes to be copied, the frame [send_socket] builds fits [sendbuf]: the
    payload is the first [len] bytes of the data, cut at [BUF_SIZ] minus
    the 14 header bytes; the destination is 11:22:33:44:55:66, the source
    bytes are [encode_mac] of the static [src_mac], and the two type bytes
    spell the low 16 bits of the EtherType asked for. *)
Theorem send_socket_fits_sendbuf (s : socket_state) (ty : Z)
    (data : list Z) (len : Z) :
  0 <= len <= 2 ^ 31 - 1 - ETHER_HEADER_SIZE ->
  Z.min len (BUF_SIZ - ETHER_HEADER_SIZE) <= Z.of_nat (length data) ->
  let f := send_socket s ty data len in
  ether_dhost f = [0x11; 0x22; 0x33; 0x44; 0x55; 0x66] /\
  ether_shost f = encode_mac (src_mac s) /\
  ether_type f = ty mod 2 ^ 16 /\
  eth_payload f
    = take (Z.to_nat (Z.min len (BUF_SIZ - ETHER_HEADER_SIZE))) data /\
  Z.of_nat (length (eth_payload f))
    = Z.min len (BUF_SIZ - ETHER_HEADER_SIZE) /\
  Z.of_nat (length (eth_payload f)) + ETHER_HEADER_SIZE <= BUF_SIZ.
Proof.
  intros Hlen Hdata f. unfold f, send_socket.
  cbn [ether_dhost ether_shost ether_type eth_payload].
  unfold BUF_SIZ, ETHER_HEADER_SIZE in *.
  split; [reflexivity|]. split; [reflexivity|]. split; [reflexivity|].
  destruct (1540 <? len + 14) eqn:Hbig.
  - replace (Z.min len (1540 - 14)) with (1540 - 14) in * by lia.
    split; [reflexivity|]. rewrite length_take. lia.
  - replace (Z.min len (1540 - 14)) with len in * by lia.
    split; [reflexivity|]. rewrite length_take. lia.
Qed.

Lemma send_socket_fits_sendbuf_witness :
  let f := send_socket (initial_socket 0x0000665544332211) 0x15500
                       (replicate 2000 7) 1600 in
  ether_dhost f = [0x11; 0x22; 0x33; 0x44; 0x55; 0x66] /\
  ether_shost f = encode_mac 0x0000665544332211 /\
  ether_type f = 0x15500 mod 2 ^ 16 /\
  eth_payload f
    = take (Z.to_nat (Z.min 1600 (BUF_SIZ - ETHER_HEADER_SIZE)))
           (replicate 2000 7) /\
  Z.of_nat (length (eth_payload f))
    = Z.min 1600 (BUF_SIZ - ETHER_HEADER_SIZE) /\
  Z.of_nat (length (eth_payload f)) + ETHER_HEADER_SIZE <= BUF_SIZ.
Proof.
  apply (send_socket_fits_sendbuf (initial_socket 0x0000665544332211)
           0x15500 (replicate 2000 7) 1600); vm_compute;
    try split; discriminate.
Defined.

(** X26: the source address on the wire is not the address of the NIC.
    [open_socket] copies the six bytes of the hardware address into the
    first bytes of a 64-bit integer, and [encode_mac] writes that integer
    most significant byte first: on a little-endian host every frame
    carries the hardware address in reverse byte order, and on a
    big-endian host its last four bytes followed by two zero bytes. *)
Theorem source_address_on_the_wire (sa_data : list Z) (ty : Z)
    (data : list Z) (len : Z) :
  length sa_data = 6%nat ->
  Forall (fun b => 0 <= b <= 255) sa_data ->
  ether_shost (send_socket (open_socket LittleEndian sa_data) ty data len)
    = rev sa_data /\
  ether_shost (send_socket (open_socket BigEndian sa_data) ty data len)
    = drop 2 sa_data ++ [0; 0].
Proof.
  intros Hlen Hbytes.
  destruct sa_data as [|a0 [|a1 [|a2 [|a3 [|a4 [|a5 [|]]]]]]]; try discriminate.
  repeat match goal with
         | H : Forall _ (_ :: _) |- _ =>
             apply Forall_cons_1 in H; destruct H as [? H]
         end.
  unfold send_socket, open_socket, initial_socket, memcpy_uint64, encode_mac.
  cbn [ether_shost src_mac take foldr foldl length rev app drop].
  rewrite !low_byte, !Z.shiftr_div_pow2 by lia.
  change (Z.of_nat 6) with 6. change (256 ^ (8 - 6)) with 65536.
  change (2 ^ 8) with 256. change (2 ^ 16) with 65536.
  change (2 ^ 24) with 16777216. change (2 ^ 32) with 4294967296.
  change (2 ^ 40) with 1099511627776.
  split; repeat f_equal; Z.div_mod_to_equations; lia.
Qed.

Lemma source_address_on_the_wire_witness :
  ether_shost (send_socket
                 (open_socket LittleEndian [0xB8; 0x27; 0xEB; 0x12; 0x34; 0x56])
                 ROW_ETHER_TYPE [] 0)
    = rev [0xB8; 0x27; 0xEB; 0x12; 0x34; 0x56] /\
  ether_shost (send_socket
                 (open_socket BigEndian [0xB8; 0x27; 0xEB; 0x12; 0x34; 0x56])
                 ROW_ETHER_TYPE [] 0)
    = drop 2 [0xB8; 0x27; 0xEB; 0x12; 0x34; 0x56] ++ [0; 0].
Proof.
  apply (source_address_on_the_wire [0xB8; 0x27; 0xEB; 0x12; 0x34; 0x56]);
    [reflexivity|repeat constructor; lia].
Defined.

Lemma set_brightness_clamps (v : Z) (s : socket_state) :
  current_brightness (set_brightness v s) = Z.max 0 (Z.min 255 v).
Proof.
  unfold set_brightness. cbn.
  destruct (v <? 0) eqn:Hlo; destruct (255 <? v) eqn:Hhi; cbn; lia.
Qed.

(** X3: [set_brightness] clamps: after any history of calls,
    [set_brightness v] followed by [send_frame] puts [v] clamped into
    0..255 at the four brightness offsets of the commit packet. *)
Theorem set_brightness_then_commit (mac : Z) (calls : list socket_call)
    (v : Z) :
  let s := set_brightness v (foldl call (initial_socket mac) calls) in
  let b := Z.max 0 (Z.min 255 v) in
  current_brightness s = b /\
  eth_payload (send_frame s).2
    = replicate 21 0 ++ [b; 5; 0; b; b; b] ++ replicate 71 0.
Proof.
  intros s b. assert (Hb : current_brightness s = b) by apply set_brightness_clamps.
  split; [exact Hb|].
  assert (Hinv : socket_inv s).
  { apply (call_inv _ (CallSetBrightness v)), calls_inv, initial_socket_inv. }
  destruct (send_frame_template s (proj1 Hinv)) as [_ Hpay].
  cbv zeta in Hpay. rewrite Hb in Hpay. unfold to_uint8 in Hpay.
  rewrite Z.mod_small in Hpay by lia. exact Hpay.
Qed.

Lemma atoi_digits_no_digit (s : list Z) :
  forallb (fun c => negb (is_digit c)) s = true -> atoi_digits 0 s = 0.
Proof.
  destruct s as [|c s]; [reflexivity|]. cbn. intros Hc.
  apply andb_prop in Hc as [Hc _]. destruct (is_digit c); [discriminate|reflexivity].
Qed.

Lemma decimal_prefix_no_digit (s : list Z) :
  forallb (fun c => negb (is_digit c)) s = true -> decimal_prefix s = 0.
Proof.
  induction s as [|c s IH]; [reflexivity|]. intros Hall.
  pose proof (atoi_digits_no_digit (c :: s) Hall) as Hhere.
  cbn [forallb] in Hall. apply andb_prop in Hall as [Hc Hs].
  cbn [decimal_prefix]. destruct (is_space c); [auto|].
  rewrite (atoi_digits_no_digit s Hs), Hhere.
  destruct (c =? 45); [reflexivity|]. destruct (c =? 43); reflexivity.
Qed.

Lemma atoi_no_digit (s : list Z) :
  forallb (fun c => negb (is_digit c)) s = true -> atoi s = 0.
Proof.
  intros Hall. unfold atoi, strtol.
  rewrite (decimal_prefix_no_digit s Hall). reflexivity.
Qed.

(** X4: a brightness reply without a single decimal digit (an empty
    string, a word) is read as 0 by [atoi], which is in range: the
    hardware brightness becomes 0. *)
Theorem brightness_without_digits (str : list Z) (s : socket_state) :
  forallb (fun c => negb (is_digit c)) str = true ->
  current_brightness (apply_brightness (Some (REDIS_REPLY_STRING str)) s) = 0.
Proof.
  intros Hall. rewrite apply_brightness_value, (atoi_no_digit str Hall).
  reflexivity.
Qed.

Lemma brightness_without_digits_witness :
  current_brightness
    (apply_brightness (Some (REDIS_REPLY_STRING (c_string "auto")))
                      (set_brightness 200 (initial_socket 0))) = 0.
Proof.
  apply (brightness_without_digits (c_string "auto")). vm_compute. reflexivity.
Defined.

(** X5: [connect_to_redis] returns the first usable context when the
    attempts before it failed for want of memory: each of them is logged
    and then followed by a sleep of one second, and as long as attempts
    give [NULL] the loop goes on.  An attempt that gives a context with
    its error flag set is logged, the context is freed, the loop sleeps
    one second, and its condition then reads the freed context. *)
Theorem connect_retries_until_connected (n : nat) (c : nat)
    (later : list connect_result) :
  connect_to_redis (replicate n ConnectNull ++ ConnectOk c :: later)
    = Some (Connected c,
            mjoin (replicate n [LogAllocationError; ConnectSleep 1])) /\
  connect_to_redis (replicate n ConnectNull ++ ConnectError :: later)
    = Some (ReadsFreedContext,
            mjoin (replicate n [LogAllocationError; ConnectSleep 1])
            ++ [LogConnectionError; ConnectFree; ConnectSleep 1]) /\
  connect_to_redis (replicate n ConnectNull) = None.
Proof.
  induction n as [|n (Hok & Herr & Hnull)]; [repeat split|].
  cbn [replicate app connect_to_redis]. rewrite Hok, Herr, Hnull.
  repeat split.
Qed.

(** Two failed allocations, then a connection. *)
Example third_attempt_connects :
  connect_to_redis [ConnectNull; ConnectNull; ConnectOk 7; ConnectError]
  = Some (Connected 7%nat,
          [LogAllocationError; ConnectSleep 1;
           LogAllocationError; ConnectSleep 1]).
Proof. reflexivity. Qed.

End TransportMore.

(** ** The main loop of the Transport *)

Section TransportLoop.
Import Transport.


Lemma reports_app (a b : list event) : reports (a ++ b) = (reports a + reports b)%nat.
Proof. unfold reports. rewrite List.filter_app, length_app. reflexivity. Qed.

Lemma reports_clock (evs : list event) (now : timespec) :
  reports (evs ++ [EvClock now]) = reports evs.
Proof. rewrite reports_app. cbn. lia. Qed.

Lemma reports_sends {A : Type} (g : A -> eth_frame) (l : list A) :
  reports (map (fun a => EvSend (g a)) l) = 0%nat.
Proof. induction l as [|a l IH]; [reflexivity|exact IH]. Qed.

Lemma wait_deadline_silent (clock : nat -> timespec) (ss : timespec) (fuel : nat) :
  forall (elapsed : float) (w w' : world),
    wait_deadline clock fuel ss elapsed w = Some w' ->
    reports (events w') = reports (events w).
Proof.
  induction fuel as [|fuel IH]; intros elapsed w w' Hrun;
    cbn [wait_deadline] in Hrun.
  - destruct (PrimFloat.ltb elapsed FPS_SLEEP); [discriminate|].
    injection Hrun as <-. reflexivity.
  - destruct (PrimFloat.ltb elapsed FPS_SLEEP);
      [|injection Hrun as <-; reflexivity].
    apply IH in Hrun. cbn [clock_gettime sock events] in Hrun.
    rewrite reports_clock in Hrun.
    destruct (PrimFloat.ltb SLEEP_THRESHOLD_S _); [|exact Hrun].
    destruct (0 <? _); [|exact Hrun].
    cbn [emit events] in Hrun. rewrite reports_app in Hrun.
    cbn in Hrun. lia.
Qed.

(** A pass that is handed a frame of the right size, once it has
    returned. *)
Lemma pass_with_frame (clock : nat -> timespec) (fuel : nat)
    (io : pipeline_result) (interrupted : bool) (st st' : main_state) :
  yields_frame io = true ->
  length (payload_buf st) = 967%nat ->
  main_iteration clock fuel io interrupted st = Some st' ->
  exists rr bufs,
    let s1 := apply_brightness rr (sock (the_world st)) in
    let wrap := (sends st + 1) mod FPS =? 0 in
    length bufs = 64%nat /\
    Forall (fun buf => length buf = 967%nat) bufs /\
    sent (events (the_world st'))
      = sent (events (the_world st))
        ++ map (fun buf => send_row s1 buf 967) bufs ++ [(send_frame s1).2] /\
    sock (the_world st') = (send_frame s1).1 /\
    length (payload_buf st') = 967%nat /\
    sends st' = (if wrap then 0 else sends st + 1) /\
    reports (events (the_world st'))
      = (reports (events (the_world st)) + if wrap then 1 else 0)%nat.
Proof.
  intros Hy Hbuf Hrun.
  destruct (yields_frame_shape io Hy) as (key & frame & more & rr & -> & Hframe).
  destruct (process_valid_frame key frame more rr (payload_buf st)
              (the_world st) Hframe Hbuf)
    as (payload' & bufs & Hproc & Hpl & Hn & Hrows).
  unfold main_iteration in Hrun. rewrite Hproc in Hrun.
  cbn [Z.eqb negb clock_gettime] in Hrun.
  set (s1 := apply_brightness rr (sock (the_world st))) in *.
  match type of Hrun with
  | match wait_deadline _ _ _ ?e ?w with _ => _ end = _ =>
      destruct (wait_deadline clock fuel (send_started st) e w)
        as [w2|] eqn:Hwait; [|discriminate]
  end.
  pose proof (wait_deadline_keeps _ _ _ _ _ _ Hwait) as [Hsock Hsent].
  pose proof (wait_deadline_silent _ _ _ _ _ _ Hwait) as Hrep.
  cbn [sock events add_events with_sock] in Hsock, Hsent, Hrep.
  rewrite sent_clock in Hsent. rewrite reports_clock in Hrep.
  exists rr, bufs. cbv zeta. fold s1.
  assert (Hlens : Forall (fun buf => length buf = 967%nat) bufs).
  { apply Forall_lookup. intros i buf Hi. apply (Hrows i buf Hi). }
  assert (Hrows_sent :
            sent (events (the_world st)
                  ++ map (fun buf => EvSend (send_row s1 buf 967)) bufs)
            = sent (events (the_world st))
              ++ map (fun buf => send_row s1 buf 967) bufs).
  { rewrite sent_app. f_equal.
    rewrite <- (sent_sends (map _ bufs)), map_map. reflexivity. }
  assert (Hrows_rep :
            reports (events (the_world st)
                     ++ map (fun buf => EvSend (send_row s1 buf 967)) bufs)
            = reports (events (the_world st))).
  { rewrite reports_app, reports_sends. lia. }
  rewrite Hrows_sent in Hsent. rewrite Hrows_rep in Hrep.
  rewrite Hsock in Hrun.
  destruct ((sends st + 1) mod FPS =? 0); injection Hrun as <-;
    cbn [the_world payload_buf sends sock events emit with_sock clock_gettime
         fst snd];
    rewrite ?sent_app, ?reports_app, ?Hsent, ?Hrep; cbn;
    rewrite ?app_nil_r, <- ?app_assoc;
    repeat split; try assumption; try reflexivity; try lia.
Qed.

Lemma process_returns_handled (io : pipeline_result) (payload : list Z)
    (len : Z) (w : world) :
  process_and_send_frame io payload len w <> None -> handled_reply io = true.
Proof.
  intros Hsome.
  destruct io as [|[[ | [|key [|[frame| | | | |] more]] | | | | ]|] rr];
    try reflexivity; cbn in Hsome; congruence.
Qed.

(** A pass without a frame: what [main_iteration] returns. *)
Lemma pass_without_frame (clock : nat -> timespec) (fuel : nat)
    (io : pipeline_result) (interrupted : bool) (st : main_state) :
  handled_reply io = true ->
  yields_frame io = false ->
  exists w' evs,
    main_iteration clock fuel io interrupted st
      = Some {| the_world := w'; payload_buf := payload_buf st;
                sends := sends st; start_time := start_time st;
                send_started := send_started st |} /\
    sock w' = match io with
              | PipelineFailed => sock (the_world st)
              | PipelineOk _ rr => apply_brightness rr (sock (the_world st))
              end /\
    clock_reads w' = clock_reads (the_world st) /\
    events w' = events (the_world st) ++ evs ++
                (if interrupted then [] else [EvUsleep 100]) /\
    (evs = [] \/ evs = [EvStderr]).
Proof.
  intros Hh Hy.
  destruct (process_without_frame io (payload_buf st) payload_length
              (the_world st) Hh Hy)
    as (w1 & evs & Hproc & Hsock & Hclock & Hevs & Hshape).
  unfold main_iteration. rewrite Hproc. cbn [Z.eqb negb].
  eexists _, evs. split; [reflexivity|].
  destruct interrupted; cbn [emit sock clock_reads events];
    rewrite ?app_nil_r, ?Hevs, <- ?app_assoc; auto.
Qed.

Lemma sent_quiet (evs : list event) (interrupted : bool) :
  evs = [] \/ evs = [EvStderr] ->
  sent (evs ++ (if interrupted then [] else [EvUsleep 100])) = [].
Proof. intros [-> | ->]; destruct interrupted; reflexivity. Qed.

(** X6: a pass that gets no frame to show (the pipeline failed, [BLPOP]
    timed out, or the frame has the wrong size) sends nothing, neither
    rows nor a commit; it reads no clock and leaves the frame-start
    timestamp, the counters and the row buffer as they were, so the next
    frame is not delayed.  The brightness reply that came with it is
    applied all the same. *)
Theorem no_frame_no_commit (clock : nat -> timespec) (fuel : nat)
    (io : pipeline_result) (interrupted : bool) (st : main_state) :
  handled_reply io = true ->
  yields_frame io = false ->
  exists st',
    main_iteration clock fuel io interrupted st = Some st' /\
    sent (events (the_world st')) = sent (events (the_world st)) /\
    send_started st' = send_started st /\
    start_time st' = start_time st /\
    sends st' = sends st /\
    payload_buf st' = payload_buf st /\
    clock_reads (the_world st') = clock_reads (the_world st) /\
    sock (the_world st')
      = match io with
        | PipelineFailed => sock (the_world st)
        | PipelineOk _ rr => apply_brightness rr (sock (the_world st))
        end.
Proof.
  intros Hh Hy.
  destruct (pass_without_frame clock fuel io interrupted st Hh Hy)
    as (w' & evs & Hrun & Hsock & Hclock & Hevs & Hshape).
  eexists. split; [exact Hrun|]. cbn [the_world send_started start_time sends
                                     payload_buf].
  rewrite Hevs, sent_app, (sent_quiet evs interrupted Hshape), app_nil_r.
  repeat split; assumption.
Qed.

Lemma no_frame_no_commit_witness :
  let st := fresh_main_state seconds_clock 0 in
  exists st',
    main_iteration seconds_clock 0
      (PipelineOk (Some REDIS_REPLY_NIL)
                  (Some (REDIS_REPLY_STRING (c_string "42")))) false st
      = Some st' /\
    sent (events (the_world st')) = sent (events (the_world st)) /\
    send_started st' = send_started st /\
    start_time st' = start_time st /\
    sends st' = sends st /\
    payload_buf st' = payload_buf st /\
    clock_reads (the_world st') = clock_reads (the_world st) /\
    sock (the_world st')
      = apply_brightness (Some (REDIS_REPLY_STRING (c_string "42")))
                         (sock (the_world st)).
Proof.
  intros st.
  apply (no_frame_no_commit seconds_clock 0
           (PipelineOk (Some REDIS_REPLY_NIL)
                       (Some (REDIS_REPLY_STRING (c_string "42"))))
           false st); reflexivity.
Defined.

Lemma wire_frame_row (s : socket_state) (buf : list Z) :
  length buf = 967%nat -> wire_frame (src_mac s) (send_row s buf 967).
Proof.
  intros Hlen. destruct (send_row_exact s buf Hlen) as [Hty Hpay].
  split; [reflexivity|]. split; [reflexivity|]. left.
  rewrite Hpay. split; assumption.
Qed.

Lemma wire_frame_commit (s : socket_state) :
  socket_inv s -> wire_frame (src_mac s) (send_frame s).2.
Proof.
  intros [Hshape _]. destruct (send_frame_template s Hshape) as [_ Hpay].
  split; [reflexivity|]. split; [reflexivity|]. right.
  split; [reflexivity|]. rewrite Hpay. reflexivity.
Qed.


Lemma commits_app (a b : list eth_frame) : commits (a ++ b) = (commits a + commits b)%nat.
Proof. unfold commits. rewrite List.filter_app, length_app. reflexivity. Qed.

Lemma row_packets_app (a b : list eth_frame) :
  row_packets (a ++ b) = (row_packets a + row_packets b)%nat.
Proof. unfold row_packets. rewrite List.filter_app, length_app. reflexivity. Qed.

Lemma count_rows (s : socket_state) (bufs : list (list Z)) :
  commits (map (fun buf => send_row s buf 967) bufs) = 0%nat /\
  row_packets (map (fun buf => send_row s buf 967) bufs) = length bufs.
Proof.
  induction bufs as [|buf bufs [IHc IHr]]; [split; reflexivity|].
  unfold commits, row_packets in *. cbn [map List.filter].
  change (is_commit (send_row s buf 967)) with false.
  change (is_row (send_row s buf 967)) with true.
  cbn [length]. split; [exact IHc|]. rewrite IHr. reflexivity.
Qed.

(** One pass: what it adds to the wire. *)
Lemma pass_adds (clock : nat -> timespec) (fuel : nat)
    (io : pipeline_result) (interrupted : bool) (st st' : main_state) :
  main_inv st ->
  main_iteration clock fuel io interrupted st = Some st' ->
  main_inv st' /\
  src_mac (sock (the_world st')) = src_mac (sock (the_world st)) /\
  exists new,
    sent (events (the_world st')) = sent (events (the_world st)) ++ new /\
    Forall (wire_frame (src_mac (sock (the_world st)))) new /\
    commits new = (if yields_frame io then 1 else 0)%nat /\
    row_packets new = (if yields_frame io then 64 else 0)%nat.
Proof.
  intros [Hbuf Hsock] Hrun.
  destruct (yields_frame io) eqn:Hy.
  - destruct (pass_with_frame clock fuel io interrupted st st' Hy Hbuf Hrun)
      as (rr & bufs & Hn & Hlens & Hsent & Hsock' & Hbuf' & _).
    cbv zeta in Hsent, Hsock'.
    set (s1 := apply_brightness rr (sock (the_world st))) in *.
    assert (Hinv1 : socket_inv s1) by (apply apply_brightness_inv, Hsock).
    assert (Hmac1 : src_mac s1 = src_mac (sock (the_world st)))
      by apply apply_brightness_mac.
    split; [split; [exact Hbuf'|]|split].
    + rewrite Hsock'. apply (call_inv s1 CallSendFrame), Hinv1.
    + rewrite Hsock'. exact Hmac1.
    + eexists. split; [exact Hsent|]. split; [|split].
      * apply Forall_app. split.
        -- apply Forall_fmap. eapply Forall_impl; [exact Hlens|].
           intros buf Hlen. cbn. rewrite <- Hmac1.
           apply wire_frame_row, Hlen.
        -- constructor; [|constructor]. rewrite <- Hmac1.
           apply wire_frame_commit, Hinv1.
      * rewrite commits_app, (proj1 (count_rows s1 bufs)). reflexivity.
      * rewrite row_packets_app, (proj2 (count_rows s1 bufs)), Hn.
        reflexivity.
  - assert (Hh : handled_reply io = true).
    { apply (process_returns_handled io (payload_buf st) payload_length
               (the_world st)).
      unfold main_iteration in Hrun.
      destruct (process_and_send_frame _ _ _ _); [discriminate|discriminate Hrun]. }
    destruct (pass_without_frame clock fuel io interrupted st Hh Hy)
      as (w' & evs & Hrun' & Hsock' & Hclock & Hevs & Hshape).
    rewrite Hrun' in Hrun. injection Hrun as <-.
    cbn [the_world payload_buf].
    assert (Hs : socket_inv (sock w') /\
                 src_mac (sock w') = src_mac (sock (the_world st))).
    { rewrite Hsock'. destruct io as [|rb rr]; [split; [exact Hsock|reflexivity]|].
      split; [apply apply_brightness_inv, Hsock|apply apply_brightness_mac]. }
    split; [split; [exact Hbuf|apply Hs]|split; [apply Hs|]].
    exists []. rewrite Hevs, sent_app, (sent_quiet evs interrupted Hshape).
    repeat split. constructor.
Qed.


(** A pass with a frame returns once the clock is past the deadline. *)
Lemma pass_returns (clock : nat -> timespec) (st : main_state)
    (io : pipeline_result) (interrupted : bool) (n : nat) :
  yields_frame io = true ->
  length (payload_buf st) = 967%nat ->
  PrimFloat.ltb
    (get_time_diff (send_started st)
                   (clock (clock_reads (the_world st) + n)%nat))
    FPS_SLEEP = false ->
  exists st', forall fuel, (n <= fuel)%nat ->
    main_iteration clock fuel io interrupted st = Some st'.
Proof.
  intros Hy Hbuf Hpast.
  destruct (yields_frame_shape io Hy) as (key & frame & more & rr & -> & Hframe).
  destruct (process_valid_frame key frame more rr (payload_buf st)
              (the_world st) Hframe Hbuf)
    as (payload' & bufs & Hproc & _).
  match type of Hproc with
  | _ = Some (_, _, ?w) => set (w1 := w) in *
  end.
  destruct (wait_from_now clock (send_started st) n w1 Hpast)
    as (w2 & Hwait & _).
  unfold main_iteration. rewrite Hproc. cbn [Z.eqb negb].
  destruct ((sends st + 1) mod FPS =? 0) eqn:Hwrap; eexists; intros fuel Hfuel;
    specialize (Hwait fuel Hfuel);
    unfold clock_gettime at 1; unfold clock_gettime at 1 2 in Hwait;
    cbn [fst snd] in Hwait; rewrite Hwait; reflexivity.
Qed.

(** X7: the frame counter of [main]: it starts at 0 and a pass that shows
    a frame moves it to the next value modulo 240, so it stays in 0..239;
    the FPS line is printed by exactly the passes that bring it back to
    0, once per 240 frames shown. *)
Theorem fps_report_every_240 (clock : nat -> timespec) (fuel : nat)
    (io : pipeline_result) (interrupted : bool) (st st' : main_state) :
  yields_frame io = true ->
  length (payload_buf st) = 967%nat ->
  0 <= sends st < FPS ->
  main_iteration clock fuel io interrupted st = Some st' ->
  sends st' = (sends st + 1) mod FPS /\
  0 <= sends st' < FPS /\
  reports (events (the_world st'))
    = (reports (events (the_world st))
       + if (sends st =? FPS - 1)%Z then 1 else 0)%nat.
Proof.
  intros Hy Hbuf Hsends Hrun.
  destruct (pass_with_frame clock fuel io interrupted st st' Hy Hbuf Hrun)
    as (rr & bufs & _ & _ & _ & _ & _ & Hs & Hrep).
  cbv zeta in Hs, Hrep. unfold FPS in *.
  destruct (sends st =? 240 - 1) eqn:Hlast.
  - assert (Hw : (sends st + 1) mod 240 = 0).
    { replace (sends st) with 239 by lia. reflexivity. }
    rewrite Hw in Hs, Hrep |- *. cbn in Hs, Hrep. lia.
  - assert (Hw : (sends st + 1) mod 240 = sends st + 1)
      by (apply Z.mod_small; lia).
    rewrite Hw in Hs, Hrep |- *.
    replace (sends st + 1 =? 0) with false in * by lia. lia.
Qed.

Lemma fps_report_every_240_witness :
  let st := fresh_main_state seconds_clock 0 in
  let io := PipelineOk (blpop_reply black_frame) None in
  exists st',
    main_iteration seconds_clock 1 io false st = Some st' /\
    sends st' = (sends st + 1) mod FPS /\
    0 <= sends st' < FPS /\
    reports (events (the_world st'))
      = (reports (events (the_world st))
         + if (sends st =? FPS - 1)%Z then 1 else 0)%nat.
Proof.
  intros st io.
  assert (Hy : yields_frame io = true) by (vm_compute; reflexivity).
  assert (Hbuf : length (payload_buf st) = 967%nat) by (vm_compute; reflexivity).
  destruct (pass_returns seconds_clock st io false 1 Hy Hbuf) as [st' Hrun].
  { vm_compute. reflexivity. }
  exists st'. split; [apply Hrun; lia|].
  apply (fps_report_every_240 seconds_clock 1 io false st st' Hy Hbuf).
  - vm_compute. split; [discriminate|reflexivity].
  - apply Hrun. lia.
Defined.

(** X8: over any number of passes of the main loop that return (their
    replies are of the shapes the code checks for, see [handled_reply],
    and the clock gets past each deadline): every frame put on the wire
    goes to 11:22:33:44:55:66, carries [encode_mac] of the static
    [src_mac] as its source and is a 967-byte row packet or the 98-byte
    commit; there is one commit per frame of the right size received and
    64 row packets per commit, no more. *)
Theorem run_sends_whole_frames (clock : nat -> timespec) (fuel : nat)
    (passes : list (pipeline_result * bool)) :
  forall st st' : main_state,
    main_inv st ->
    main_run clock fuel passes st = Some st' ->
    main_inv st' /\
    exists new,
      sent (events (the_world st')) = sent (events (the_world st)) ++ new /\
      Forall (wire_frame (src_mac (sock (the_world st)))) new /\
      commits new = valid_frames passes /\
      row_packets new = (64 * valid_frames passes)%nat.
Proof.
  induction passes as [|[io interrupted] passes IH]; intros st st' Hinv Hrun.
  - injection Hrun as <-. split; [exact Hinv|].
    exists []. rewrite app_nil_r. repeat split. constructor.
  - cbn [main_run] in Hrun.
    destruct (main_iteration clock fuel io interrupted st) as [st1|] eqn:Hpass;
      [|discriminate].
    destruct (pass_adds clock fuel io interrupted st st1 Hinv Hpass)
      as (Hinv1 & Hmac & new1 & Hsent1 & Hwire1 & Hc1 & Hr1).
    destruct (IH st1 st' Hinv1 Hrun) as (Hinv' & new2 & Hsent2 & Hwire2 & Hc2 & Hr2).
    split; [exact Hinv'|]. exists (new1 ++ new2).
    rewrite Hsent2, Hsent1, <- app_assoc. split; [reflexivity|].
    rewrite Hmac in Hwire2. split; [apply Forall_app; split; assumption|].
    rewrite commits_app, row_packets_app, Hc1, Hc2, Hr1, Hr2.
    unfold valid_frames. cbn [List.filter fst].
    destruct (yields_frame io); cbn [length]; lia.
Qed.

Lemma run_sends_whole_frames_witness :
  let st := fresh_main_state seconds_clock 0 in
  let passes := [(PipelineOk (blpop_reply black_frame) None, false)] in
  exists st',
    main_run seconds_clock 1 passes st = Some st' /\
    main_inv st' /\
    exists new,
      sent (events (the_world st')) = sent (events (the_world st)) ++ new /\
      Forall (wire_frame (src_mac (sock (the_world st)))) new /\
      commits new = valid_frames passes /\
      row_packets new = (64 * valid_frames passes)%nat.
Proof.
  intros st passes.
  assert (Hinv : main_inv st).
  { split; [vm_compute; reflexivity|apply initial_socket_inv]. }
  destruct (pass_returns seconds_clock st
              (PipelineOk (blpop_reply black_frame) None) false 1)
    as [st' Hrun]; [vm_compute; reflexivity..|].
  assert (Hmain : main_run seconds_clock 1 passes st = Some st').
  { unfold passes. cbn [main_run]. rewrite (Hrun 1%nat) by lia. reflexivity. }
  exists st'. split; [exact Hmain|].
  exact (run_sends_whole_frames seconds_clock 1 passes st st' Hinv Hmain).
Defined.

Lemma row_buffer_unique (src : list Z) (row : Z) (b1 b2 : list Z) :
  row_buffer src row b1 -> row_buffer src row b2 -> b1 = b2.
Proof.
  intros (Hl1 & Hh1 & Hp1) (Hl2 & Hh2 & Hp2). apply list_eq. intros i.
  destruct (decide (i < 7)%nat) as [Hlo|Hlo].
  - rewrite <- (lookup_take_lt b1 7 i), <- (lookup_take_lt b2 7 i) by lia.
    rewrite Hh1, Hh2. reflexivity.
  - destruct (decide (i < 967)%nat) as [Hhi|Hhi].
    + pose proof (Nat.div_mod_eq (i - 7) 3) as Hdm.
      pose proof (Nat.mod_upper_bound (i - 7) 3) as Hm.
      set (c := ((i - 7) / 3)%nat) in *. set (k := ((i - 7) mod 3)%nat) in *.
      destruct (Hp1 c) as (A2 & A1 & A0); [lia|].
      destruct (Hp2 c) as (B2 & B1 & B0); [lia|].
      destruct k as [|[|[|k']]] eqn:Hk; [| | |lia].
      * replace i with (7 + 3 * c)%nat by lia. congruence.
      * replace i with (7 + 3 * c + 1)%nat by lia. congruence.
      * replace i with (7 + 3 * c + 2)%nat by lia. congruence.
    + rewrite !lookup_ge_None_2 by lia. reflexivity.
Qed.

(** X9: the row packets of a frame do not depend on what the reusable row
    buffer held before: with two buffers of the allocated length the same
    frame gives the same return value and the same packets on the wire. *)
Theorem rows_ignore_old_buffer (key : redisReply) (frame : list Z)
    (more : list redisReply) (rr_brightness : option redisReply)
    (buffer1 buffer2 : list Z) (w : world) :
  Z.of_nat (length frame) = 320 * 64 * 4 ->
  length buffer1 = 967%nat ->
  length buffer2 = 967%nat ->
  let io := PipelineOk (Some (REDIS_REPLY_ARRAY
                                (key :: REDIS_REPLY_STRING frame :: more)))
                       rr_brightness in
  exists after1 after2 w',
    process_and_send_frame io buffer1 payload_length w = Some (0, after1, w') /\
    process_and_send_frame io buffer2 payload_length w = Some (0, after2, w').
Proof.
  intros Hframe H1 H2 io.
  destruct (process_valid_frame key frame more rr_brightness buffer1 w Hframe H1)
    as (after1 & bufs1 & Hp1 & _ & Hn1 & Hrows1).
  destruct (process_valid_frame key frame more rr_brightness buffer2 w Hframe H2)
    as (after2 & bufs2 & Hp2 & _ & Hn2 & Hrows2).
  assert (Heq : bufs1 = bufs2).
  { apply list_eq. intros i.
    destruct (bufs1 !! i) as [b1|] eqn:E1.
    - destruct (lookup_lt_is_Some_2 bufs2 i) as [b2 E2].
      { rewrite Hn2, <- Hn1. eapply lookup_lt_Some, E1. }
      rewrite E2. f_equal.
      eapply row_buffer_unique; [apply (Hrows1 i b1 E1)|apply (Hrows2 i b2 E2)].
    - symmetry. apply lookup_ge_None_2. rewrite Hn2, <- Hn1.
      apply lookup_ge_None_1, E1. }
  subst bufs2. exists after1, after2. eexists. split; [exact Hp1|exact Hp2].
Qed.

Lemma rows_ignore_old_buffer_witness :
  exists after1 after2 w',
    process_and_send_frame (PipelineOk (blpop_reply black_frame) None)
      (replicate 967 0) payload_length
      (the_world (fresh_main_state seconds_clock 0)) = Some (0, after1, w') /\
    process_and_send_frame (PipelineOk (blpop_reply black_frame) None)
      (replicate 967 255) payload_length
      (the_world (fresh_main_state seconds_clock 0)) = Some (0, after2, w').
Proof.
  apply (rows_ignore_old_buffer
           (REDIS_REPLY_STRING (c_string "player:frames")) black_frame []
           None (replicate 967 0) (replicate 967 255)
           (the_world (fresh_main_state seconds_clock 0)));
    vm_compute; reflexivity.
Defined.

(** X10: every row packet of a frame starts with the seven header bytes
    of the protocol: the row index, two zero bytes, the width 320 as two
    bytes with the high one first, then 0x08 and 0x88. *)
Theorem row_header_layout (key : redisReply) (frame : list Z)
    (more : list redisReply) (rr_brightness : option redisReply)
    (payload : list Z) (w : world) :
  Z.of_nat (length frame) = 320 * 64 * 4 ->
  length payload = 967%nat ->
  exists payload' w' rows,
    process_and_send_frame
      (PipelineOk (Some (REDIS_REPLY_ARRAY
                           (key :: REDIS_REPLY_STRING frame :: more)))
                  rr_brightness)
      payload payload_length w = Some (0, payload', w') /\
    sent (events w') = sent (events w) ++ rows /\
    length rows = 64%nat /\
    forall r f, rows !! r = Some f ->
      take 7 (eth_payload f)
      = [Z.of_nat r; 0; 0; SIGN_WIDTH / 256; SIGN_WIDTH mod 256; 0x08; 0x88].
Proof.
  intros Hframe Hbuf.
  destruct (process_valid_frame key frame more rr_brightness payload w
              Hframe Hbuf)
    as (payload' & bufs & Hproc & Hpl & Hn & Hrows).
  set (s1 := apply_brightness rr_brightness (sock w)) in *.
  eexists payload', _, (map (fun buf => send_row s1 buf 967) bufs).
  split; [exact Hproc|split; [|split]].
  - cbn. rewrite sent_app. f_equal.
    rewrite <- (sent_sends (map _ bufs)), map_map. reflexivity.
  - rewrite length_map. exact Hn.
  - intros r f Hf. rewrite list_lookup_fmap in Hf.
    destruct (bufs !! r) as [buf|] eqn:Hbuf'; [|discriminate].
    injection Hf as <-.
    destruct (Hrows r buf Hbuf') as (Hlen & Hhead & _).
    destruct (send_row_exact s1 buf Hlen) as [_ ->]. rewrite Hhead.
    assert (Hr : (r < 64)%nat) by (rewrite <- Hn; eapply lookup_lt_Some, Hbuf').
    unfold to_uint8. rewrite Z.mod_small by lia. reflexivity.
Qed.

Lemma row_header_layout_witness :
  exists payload' w' rows,
    process_and_send_frame (PipelineOk (blpop_reply black_frame) None)
      (replicate 967 0) payload_length
      (the_world (fresh_main_state seconds_clock 0)) = Some (0, payload', w') /\
    sent (events w')
      = sent (events (the_world (fresh_main_state seconds_clock 0))) ++ rows /\
    length rows = 64%nat /\
    forall r f, rows !! r = Some f ->
      take 7 (eth_payload f)
      = [Z.of_nat r; 0; 0; SIGN_WIDTH / 256; SIGN_WIDTH mod 256; 0x08; 0x88].
Proof.
  apply (row_header_layout (REDIS_REPLY_STRING (c_string "player:frames"))
           black_frame [] None (replicate 967 0)
           (the_world (fresh_main_state seconds_clock 0)));
    vm_compute; reflexivity.
Defined.
End TransportLoop.

(** ** Pacing *)

Section Pacing.
Import Transport.
Variable clock : nat -> timespec.

(** The trace of the wait loop: nothing when it is entered past the
    deadline; otherwise sleeps and readings that are still before the
    deadline, and last the reading that ends the loop. *)
Lemma wait_deadline_trace (ss : timespec) (fuel : nat) :
  forall (elapsed : float) (w w' : world),
    wait_deadline clock fuel ss elapsed w = Some w' ->
    sock w' = sock w /\
    ((PrimFloat.ltb elapsed FPS_SLEEP = false /\ events w' = events w) \/
     (PrimFloat.ltb elapsed FPS_SLEEP = true /\
      exists before last,
        events w' = events w ++ before ++ [EvClock last] /\
        forallb (waiting ss) before = true /\
        PrimFloat.ltb (get_time_diff ss last) FPS_SLEEP = false)).
Proof.
  induction fuel as [|fuel IH]; intros elapsed w w' Hrun;
    cbn [wait_deadline] in Hrun;
    destruct (PrimFloat.ltb elapsed FPS_SLEEP) eqn:Hlt; try discriminate.
  - injection Hrun as <-. split; [reflexivity|]. left. split; reflexivity.
  - cbn [clock_gettime] in Hrun.
    match type of Hrun with
    | wait_deadline _ _ _ (get_time_diff _ (clock (clock_reads ?w1))) _ = _ =>
        assert (Hw1 : sock w1 = sock w /\
                  exists us, events w1 = events w ++ us /\
                             forallb (waiting ss) us = true)
          by (destruct (PrimFloat.ltb SLEEP_THRESHOLD_S _);
              [destruct (0 <? _)|];
              (split; [reflexivity|]);
              first [exists []; rewrite app_nil_r; split; reflexivity
                    |eexists [_]; split; reflexivity]);
        set (w1' := w1) in *
    end.
    destruct Hw1 as (Hsock & us & Hus & Hwait).
    apply IH in Hrun as (Hsock' & Hcase). cbn [sock events] in Hsock', Hcase.
    split; [congruence|]. right. split; [reflexivity|].
    destruct Hcase as [[Hpast Hev]|(Hstill & before & last & Hev & Hbefore & Hlast)].
    + exists us, (clock (clock_reads w1')).
      rewrite Hev, Hus, <- app_assoc. split; [reflexivity|].
      split; [exact Hwait|exact Hpast].
    + exists (us ++ [EvClock (clock (clock_reads w1'))] ++ before), last.
      rewrite Hev, Hus, <- !app_assoc. split; [reflexivity|].
      split; [|exact Hlast].
      rewrite forallb_app, Hwait. cbn [app forallb waiting andb].
      rewrite Hstill, Hbefore. reflexivity.
  - injection Hrun as <-. split; [reflexivity|]. left. split; reflexivity.
Qed.

(** X25: the pacing of [main].  In a pass that shows a frame, what lies
    between the last row packet and the commit packet is the wait and
    nothing else: sleeps and readings of the clock that are less than
    1/240 s after the previous frame start, then the first reading that is
    not, then the reading that becomes the new frame start.  The commit is
    sent right after it, and nothing is sent after the commit. *)
Theorem commit_waits_for_deadline (fuel : nat) (io : pipeline_result)
    (interrupted : bool) (st st' : main_state) :
  yields_frame io = true ->
  length (payload_buf st) = 967%nat ->
  main_iteration clock fuel io interrupted st = Some st' ->
  exists rows before last commit report,
    events (the_world st')
    = events (the_world st) ++ map EvSend rows ++ before
      ++ [EvClock last; EvClock (send_started st'); EvSend commit]
      ++ report /\
    length rows = 64%nat /\
    Forall (fun f => ether_type f = ROW_ETHER_TYPE) rows /\
    forallb (waiting (send_started st)) before = true /\
    PrimFloat.ltb (get_time_diff (send_started st) last) FPS_SLEEP = false /\
    ether_type commit = FRAME_ETHER_TYPE /\
    sent report = [].
Proof.
  intros Hy Hbuf Hrun.
  destruct (yields_frame_shape io Hy) as (key & frame & more & rr & -> & Hframe).
  destruct (process_valid_frame key frame more rr (payload_buf st)
              (the_world st) Hframe Hbuf)
    as (payload' & bufs & Hproc & _ & Hn & Hrows).
  unfold main_iteration in Hrun. rewrite Hproc in Hrun.
  cbn [Z.eqb negb clock_gettime] in Hrun.
  set (s1 := apply_brightness rr (sock (the_world st))) in *.
  match type of Hrun with
  | match wait_deadline _ _ _ ?e ?w with _ => _ end = _ =>
      destruct (wait_deadline clock fuel (send_started st) e w)
        as [w2|] eqn:Hwait; [|discriminate]
  end.
  apply wait_deadline_trace in Hwait as (_ & Hcase).
  cbn [events add_events with_sock clock_reads] in Hcase.
  set (now := clock (clock_reads (the_world st))) in *.
  assert (Hpolls : exists before last,
            events w2
            = (events (the_world st)
               ++ map (fun buf => EvSend (send_row s1 buf 967)) bufs)
              ++ before ++ [EvClock last] /\
            forallb (waiting (send_started st)) before = true /\
            PrimFloat.ltb (get_time_diff (send_started st) last) FPS_SLEEP
            = false).
  { destruct Hcase as [[Hpast Hev]|(Hstill & before & last & Hev & Hb & Hl)].
    - exists [], now. split; [exact Hev|]. split; [reflexivity|exact Hpast].
    - exists (EvClock now :: before), last. rewrite Hev, <- !app_assoc.
      split; [reflexivity|]. split; [|exact Hl].
      cbn [forallb waiting]. rewrite Hstill, Hb. reflexivity. }
  destruct Hpolls as (before & last & Hev & Hbefore & Hlast).
  exists (map (fun buf => send_row s1 buf 967) bufs), before, last,
         (send_frame (sock w2)).2.
  assert (Hrowsty : Forall (fun f => ether_type f = ROW_ETHER_TYPE)
                      (map (fun buf => send_row s1 buf 967) bufs)).
  { apply Forall_fmap, Forall_true. intros buf. reflexivity. }
  destruct ((sends st + 1) mod FPS =? 0); injection Hrun as <-.
  - eexists [EvClock _; EvStdout; EvClock _].
    cbn [the_world send_started events emit with_sock clock_gettime fst snd].
    rewrite Hev, map_map, <- !app_assoc. cbn [app].
    split; [reflexivity|]. rewrite length_map.
    split; [exact Hn|]. split; [exact Hrowsty|]. split; [exact Hbefore|].
    split; [exact Hlast|]. split; reflexivity.
  - exists [].
    cbn [the_world send_started events emit with_sock clock_gettime fst snd].
    rewrite Hev, map_map, <- !app_assoc. cbn [app].
    split; [reflexivity|]. rewrite length_map.
    split; [exact Hn|]. split; [exact Hrowsty|]. split; [exact Hbefore|].
    split; [exact Hlast|]. split; reflexivity.
Qed.

End Pacing.

Section PacingSamples.
Import Transport.

Lemma commit_waits_for_deadline_witness :
  let st := fresh_main_state millis_clock 0 in
  let io := PipelineOk (blpop_reply black_frame) None in
  exists st',
    main_iteration millis_clock 4 io false st = Some st' /\
    exists rows before last commit report,
      events (the_world st')
      = events (the_world st) ++ map EvSend rows ++ before
        ++ [EvClock last; EvClock (send_started st'); EvSend commit]
        ++ report /\
      length rows = 64%nat /\
      Forall (fun f => ether_type f = ROW_ETHER_TYPE) rows /\
      forallb (waiting (send_started st)) before = true /\
      PrimFloat.ltb (get_time_diff (send_started st) last) FPS_SLEEP = false /\
      ether_type commit = FRAME_ETHER_TYPE /\
      sent report = [].
Proof.
  intros st io.
  assert (Hy : yields_frame io = true) by (vm_compute; reflexivity).
  assert (Hbuf : length (payload_buf st) = 967%nat) by (vm_compute; reflexivity).
  destruct (pass_returns millis_clock st io false 4 Hy Hbuf) as [st' Hrun].
  { vm_compute. reflexivity. }
  exists st'. split; [apply Hrun; lia|].
  apply (commit_waits_for_deadline millis_clock 4 io false st st' Hy Hbuf).
  apply Hrun. lia.
Defined.

(** The wait on a clock that advances one millisecond per reading, with
    the frame start at 1 ms and entered with the reading of 2 ms: the loop
    sleeps three times, each time up to 100 us before the deadline, spins
    once, and ends with the reading of 6 ms, the first that is 1/240 s
    after the frame start. *)
Example hybrid_wait_trace :
  events
  <$> wait_deadline millis_clock 4 (millis_clock 1)
        (get_time_diff (millis_clock 1) (millis_clock 2))
        {| sock := initial_socket 0; clock_reads := 3; events := [] |}
  = Some [EvUsleep 3066; EvClock {| tv_sec := 0; tv_nsec := 3000000 |};
          EvUsleep 2066; EvClock {| tv_sec := 0; tv_nsec := 4000000 |};
          EvUsleep 1066; EvClock {| tv_sec := 0; tv_nsec := 5000000 |};
          EvClock {| tv_sec := 0; tv_nsec := 6000000 |}].
Proof. vm_compute. reflexivity. Qed.

End PacingSamples.

(** * More on the Director *)

Lemma tail_drop {A : Type} (l : list A) :
  forall n, tail (drop n l) = drop (S n) l.
Proof.
  induction l as [|a l IH]; intros [|n]; cbn; try reflexivity.
  apply IH.
Qed.

Section DirectorMore.
Import Director.


Lemma rpush_queued (frame : list Z) (db : redis) :
  holds_frames db = true ->
  exists db1,
    rpush PLAYER_FRAMES_KEY frame db
      = Some (db1, Z.of_nat (length (queued db ++ [frame]))) /\
    queued db1 = queued db ++ [frame] /\
    holds_frames db1 = true /\
    forall key, key <> PLAYER_FRAMES_KEY -> db1 !! key = db !! key.
Proof.
  unfold holds_frames, rpush, queued. intros Hh.
  destruct (db !! PLAYER_FRAMES_KEY) as [[s|l]|] eqn:Hkey; [discriminate| |].
  - eexists. split; [|split; [|split]].
    + rewrite length_app. cbn [length]. do 3 f_equal. lia.
    + rewrite lookup_insert_eq. reflexivity.
    + rewrite lookup_insert_eq. reflexivity.
    + intros key Hne. rewrite lookup_insert_ne by congruence. reflexivity.
  - eexists. split; [reflexivity|split; [|split]].
    + rewrite lookup_insert_eq. reflexivity.
    + rewrite lookup_insert_eq. reflexivity.
    + intros key Hne. rewrite lookup_insert_ne by congruence. reflexivity.
Qed.

Lemma lpop_queued (db : redis) :
  holds_frames db = true ->
  queued (lpop PLAYER_FRAMES_KEY db) = tail (queued db) /\
  holds_frames (lpop PLAYER_FRAMES_KEY db) = true /\
  forall key, key <> PLAYER_FRAMES_KEY ->
    lpop PLAYER_FRAMES_KEY db !! key = db !! key.
Proof.
  unfold holds_frames, lpop, queued. intros Hh.
  destruct (db !! PLAYER_FRAMES_KEY) as [[s|[|f [|g l]]]|] eqn:Hkey;
    try discriminate;
    rewrite ?lookup_insert_eq, ?lookup_delete_eq, ?Hkey;
    (split; [reflexivity|split; [reflexivity|]]);
    intros key Hne;
    rewrite ?lookup_insert_ne, ?lookup_delete_ne by congruence; reflexivity.
Qed.


Lemma lpops_queued (pops : nat) :
  forall db, holds_frames db = true ->
    queued (Nat.iter pops (lpop PLAYER_FRAMES_KEY) db) = drop pops (queued db) /\
    holds_frames (Nat.iter pops (lpop PLAYER_FRAMES_KEY) db) = true /\
    forall key, key <> PLAYER_FRAMES_KEY ->
      Nat.iter pops (lpop PLAYER_FRAMES_KEY) db !! key = db !! key.
Proof.
  induction pops as [|pops IH]; intros db Hh.
  - cbn. rewrite drop_0. auto.
  - destruct (IH db Hh) as (Hq & Hh' & Hother).
    destruct (lpop_queued _ Hh') as (Hq1 & Hh1 & Hother1).
    cbn [Nat.iter nat_rect]. change (nat_rect _ ?x _ pops) with (Nat.iter pops (lpop PLAYER_FRAMES_KEY) x) in *.
    split; [|split; [exact Hh1|]].
    + rewrite Hq1, Hq. apply tail_drop.
    + intros key Hne. rewrite Hother1, Hother by exact Hne. reflexivity.
Qed.

Lemma llen_queued (db : redis) :
  holds_frames db = true ->
  llen PLAYER_FRAMES_KEY db = Some (Z.of_nat (length (queued db))).
Proof.
  unfold holds_frames, llen, queued.
  destruct (db !! PLAYER_FRAMES_KEY) as [[s|l]|]; [discriminate|reflexivity..].
Qed.

(** X11: frames are dropped only when the Transport is stalled.  If the
    push fills the list to [fps] but the Transport takes at least one
    frame during the wait, the pass deletes nothing and does not back
    off: the list holds the frames not yet taken, in the order pushed. *)
Theorem draining_transport_never_flushed (sign : Player.Sign)
    (frame : list Z) (pops : nat) (db : redis) :
  holds_frames db = true ->
  Z.of_nat (length (queued db)) + 1 = default FPS (Player.fps sign) ->
  (1 <= pops)%nat ->
  queued (iteration sign frame pops db).1
    = drop pops (queued db ++ [frame]) /\
  ~ In (Sleep PLAYER_BACKOFF_MS) (iteration sign frame pops db).2.
Proof.
  intros Hh Hfull Hpops. unfold iteration.
  set (fps := default FPS (Player.fps sign)) in *. clearbody fps.
  destruct (rpush_queued frame db Hh) as (db1 & -> & Hq1 & Hh1 & _).
  destruct (lpops_queued pops db1 Hh1) as (Hq2 & Hh2 & _).
  rewrite length_app. cbn [length].
  rewrite (proj2 (Z.eqb_eq _ _)) by lia.
  rewrite (llen_queued _ Hh2), Hq2, Hq1, length_drop, length_app.
  cbn [length]. rewrite (proj2 (Z.eqb_neq _ _)) by lia.
  cbn [fst snd]. split; [rewrite Hq2, Hq1; reflexivity|].
  cbn. intros [H|[H|[H|[]]]]; discriminate H.
Qed.

Lemma draining_transport_never_flushed_witness :
  let sign := {| Player.width := 320; Player.height := 64;
                 Player.theme := "dark"; Player.fps := Some 3 |} in
  let db := <[PLAYER_FRAMES_KEY := RedisList [[1]; [2]]]> (∅ : redis) in
  queued (iteration sign [3] 1 db).1 = drop 1 (queued db ++ [[3]]) /\
  ~ In (Sleep PLAYER_BACKOFF_MS) (iteration sign [3] 1 db).2.
Proof.
  intros sign db.
  apply (draining_transport_never_flushed sign [3] 1 db);
    [vm_compute; reflexivity|vm_compute; reflexivity|lia].
Defined.







End DirectorMore.

(** * The keys the processes share *)

Section WiringMore.
Import Director Wiring.

Lemma atoi_table : forallb atoi_reads (seqZ 0 256) = true.
Proof. vm_compute. reflexivity. Qed.

Lemma atoi_decimal (v : Z) :
  0 <= v <= 255 ->
  Transport.atoi (Transport.c_string (decimal_string v)) = v.
Proof.
  intros Hv. pose proof (forallb_seqZ atoi_reads 0 256 v atoi_table) as Hok.
  unfold atoi_reads in Hok. specialize (Hok ltac:(lia)). lia.
Qed.

(** X14: a brightness stored under [sender:brightness] as the decimal
    string of a value in 0..255 reaches the hardware exactly: the reply of
    [GET], read by [atoi], sets [current_brightness] to that value. *)
Theorem stored_brightness_applied (v : Z) (db : redis)
    (s : Transport.socket_state) :
  0 <= v <= 255 ->
  db !! SENDER_BRIGHTNESS_KEY = Some (RedisString (decimal_string v)) ->
  Transport.current_brightness
    (Transport.apply_brightness (Some (redis_get SENDER_BRIGHTNESS_KEY db)) s)
  = v.
Proof.
  intros Hv Hkey. unfold redis_get. rewrite Hkey.
  rewrite apply_brightness_value, (atoi_decimal v Hv).
  replace ((0 <=? v) && (v <=? 255)) with true by lia. reflexivity.
Qed.

Lemma stored_brightness_applied_witness :
  Transport.current_brightness
    (Transport.apply_brightness
       (Some (redis_get SENDER_BRIGHTNESS_KEY
                (<[SENDER_BRIGHTNESS_KEY := RedisString (decimal_string 42)]>
                   (∅ : redis))))
       (Transport.initial_socket 0))
  = 42.
Proof.
  apply (stored_brightness_applied 42); [lia|vm_compute; reflexivity].
Defined.

(** X15: the seeding at the start of [main].  When [sender:brightness] is
    missing it is set to "255", and the Transport then runs at full
    brightness 255; when the key is there it is left as it is; no other
    key is written. *)
Theorem seed_sets_full_brightness (db : redis) :
  let db' := seed_brightness (Some (redis_get SENDER_BRIGHTNESS_KEY db)) db in
  (db !! SENDER_BRIGHTNESS_KEY = None ->
   forall s,
     Transport.current_brightness
       (Transport.apply_brightness
          (Some (redis_get SENDER_BRIGHTNESS_KEY db')) s) = 255) /\
  (db !! SENDER_BRIGHTNESS_KEY <> None -> db' = db) /\
  (forall key, key <> SENDER_BRIGHTNESS_KEY -> db' !! key = db !! key).
Proof.
  intros db'. unfold db', seed_brightness, redis_get.
  destruct (db !! SENDER_BRIGHTNESS_KEY) as [[sv|l]|] eqn:Hkey.
  - split; [discriminate|]. split; reflexivity.
  - split; [discriminate|]. split; reflexivity.
  - split; [|split; [congruence|]].
    + intros _ s.
      rewrite lookup_insert_eq, apply_brightness_value, (atoi_decimal 255) by lia.
      reflexivity.
    + intros key Hne. apply lookup_insert_ne. congruence.
Qed.

Lemma seed_sets_full_brightness_witness :
  Transport.current_brightness
    (Transport.apply_brightness
       (Some (redis_get SENDER_BRIGHTNESS_KEY
                (seed_brightness
                   (Some (redis_get SENDER_BRIGHTNESS_KEY (∅ : redis)))
                   (∅ : redis))))
       (Transport.initial_socket 0))
  = 255.
Proof.
  apply (proj1 (seed_sets_full_brightness (∅ : redis))). reflexivity.
Defined.

End WiringMore.

(** ** The brightness channel and the brightness key *)

Section ChannelAndKey.
Import Director Wiring.
Variable gamma_reading : Z -> Z.

Lemma broker_after_app (a b : list Sensors.event) (db : redis) :
  broker_after (a ++ b) db = broker_after b (broker_after a db).
Proof. apply foldl_app. Qed.

Lemma renderer_after_app (a b : list Sensors.event) (r : option float) :
  renderer_after (a ++ b) r = renderer_after b (renderer_after a r).
Proof. apply foldl_app. Qed.

(** One pass with both commands answered: nothing for the broker, or the
    new brightness on the channel and under the key. *)
Lemma cycle_answered (lux : option Z) (st : Sensors.state) :
  1 <= Sensors.currentBrightness st <= 100 ->
  let r := Sensors.cycle gamma_reading lux Sensors.all_answered st in
  1 <= Sensors.currentBrightness r.1 <= 100 /\
  ((Sensors.currentBrightness r.1 = Sensors.currentBrightness st /\
    (r.2 = [Sensors.Sleep Sensors.SLEEP_MS] \/
     r.2 = [Sensors.ConsoleError; Sensors.Sleep Sensors.BACKOFF_MS])) \/
   r.2 = [Sensors.Publish (Sensors.currentBrightness r.1);
          Sensors.Persist (Sensors.currentBrightness r.1)]).
Proof.
  intros Hcur. destruct lux as [lux|]; [|cbn; auto].
  unfold Sensors.cycle, Sensors.luxToBrightness.
  cbv zeta. cbn [Sensors.currentBrightness Sensors.sensorReadings].
  destruct (Math_round _) as [target|]; [|cbn; auto].
  destruct (target - Sensors.currentBrightness st =? 0) eqn:Hdiff;
    [cbn; auto|].
  cbn [fst snd Sensors.currentBrightness Sensors.publish_ok Sensors.set_ok
       Sensors.all_answered andb app].
  unfold Sensors.BRIGHTNESS_MAX, Sensors.BRIGHTNESS_MIN,
    Sensors.BRIGHTNESS_INC_MAX.
  split; [lia|]. right. reflexivity.
Qed.

Lemma heard_and_stored (b : Z) (db : redis) (x : option float) :
  1 <= b <= 100 -> x <> None ->
  renderer_after [Sensors.Publish b; Sensors.Persist b] x
    = Some (float_of_Z b) /\
  broker_after [Sensors.Publish b; Sensors.Persist b] db !! BRIGHTNESS_KEY
    = Some (RedisString (decimal_string b)).
Proof.
  intros Hb Hx. destruct x as [x|]; [|congruence]. split.
  - cbn [renderer_after foldl mbind option_bind]. unfold publish, on_message.
    change (String.eqb BRIGHTNESS_CHANNEL BRIGHTNESS_CHANNEL) with true.
    cbv iota. apply Number_decimal. lia.
  - cbn [broker_after foldl]. unfold persist. apply lookup_insert_eq.
Qed.

(** A run in which every command is answered: either nothing was
    published, or the Renderer that listened and the key both hold the
    brightness the controller ends with. *)
Lemma control_loop_answered (cycles : list (option Z * Sensors.answers)) :
  forall (st : Sensors.state) (db : redis) (x : option float),
    1 <= Sensors.currentBrightness st <= 100 ->
    commands_answered cycles ->
    x <> None ->
    let r := Sensors.control_loop gamma_reading cycles st in
    1 <= Sensors.currentBrightness r.1 <= 100 /\
    ((Sensors.published r.2 = [] /\
      Sensors.currentBrightness r.1 = Sensors.currentBrightness st /\
      broker_after r.2 db = db /\ renderer_after r.2 x = x) \/
     (Sensors.published r.2 <> [] /\
      renderer_after r.2 x
        = Some (float_of_Z (Sensors.currentBrightness r.1)) /\
      broker_after r.2 db !! BRIGHTNESS_KEY
        = Some (RedisString
                  (decimal_string (Sensors.currentBrightness r.1))))).
Proof.
  induction cycles as [|[lux a] cycles IH]; intros st db x Hcur Hok Hx.
  - cbn. split; [exact Hcur|]. left. repeat split.
  - inversion Hok as [|c cs Ha Hrest]; subst. cbn [snd] in Ha. subst a.
    cbn [Sensors.control_loop].
    destruct (cycle_answered lux st Hcur) as (Hcur1 & Hstep).
    destruct (Sensors.cycle gamma_reading lux Sensors.all_answered st)
      as [st1 evs1].
    cbn [fst snd] in Hcur1, Hstep.
    assert (Hfirst :
              (Sensors.published evs1 = [] /\
               Sensors.currentBrightness st1 = Sensors.currentBrightness st /\
               broker_after evs1 db = db /\ renderer_after evs1 x = x) \/
              (Sensors.published evs1 <> [] /\
               renderer_after evs1 x
                 = Some (float_of_Z (Sensors.currentBrightness st1)) /\
               broker_after evs1 db !! BRIGHTNESS_KEY
                 = Some (RedisString
                           (decimal_string (Sensors.currentBrightness st1))))).
    { destruct Hstep as [(Hsame & [-> | ->])| ->].
      - left. repeat split; assumption.
      - left. repeat split; assumption.
      - right. split; [discriminate|].
        apply heard_and_stored; assumption. }
    pose proof (IH st1 (broker_after evs1 db) (renderer_after evs1 x) Hcur1
                   Hrest) as Hnext.
    destruct (Sensors.control_loop gamma_reading cycles st1) as [st2 evs2].
    cbv zeta in Hnext |- *. cbn [fst snd] in Hnext |- *.
    unfold Sensors.published in *. rewrite omap_app.
    rewrite broker_after_app, renderer_after_app.
    destruct Hfirst as [(Hp1 & Hc1 & Hb1 & Hr1)|(Hp1 & Hr1 & Hb1)].
    + rewrite Hp1, Hb1, Hr1 in *. rewrite <- Hc1.
      apply Hnext. exact Hx.
    + destruct Hnext as (Hcur2 & [(Hp2 & Hc2 & Hb2 & Hr2)|(Hp2 & Hr2 & Hb2)]);
        [rewrite Hr1; discriminate| |].
      * split; [exact Hcur2|]. right. rewrite Hp2, app_nil_r, Hb2, Hr2, Hc2.
        split; [exact Hp1|]. split; assumption.
      * split; [exact Hcur2|]. right. split; [|split; assumption].
        destruct (omap _ evs1); [congruence|discriminate].
Qed.

(** X16: from the Ambient controller to the Renderer.  After a run in
    which the broker answered every command and something was published,
    a Renderer that followed the channel and one that starts afterwards
    and reads [player:brightness] both have the brightness the controller
    ends with. *)
Theorem published_brightness_round_trip
    (cycles : list (option Z * Sensors.answers)) (db : redis)
    (listening starting : float) :
  commands_answered cycles ->
  let r := Sensors.control_loop gamma_reading cycles Sensors.initial in
  Sensors.published r.2 <> [] ->
  renderer_after r.2 (Some listening)
    = Some (float_of_Z (Sensors.currentBrightness r.1)) /\
  startup_brightness (broker_after r.2 db) starting
    = Some (float_of_Z (Sensors.currentBrightness r.1)) /\
  1 <= Sensors.currentBrightness r.1 <= 100.
Proof.
  intros Hok r Hpub.
  destruct (control_loop_answered cycles Sensors.initial db (Some listening))
    as (Hcur & [(Hnone & _)|(_ & Hr & Hb)]);
    [cbn; lia|exact Hok|discriminate| |].
  - fold r in Hnone. contradiction.
  - fold r in Hr, Hb, Hcur. split; [exact Hr|]. split; [|exact Hcur].
    unfold startup_brightness. rewrite Hb.
    destruct (Number_decimal_nonneg (Sensors.currentBrightness r.1))
      as [Hnum ->];
      [change (2 ^ 53) with 9007199254740992; lia|]. exact Hnum.
Qed.

End ChannelAndKey.

Section ChannelAndKeySamples.
Import Director Wiring.

Lemma published_brightness_round_trip_witness :
  let cycles := [(Some 400, Sensors.all_answered); (None, Sensors.all_answered);
                 (Some 400, Sensors.all_answered)] in
  let r := Sensors.control_loop Sensors.sample_gamma cycles Sensors.initial in
  renderer_after r.2 (Some 100%float)
    = Some (float_of_Z (Sensors.currentBrightness r.1)) /\
  startup_brightness (broker_after r.2 (∅ : redis)) 100%float
    = Some (float_of_Z (Sensors.currentBrightness r.1)) /\
  1 <= Sensors.currentBrightness r.1 <= 100.
Proof.
  intros cycles r.
  apply (published_brightness_round_trip Sensors.sample_gamma cycles ∅
           100%float 100%float).
  - repeat constructor.
  - vm_compute. discriminate.
Defined.

(** When a [SET] is rejected the two part: the Renderer that listens is
    at 6, and one that starts afterwards finds no key and stays at its
    default of 100. *)
Example rejected_set_parts_them :
  let cycles := [(Some 400, {| Sensors.publish_ok := true;
                               Sensors.set_ok := false |})] in
  let r := Sensors.control_loop Sensors.sample_gamma cycles Sensors.initial in
  renderer_after r.2 (Some 100%float) = Some (float_of_Z 6) /\
  startup_brightness (broker_after r.2 (∅ : redis)) 100%float
    = Some 100%float.
Proof. split; vm_compute; reflexivity. Qed.

End ChannelAndKeySamples.

(** * More on the Ambient controller *)

Section SensorsMore.
Import Sensors.



Section Gamma.
Variable gamma_reading : Z -> Z.








Hypothesis gamma_in_range : forall lux, 1 <= gamma_reading lux <= 100.


End Gamma.


(** The sample cycle: readings 3, 40 and 80 average to 41; the brightness
    was at 8 and goes to 13. *)
Example sample_cycle :
  currentBrightness sample_state = 8 /\
  (luxToBrightness sample_gamma 80 sample_state).1 = Some 41 /\
  published (updateBrightness sample_gamma 80 sample_state).2 = [13].
Proof. repeat split; vm_compute; reflexivity. Qed.

End SensorsMore.

(** * More on the Renderer *)

Section PlayerMore.
Import Player.
Context {TL : Type} `{Gsap TL}.

Lemma draw_active_blank (anims : list animation) :
  existsb animating anims = false -> draw_active anims = [].
Proof.
  unfold draw_active. induction anims as [|a anims IH]; [reflexivity|].
  cbn [existsb]. intros Hnone. apply orb_false_elim in Hnone as [Ha Hrest].
  rewrite bind_cons, Ha, (IH Hrest). reflexivity.
Qed.

Lemma draw_active_some (anims : list animation) :
  existsb animating anims = true -> draw_active anims <> [].
Proof.
  unfold draw_active. induction anims as [|a anims IH]; [discriminate|].
  cbn [existsb]. rewrite bind_cons. destruct (animating a); [discriminate|].
  exact IH.
Qed.

Lemma play_loop_outcome (fuel : nat) :
  forall (skipped : Z) (p : player TL) (tl : TL) (c : completion)
         (p' : player TL),
    timeline p = Some tl ->
    play_loop fuel skipped p = Some (c, p') ->
    c <> ThrowTypeError /\
    movie p' = movie p /\ frames p' = frames p /\
    duration p' = duration p /\ brightness p' = brightness p /\
    exists k : nat,
      canvas p' = canvas p ++ replicate k CanvasClear ++ [CanvasClear]
                  ++ draw_active (animations p') /\
      match c with
      | ReturnTrue =>
          frame p' = 0 /\ cycles p' = cycles p + 1 /\
          frames p <= frame p + Z.of_nat k + 1
      | _ =>
          frame p' = frame p + Z.of_nat k + 1 /\ cycles p' = cycles p /\
          frame p' < frames p /\
          (draw_active (animations p') <> [] \/
           frames p <= skipped + Z.of_nat k + 1)
      end.
Proof.
  induction fuel as [|fuel IH]; intros skipped p tl c p' Htl Hrun;
    [discriminate|].
  cbn [play_loop] in Hrun. rewrite Htl in Hrun.
  destruct (seek tl _) as [tl' fired].
  destruct (frames p <=? frame p + 1) eqn:Hwrap.
  - injection Hrun as <- <-. cbn.
    split; [discriminate|]. do 4 (split; [reflexivity|]).
    exists 0%nat. cbn. split; [reflexivity|]. lia.
  - destruct (existsb animating (foldl fire (animations p) fired)
              || (frames p <=? skipped + 1)) eqn:Hactive.
    + injection Hrun as <- <-. cbn.
      split; [discriminate|]. do 4 (split; [reflexivity|]).
      exists 0%nat. cbn. split; [reflexivity|].
      split; [lia|]. split; [reflexivity|]. split; [lia|].
      apply orb_prop in Hactive as [Hact|Hcap].
      * left. apply draw_active_some, Hact.
      * right. lia.
    + apply orb_false_elim in Hactive as [Hact Hcap].
      eapply IH in Hrun; [|reflexivity].
      destruct Hrun as (Hc & Hmovie & Hframes & Hdur & Hbright & k & Hcv & Hend).
      cbn in Hmovie, Hframes, Hdur, Hbright, Hcv, Hend.
      rewrite (draw_active_blank _ Hact) in Hcv.
      split; [exact Hc|]. do 4 (split; [assumption|]).
      exists (S k). split.
      * rewrite Hcv. rewrite <- !app_assoc. reflexivity.
      * destruct c.
        -- lia.
        -- destruct Hend as (Hf & Hcy & Hlt & Hor).
           split; [lia|]. split; [lia|]. split; [lia|].
           destruct Hor as [Hdraw|Hall]; [left; exact Hdraw|right; lia].
        -- destruct Hend as (Hf & Hcy & Hlt & Hor).
           split; [lia|]. split; [lia|]. split; [lia|].
           destruct Hor as [Hdraw|Hall]; [left; exact Hdraw|right; lia].
Qed.


Lemma clears_replicate (k : nat) :
  clears (replicate k CanvasClear) = Z.of_nat k.
Proof.
  unfold clears. induction k as [|k IH]; [reflexivity|].
  cbn [replicate List.filter is_clear length]. lia.
Qed.

(** X19: the bookkeeping of [play] on a loaded movie, for a call that
    returns.  It leaves the movie, [frames], [duration] and [brightness]
    as they were.  With [passes] the number of times it cleared the
    canvas: when it returns [true] the frame counter is back at 0,
    [cycles] went up by one and the counter had reached [frames]; when it
    returns [undefined] the counter advanced by [passes], is still below
    [frames], and [cycles] is unchanged. *)
Theorem play_bookkeeping (fuel : nat) (p p' : player TL) (m : BuiltMovie)
    (tl : TL) (c : completion) :
  movie p = Some m ->
  timeline p = Some tl ->
  play fuel p = Some (c, p') ->
  c = ReturnTrue \/ c = ReturnUndefined ->
  let passes := clears (canvas p') - clears (canvas p) in
  movie p' = movie p /\ frames p' = frames p /\
  duration p' = duration p /\ brightness p' = brightness p /\
  1 <= passes /\
  match c with
  | ReturnTrue =>
      frame p' = 0 /\ cycles p' = cycles p + 1 /\
      frames p <= frame p + passes
  | ReturnUndefined =>
      frame p' = frame p + passes /\ cycles p' = cycles p /\
      frame p' < frames p
  | ThrowTypeError => True
  end.
Proof.
  intros Hmovie Htl Hrun Hret passes.
  unfold play in Hrun. rewrite Hmovie in Hrun.
  destruct (play_loop_outcome fuel 0 p tl c p' Htl Hrun)
    as (Hc & Hm & Hf & Hd & Hb & k & Hcv & Hend).
  assert (Hpasses : passes = Z.of_nat k + 1).
  { unfold passes. rewrite Hcv, !clears_app, clears_replicate,
      clears_draw_active.
    change (clears [CanvasClear]) with 1. lia. }
  do 4 (split; [assumption|]). split; [lia|].
  destruct c; [lia|lia|exact I].
Qed.

(** X20: [play] skips blank frames.  What a call adds to the canvas is a
    run of bare clears, one for each pass in which nothing was animating,
    and then the last pass: a clear and the drawables that are animating,
    in the order of the list.  When the call returns [undefined] that last
    pass drew something, unless the call made [frames] passes. *)
Theorem play_skips_blank_frames (fuel : nat) (p p' : player TL)
    (m : BuiltMovie) (tl : TL) (c : completion) :
  movie p = Some m ->
  timeline p = Some tl ->
  play fuel p = Some (c, p') ->
  exists k : nat,
    canvas p' = canvas p ++ replicate k CanvasClear ++ [CanvasClear]
                ++ draw_active (animations p') /\
    (c = ReturnUndefined ->
     draw_active (animations p') <> [] \/ frames p <= Z.of_nat k + 1).
Proof.
  intros Hmovie Htl Hrun. unfold play in Hrun. rewrite Hmovie in Hrun.
  destruct (play_loop_outcome fuel 0 p tl c p' Htl Hrun)
    as (_ & _ & _ & _ & _ & k & Hcv & Hend).
  exists k. split; [exact Hcv|]. intros ->.
  destruct Hend as (_ & _ & _ & Hor). exact Hor.
Qed.

End PlayerMore.

Section PlayerMoreSamples.
Import Player.

Lemma play_bookkeeping_witness :
  movie after_play = movie blank_then_active /\
  frames after_play = frames blank_then_active /\
  duration after_play = duration blank_then_active /\
  brightness after_play = brightness blank_then_active /\
  1 <= clears (canvas after_play) - clears (canvas blank_then_active) /\
  frame after_play
  = frame blank_then_active
    + (clears (canvas after_play) - clears (canvas blank_then_active)) /\
  cycles after_play = cycles blank_then_active /\
  frame after_play < frames blank_then_active.
Proof.
  apply (play_bookkeeping 5 blank_then_active after_play
           {| sign := sample_sign |} [[]; []; [(0%nat, true)]]
           ReturnUndefined);
    [vm_compute; reflexivity..|right; reflexivity].
Defined.

Lemma play_skips_blank_frames_witness :
  exists k : nat,
    canvas after_play
    = canvas blank_then_active ++ replicate k CanvasClear ++ [CanvasClear]
      ++ draw_active (animations after_play) /\
    (ReturnUndefined = ReturnUndefined ->
     draw_active (animations after_play) <> [] \/
     frames blank_then_active <= Z.of_nat k + 1).
Proof.
  apply (play_skips_blank_frames 5 blank_then_active after_play
           {| sign := sample_sign |} [[]; []; [(0%nat, true)]]
           ReturnUndefined); vm_compute; reflexivity.
Defined.

(** The sample call: two blank passes, then the pass that draws. *)
Example three_passes :
  play 5 blank_then_active = Some (ReturnUndefined, after_play) /\
  frame after_play = 3 /\
  canvas after_play
  = [CanvasClear; CanvasClear; CanvasClear;
     CanvasSave; CanvasDraw "bg"; CanvasRestore].
Proof. repeat split; vm_compute; reflexivity. Qed.

End PlayerMoreSamples.

Section LoadMore.
Import Player.

Lemma insert_by_layer_perm (a : animation) (l : list animation) :
  insert_by_layer a l ≡ₚ a :: l.
Proof.
  induction l as [|b l IH]; [reflexivity|]. cbn [insert_by_layer].
  destruct (layer a <=? layer b); [reflexivity|].
  rewrite IH. apply Permutation_swap.
Qed.

Lemma sort_by_layer_perm (l : list animation) : sort_by_layer l ≡ₚ l.
Proof.
  induction l as [|a l IH]; [reflexivity|]. cbn [sort_by_layer].
  rewrite insert_by_layer_perm, IH. reflexivity.
Qed.

Lemma insert_by_layer_sorted (a : animation) (l : list animation) :
  StronglySorted (fun x y => layer x <= layer y) l ->
  StronglySorted (fun x y => layer x <= layer y) (insert_by_layer a l).
Proof.
  induction 1 as [|b l Hl IH Hb]; cbn [insert_by_layer].
  - repeat constructor.
  - destruct (layer a <=? layer b) eqn:Hle.
    + constructor; [constructor; assumption|].
      constructor; [lia|].
      eapply Forall_impl; [exact Hb|]. cbn. intros x Hx. lia.
    + constructor; [exact IH|].
      rewrite insert_by_layer_perm. constructor; [lia|exact Hb].
Qed.

Lemma sort_by_layer_sorted (l : list animation) :
  StronglySorted (fun x y => layer x <= layer y) (sort_by_layer l).
Proof.
  induction l as [|a l IH]; [constructor|].
  apply insert_by_layer_sorted, IH.
Qed.

Lemma insert_by_layer_stable (k : Z) (a : animation) (l : list animation) :
  List.filter (fun x => layer x =? k) (insert_by_layer a l)
  = List.filter (fun x => layer x =? k) (a :: l).
Proof.
  induction l as [|b l IH]; [reflexivity|]. cbn [insert_by_layer].
  destruct (layer a <=? layer b) eqn:Hle; [reflexivity|].
  cbn [List.filter] in *. rewrite IH.
  destruct (layer a =? k) eqn:Ha, (layer b =? k) eqn:Hb; try reflexivity.
  lia.
Qed.

Lemma sort_by_layer_stable (k : Z) (l : list animation) :
  List.filter (fun x => layer x =? k) (sort_by_layer l)
  = List.filter (fun x => layer x =? k) l.
Proof.
  induction l as [|a l IH]; [reflexivity|]. cbn [sort_by_layer].
  rewrite insert_by_layer_stable. cbn [List.filter]. rewrite IH. reflexivity.
Qed.

Lemma pushed_not_animating (scenes : list BuiltTimeline) :
  Forall (fun a => animating a = false) (pushed_animations scenes).
Proof.
  unfold pushed_animations. apply Forall_bind, Forall_true. intros scene.
  apply Forall_fmap, Forall_true. intros item. reflexivity.
Qed.

Context {TL : Type} `{GsapBuild TL}.

(** X21: [load] sorts for the painter's algorithm.  After a successful
    load the drawables are those of the scenes' descriptors, each once,
    in ascending order of layer, and drawables of the same layer keep the
    order of the movie; none of them is animating, so nothing would be
    drawn yet; the frame counter is 0 and [frames] is the duration times
    240, rounded up; [cycles] and [brightness] are kept. *)
Theorem load_sorts_by_layer (the_sign : Sign) (scenes : list BuiltTimeline)
    (p p' : player TL) :
  load the_sign scenes p = Some p' ->
  animations p' ≡ₚ pushed_animations scenes /\
  StronglySorted (fun a b => layer a <= layer b) (animations p') /\
  (forall k, List.filter (fun a => layer a =? k) (animations p')
             = List.filter (fun a => layer a =? k) (pushed_animations scenes)) /\
  draw_active (animations p') = [] /\
  frame p' = 0 /\
  Math_ceil (duration p' * float_of_Z 240)%float = Some (frames p') /\
  cycles p' = cycles p /\ brightness p' = brightness p.
Proof.
  unfold load. intros Hload.
  destruct (Math_ceil _) as [n|] eqn:Hceil; [|discriminate].
  destruct (negb _); [discriminate|]. injection Hload as <-.
  cbn [animations frame frames duration cycles brightness].
  split; [apply sort_by_layer_perm|]. split; [apply sort_by_layer_sorted|].
  split; [intros k; apply sort_by_layer_stable|].
  split; [|split; [reflexivity|split; [exact Hceil|split; reflexivity]]].
  assert (Hall : Forall (fun a => animating a = false)
                   (sort_by_layer (pushed_animations scenes))).
  { rewrite sort_by_layer_perm. apply pushed_not_animating. }
  induction Hall as [|a l Ha Hl IH]; [reflexivity|].
  unfold draw_active. rewrite bind_cons, Ha. exact IH.
Qed.

End LoadMore.

Section LoadSamples.
Import Player.

Lemma load_sorts_by_layer_witness :
  animations sample_loaded ≡ₚ pushed_animations sample_scenes /\
  StronglySorted (fun a b => layer a <= layer b) (animations sample_loaded) /\
  (forall k, List.filter (fun a => layer a =? k) (animations sample_loaded)
             = List.filter (fun a => layer a =? k)
                 (pushed_animations sample_scenes)) /\
  draw_active (animations sample_loaded) = [] /\
  frame sample_loaded = 0 /\
  Math_ceil (duration sample_loaded * float_of_Z 240)%float
    = Some (frames sample_loaded) /\
  cycles sample_loaded = cycles (new unit) /\
  brightness sample_loaded = brightness (new unit).
Proof.
  apply (@load_sorts_by_layer unit four_seconds sample_sign sample_scenes
           (new unit) sample_loaded).
  vm_compute. reflexivity.
Defined.

(** The sample movie: the background comes first although the movie lists
    it second, and four seconds make 960 frames. *)
Example background_first :
  name <$> animations sample_loaded = ["bg"; "text"]%string /\
  frames sample_loaded = 960.
Proof. split; vm_compute; reflexivity. Qed.

End LoadSamples.

Section CompensationMore.
Import Player.

(** X22: without dark boost the compensation never brightens.  For a
    colour [#rrggbb] on which the dark boost is not triggered and a
    brightness in 1..100, every channel of the adjusted colour is a byte
    that is at most the channel it came from. *)
Theorem compensation_never_brightens (hexColor : string) (r g b x : Z) :
  channels hexColor = (Some r, Some g, Some b) ->
  0 <= r <= 255 -> 0 <= g <= 255 -> 0 <= b <= 255 ->
  PrimFloat.ltb (avgBrightness_of (Some r) (Some g) (Some b)) 100 = false ->
  1 <= x <= 100 ->
  exists r' g' b',
    channels (adjustColorForBrightness hexColor (float_of_Z x))
    = (Some r', Some g', Some b') /\
    0 <= r' <= r /\ 0 <= g' <= g /\ 0 <= b' <= b.
Proof.
  intros Hch Hr Hg Hb Hboost Hx.
  rewrite (channels_adjusted hexColor r g b x) by assumption.
  destruct (shown_monotone r 0 x) as (r1 & r2 & Hr1 & Hr2 & Hle1 & Hle2);
    [lia..|].
  destruct (shown_monotone g 0 x) as (g1 & g2 & Hg1 & Hg2 & Hle3 & Hle4);
    [lia..|].
  destruct (shown_monotone b 0 x) as (b1 & b2 & Hb1 & Hb2 & Hle5 & Hle6);
    [lia..|].
  rewrite Z.add_0_r in Hr2, Hg2, Hb2.
  exists r2, g2, b2. rewrite Hr2, Hg2, Hb2.
  split; [reflexivity|]. lia.
Qed.

Lemma compensation_never_brightens_witness :
  exists r' g' b',
    channels (adjustColorForBrightness "#c08040" (float_of_Z 10))
    = (Some r', Some g', Some b') /\
    0 <= r' <= 192 /\ 0 <= g' <= 128 /\ 0 <= b' <= 64.
Proof.
  apply (compensation_never_brightens "#c08040" 192 128 64 10);
    try (vm_compute; reflexivity); lia.
Defined.

Lemma nan_table : forallb nan_stays_nan (seqZ 1 99) = true.
Proof. vm_compute. reflexivity. Qed.

Lemma nan_channel (x : Z) :
  1 <= x <= 99 ->
  PrimFloat.eqb (float_of_Z x) 100 = false /\
  adjust_channel None (scale_of (float_of_Z x) + 0)%float = None.
Proof.
  intros Hx. pose proof (forallb_seqZ nan_stays_nan 1 99 x nan_table) as Hok.
  specialize (Hok ltac:(lia)). unfold nan_stays_nan in Hok.
  apply andb_prop in Hok as [Hne Hnan].
  split; [destruct (PrimFloat.eqb _ _); [discriminate|reflexivity]|].
  destruct (adjust_channel _ _); [discriminate|reflexivity].
Qed.

(** X23: the function does not validate its input.  When the first two
    characters after the [#] are not a hexadecimal number, the colour
    adjusted for a brightness in 1..99 starts with [#NaN], whatever the
    other channels are: it is not a colour. *)
Theorem unparsed_red_gives_NaN (hexColor : string) (g b : option Z) (x : Z) :
  channels hexColor = (None, g, b) ->
  1 <= x <= 99 ->
  exists rest,
    adjustColorForBrightness hexColor (float_of_Z x)
    = String "#" (String "N" (String "a" (String "N" rest))).
Proof.
  intros Hch Hx. destruct (nan_channel x Hx) as [Hne Hnan].
  unfold adjustColorForBrightness. rewrite Hne.
  change (PrimFloat.eqb BRIGHTNESS_SCALING_FACTOR 0) with false.
  cbn [orb]. rewrite Hch.
  change (avgBrightness_of None g b) with PrimFloat.nan.
  change (darkBoost_of PrimFloat.nan) with 0%float.
  rewrite Hnan. eexists. reflexivity.
Qed.

Lemma unparsed_red_gives_NaN_witness :
  exists rest,
    adjustColorForBrightness "red" (float_of_Z 50)
    = String "#" (String "N" (String "a" (String "N" rest))).
Proof.
  apply (unparsed_red_gives_NaN "red" (Some 13) None 50);
    [vm_compute; reflexivity|lia].
Defined.

(** X24: the colour string the function builds is well formed and is
    read back by its own parser: three bytes written as two hexadecimal
    digits each, after a [#], make a string of seven characters that
    parses to the same three bytes. *)
Theorem hex_colour_round_trip (v1 v2 v3 : Z) :
  0 <= v1 <= 255 -> 0 <= v2 <= 255 -> 0 <= v3 <= 255 ->
  let colour := String "#" (padStart2 (toString16 (Some v1))
                            +:+ padStart2 (toString16 (Some v2))
                            +:+ padStart2 (toString16 (Some v3))) in
  String.length colour = 7%nat /\
  channels colour = (Some v1, Some v2, Some v3).
Proof.
  intros H1 H2 H3 colour. split; [|exact (channels_of_output v1 v2 v3 H1 H2 H3)].
  unfold colour.
  destruct (two_digits_at v1 H1) as (a1 & a2 & -> & _).
  destruct (two_digits_at v2 H2) as (b1 & b2 & -> & _).
  destruct (two_digits_at v3 H3) as (c1 & c2 & -> & _).
  reflexivity.
Qed.

Lemma hex_colour_round_trip_witness :
  String.length (String "#" (padStart2 (toString16 (Some 7))
                             +:+ padStart2 (toString16 (Some 255))
                             +:+ padStart2 (toString16 (Some 0)))) = 7%nat /\
  channels (String "#" (padStart2 (toString16 (Some 7))
                        +:+ padStart2 (toString16 (Some 255))
                        +:+ padStart2 (toString16 (Some 0))))
  = (Some 7, Some 255, Some 0).
Proof. apply (hex_colour_round_trip 7 255 0); lia. Defined.

End CompensationMore.
